(** * Copilot usage indicator (extension.ts): token discovery, usage fetch
      and display, as a shallow embedding.

    Conventions of the embedding.
    - A JavaScript string is a [string]; each [ascii] stands for one UTF-16
      code unit in the range 0..255 (the Latin-1 block), on which [trim],
      the regular-expression classes and [toLowerCase] are written out in
      full.
    - A JavaScript number is a binary64 value, [Number.number]: finite with
      its exact rational value, or infinite; every arithmetic result is
      rounded to the nearest binary64 number, ties to even.  NaN is left out
      ([JSON.parse] yields none and the code computes none from the numbers
      it reads), and minus zero is not told apart from zero (comparisons,
      [String] and [toFixed] treat both alike and the code divides by
      neither).
    - [null] and [undefined] are [None]; the decoded documents have the shape
      of the TypeScript interfaces the source casts them to.
    - The component is a state monad over its own fields and the widgets it
      owns; every call into the toolkit is also recorded in a log. *)

From Stdlib Require Import String Ascii List Bool Arith ZArith QArith Qround Qpower Lia Lqa.
From Stdlib Require Import DecimalString.
From ExtLib Require Import Structures.Monad Structures.MonadState Data.Monads.StateMonad.
Import ListNotations.
Import MonadNotation.
Local Close Scope Q_scope.
Local Open Scope monad_scope.
Local Open Scope string_scope.
Local Open Scope nat_scope.

(* ------------------------------------------------------------------------- *)
(** ** JavaScript strings *)
(* ------------------------------------------------------------------------- *)

Module Js.

(** White space and line terminators of ECMAScript below U+0100: TAB, LF, VT,
    FF, CR, SP and NBSP.  [String.prototype.trim] strips them and the class
    [\s] matches them. *)
Definition isWhiteSpace (c : ascii) : bool :=
  let n := nat_of_ascii c in
  ((9 <=? n) && (n <=? 13)) || (n =? 32) || (n =? 160).

Fixpoint trimStart (s : string) : string :=
  match s with
  | String c s' => if isWhiteSpace c then trimStart s' else s
  | EmptyString => EmptyString
  end.

(** [trimEnd] keeps a character when it is not white space or when something
    remains after it. *)
Fixpoint trimEnd (s : string) : string :=
  match s with
  | String c s' =>
      match trimEnd s' with
      | EmptyString => if isWhiteSpace c then EmptyString else String c EmptyString
      | r => String c r
      end
  | EmptyString => EmptyString
  end.

Definition trim (s : string) : string := trimEnd (trimStart s).

(** [toLowerCase] on one code unit: A-Z, and the Latin-1 capitals U+00C0 to
    U+00DE except the multiplication sign U+00D7, move up by 32. *)
Definition lowerChar (c : ascii) : ascii :=
  let n := nat_of_ascii c in
  if ((65 <=? n) && (n <=? 90)) || ((192 <=? n) && (n <=? 222) && negb (n =? 215))
  then ascii_of_nat (n + 32) else c.

Fixpoint toLowerCase (s : string) : string :=
  match s with
  | String c s' => String (lowerChar c) (toLowerCase s')
  | EmptyString => EmptyString
  end.

(** The class [\w]: ASCII letters, digits and the underscore. *)
Definition isWordChar (c : ascii) : bool :=
  let n := nat_of_ascii c in
  ((48 <=? n) && (n <=? 57)) || ((65 <=? n) && (n <=? 90))
  || (n =? 95) || ((97 <=? n) && (n <=? 122)).

(** [toUpperCase] of a single [\w] character. *)
Definition upperWordChar (c : ascii) : ascii :=
  let n := nat_of_ascii c in
  if (97 <=? n) && (n <=? 122) then ascii_of_nat (n - 32) else c.

(** Truthiness of a value of type [string | null | undefined]. *)
Definition truthy (t : option string) : bool :=
  match t with
  | Some s => negb (String.eqb s "")
  | None => false
  end.

(** [a ?? b]. *)
Definition nullish {A : Type} (a b : option A) : option A :=
  match a with
  | Some _ => a
  | None => b
  end.

(** The decimal digits of an integer, with its sign. *)
Definition ofZ (z : Z) : string := NilZero.string_of_int (Z.to_int z).

Definition ofNat (n : nat) : string := ofZ (Z.of_nat n).

(** [s.padStart(2, "0")]. *)
Definition padStart2 (s : string) : string :=
  match String.length s with
  | 0 => "00"
  | 1 => "0" ++ s
  | _ => s
  end.

End Js.

(* ------------------------------------------------------------------------- *)
(** ** JavaScript numbers *)
(* ------------------------------------------------------------------------- *)

Module Number.

(** A Number other than NaN: finite, with its exact value, or infinite.
    The value of a finite number is a rational; the arithmetic below rounds
    every result to binary64, so that the numbers it yields are those of
    IEEE 754 double precision. *)
Inductive number : Type :=
| Fin (q : Q)
| Inf (negative : bool).

Definition pow2 (k : Z) : Q := (2 ^ k)%Q.
Definition pow10 (k : Z) : Q := (10 ^ k)%Q.

(** The nearest integer, a half going to the even neighbour. *)
Definition rne (x : Q) : Z :=
  let f := Qfloor x in
  match (x - inject_Z f ?= 1 # 2)%Q with
  | Lt => f
  | Gt => (f + 1)%Z
  | Eq => if Z.even f then f else (f + 1)%Z
  end.

(** The least [k' >= k] with [a < b ^ k'], searched upwards in at most
    [fuel] steps. *)
Fixpoint least (b : Q) (fuel : nat) (k : Z) (a : Q) : option Z :=
  if Qle_bool (b ^ k) a then
    match fuel with
    | O => None
    | S n => least b n (k + 1)%Z a
    end
  else Some k.

(** The same from [lo] on and up to [hi].  The search starts at [guess]
    when nothing below it can do, that is when [b ^ (guess - 1) <= a], and
    at [lo] otherwise. *)
Definition leastFrom (b : Q) (lo hi guess : Z) (a : Q) : option Z :=
  let start :=
    if (lo <? guess)%Z && Qle_bool (b ^ (guess - 1)) a then guess else lo in
  least b (Z.to_nat (hi - start)) start a.

(** An estimate of the binary logarithm, from the bit lengths. *)
Definition log2Estimate (a : Q) : Z :=
  (Z.log2 (Qnum a) - Z.log2 (Zpos (Qden a)))%Z.

(** binary64: 53 bits of precision, the smallest positive number is
    [2 ^ EMIN], and every finite number is below [2 ^ EMAX]. *)
Definition PREC : Z := 53.
Definition EMIN : Z := -1074.
Definition EMAX : Z := 1024.

(** The binade of [a >= 0]: the least [k >= EMIN + PREC] with [a < 2 ^ k].
    The numbers of binary64 from [2 ^ (k - 1)] to [2 ^ k], and in the lowest
    binade those from 0 on, are the multiples of [2 ^ (k - PREC)]. *)
Definition binade (a : Q) : option Z :=
  leastFrom 2 (EMIN + PREC) EMAX (log2Estimate a) a.

(** [a >= 0] on the grid of the binade [k]: the nearest multiple of
    [2 ^ (k - PREC)], a tie going to the even multiple. *)
Definition grid (a : Q) (k : Z) : Q :=
  (inject_Z (rne (a / pow2 (k - PREC))) * pow2 (k - PREC))%Q.

(** Rounding of a real [a >= 0] to binary64 (round to nearest, ties to
    even): infinite once the rounded value reaches [2 ^ EMAX]. *)
Definition rndPos (a : Q) : number :=
  match binade a with
  | None => Inf false
  | Some k => if Qle_bool (pow2 EMAX) (grid a k) then Inf false else Fin (Qred (grid a k))
  end.

Definition opp (x : number) : number :=
  match x with
  | Fin q => Fin (- q)%Q
  | Inf s => Inf (negb s)
  end.

(** The Number value for a real number. *)
Definition rnd (q : Q) : number :=
  if Qle_bool 0 q then rndPos q else opp (rndPos (- q)%Q).

(** The value [JSON.parse] gives a number literal that denotes [q]. *)
Definition ofDecimal (q : Q) : number := rnd q.

(** [x <= y] *)
Definition leb (x y : number) : bool :=
  match x, y with
  | Fin a, Fin b => Qle_bool a b
  | Inf true, _ => true
  | _, Inf false => true
  | _, _ => false
  end.

Definition le (x y : number) : Prop := leb x y = true.

(** [x === y] *)
Definition eqb (x y : number) : bool :=
  match x, y with
  | Fin a, Fin b => Qeq_bool a b
  | Inf s, Inf t => Bool.eqb s t
  | _, _ => false
  end.

(** [Math.max(x, y)] and [Math.min(x, y)] *)
Definition max (x y : number) : number := if leb x y then y else x.
Definition min (x y : number) : number := if leb x y then x else y.

(** [x - y], [x / d] and [x * m], where [x], [d] and [m] are finite
    constants of the code, [d] and [m] positive: the exact result, rounded. *)
Definition sub (x : Q) (y : number) : number :=
  match y with
  | Fin q => rnd (x - q)
  | Inf s => Inf (negb s)
  end.

Definition div (x : number) (d : Q) : number :=
  match x with
  | Fin q => rnd (q / d)
  | Inf s => Inf s
  end.

Definition mul (x : number) (m : Q) : number :=
  match x with
  | Fin q => rnd (q * m)
  | Inf s => Inf s
  end.

(** [Math.round(x)]: the nearest integer, a half going up. *)
Definition round (x : number) : number :=
  match x with
  | Fin q => Fin (inject_Z (Qfloor (q + (1 # 2))))
  | Inf s => Inf s
  end.

(** [Number::toString]: the digits [s], their count [k] and the magnitude
    [n] are such that [s * 10 ^ (n - k)] rounds to the number and [k] is as
    small as possible; of two such [s] the nearer, then the even one. *)
Definition digitsAt (a : Q) (n : Z) (k : Z) : option Z :=
  let scale := pow10 (n - k) in
  let lo := Qfloor (a / scale) in
  let hi := (lo + 1)%Z in
  let ok s := eqb (rnd (inject_Z s * scale)) (rnd a) in
  match ok lo, ok hi with
  | true, true =>
      match (a - inject_Z lo * scale ?= inject_Z hi * scale - a)%Q with
      | Lt => Some lo
      | Gt => Some hi
      | Eq => if Z.even lo then Some lo else Some hi
      end
  | true, false => Some lo
  | false, true => Some hi
  | false, false => None
  end.

Fixpoint shortest (fuel : nat) (a : Q) (n : Z) (k : Z) : Z * Z :=
  match digitsAt a n k with
  | Some s => (s, k)
  | None =>
      match fuel with
      | O => (Qfloor (a / pow10 (n - k)), k)
      | S f => shortest f a n (k + 1)%Z
      end
  end.

Fixpoint zeros (n : nat) : string :=
  match n with
  | O => ""
  | S m => "0" ++ zeros m
  end.

Definition digitsBefore (n : nat) (s : string) : string := String.substring 0 n s.
Definition digitsAfter (n : nat) (s : string) : string :=
  String.substring n (String.length s - n) s.

Definition toStringPos (a : Q) : string :=
  match leastFrom 10 (-324) 400 ((log2Estimate a - 1) * 30103 / 100000 - 1)%Z a with
  | None => "Infinity"
  | Some n0 =>
      let '(s0, k0) := shortest 20 a n0 1 in
      (* digits that reached 10 ^ k stand for 1 at the next magnitude *)
      let '(s, k, n) :=
        if (s0 =? 10 ^ k0)%Z then (1%Z, 1%Z, (n0 + 1)%Z) else (s0, k0, n0) in
      let digits := Js.ofZ s in
      if ((k <=? n) && (n <=? 21))%Z then digits ++ zeros (Z.to_nat (n - k))
      else if ((0 <? n) && (n <=? 21))%Z then
        digitsBefore (Z.to_nat n) digits ++ "." ++ digitsAfter (Z.to_nat n) digits
      else if ((-6 <? n) && (n <=? 0))%Z then
        "0." ++ zeros (Z.to_nat (- n)) ++ digits
      else
        let e := (n - 1)%Z in
        let exponent := (if (e <? 0)%Z then "-" else "+") ++ Js.ofZ (Z.abs e) in
        if (k =? 1)%Z then digits ++ "e" ++ exponent
        else digitsBefore 1 digits ++ "." ++ digitsAfter 1 digits ++ "e" ++ exponent
  end.

(** [String(x)] *)
Definition toString (x : number) : string :=
  match x with
  | Inf false => "Infinity"
  | Inf true => "-Infinity"
  | Fin q =>
      if Qeq_bool q 0 then "0"
      else if Qle_bool 0 q then toStringPos q
      else "-" ++ toStringPos (- q)%Q
  end.

(** [x.toFixed(0)]: the sign, then the magnitude rounded to the nearest
    integer, a half going away from zero, in decimal digits; from [10 ^ 21]
    on, [String] of the magnitude. *)
Definition toFixed0 (x : number) : string :=
  match x with
  | Inf _ => toString x
  | Fin q =>
      let magnitude (a : Q) :=
        if Qle_bool (pow10 21) a then toString (Fin a)
        else Js.ofZ (Qfloor (a + (1 # 2))%Q) in
      if Qle_bool 0 q then magnitude q else "-" ++ magnitude (- q)%Q
  end.

End Number.

Abbreviation number := Number.number.
Abbreviation Fin := Number.Fin.
Abbreviation Inf := Number.Inf.

(* ------------------------------------------------------------------------- *)
(** ** Token discovery helpers *)
(* ------------------------------------------------------------------------- *)

(** A decoded JSON object of type [Record<string, A | undefined>]: its own
    keys in the order [Object.keys] lists them, each with its value. *)
Definition Record_ (A : Type) : Type := list (string * option A).

(** [data[key]]. *)
Fixpoint get {A : Type} (data : Record_ A) (key : string) : option A :=
  match data with
  | (k, v) :: rest => if String.eqb k key then v else get rest key
  | [] => None
  end.

Definition keys {A : Type} (data : Record_ A) : list string := map fst data.

(** [{ oauth_token?: string }] *)
Record HostEntry : Type := { oauth_token : option string }.

(** [{ accessToken?: string }] *)
Record OauthEntry : Type := { accessToken : option string }.

Definition TokenExtractor (A : Type) : Type := A -> option string.

(** [data?.["github.com"]?.oauth_token ?? null] *)
Definition readToken_hostsJson : TokenExtractor (option (Record_ HostEntry)) :=
  fun content =>
    match content with
    | None => None
    | Some data =>
        match get data "github.com" with
        | Some e => oauth_token e
        | None => None
        end
    end.

(** The loop [for (const key of Object.keys(data))] of [readToken_appsJson]. *)
Fixpoint appsJson_loop (data : Record_ HostEntry) (ks : list string) : option string :=
  match ks with
  | key :: ks' =>
      let t := match get data key with
               | Some e => oauth_token e
               | None => None
               end in
      if Js.truthy t then t else appsJson_loop data ks'
  | [] => None
  end.

Definition readToken_appsJson : TokenExtractor (option (Record_ HostEntry)) :=
  fun content =>
    match content with
    | None => None
    | Some data => appsJson_loop data (keys data)
    end.

(** The inner loop [for (const entry of entries)] of [readToken_oauthJson]:
    the first truthy [entry?.accessToken]. *)
Fixpoint oauthJson_entries (entries : list (option OauthEntry)) : option string :=
  match entries with
  | entry :: rest =>
      let t := match entry with
               | Some e => accessToken e
               | None => None
               end in
      if Js.truthy t then t else oauthJson_entries rest
  | [] => None
  end.

(** The outer loop; a value that is not an array ([None]) is skipped. *)
Fixpoint oauthJson_loop (data : Record_ (list (option OauthEntry))) (ks : list string)
  : option string :=
  match ks with
  | key :: ks' =>
      match get data key with
      | None => oauthJson_loop data ks'
      | Some entries =>
          match oauthJson_entries entries with
          | Some t => Some t
          | None => oauthJson_loop data ks'
          end
      end
  | [] => None
  end.

Definition readToken_oauthJson
  : TokenExtractor (option (Record_ (list (option OauthEntry)))) :=
  fun content =>
    match content with
    | None => None
    | Some data => oauthJson_loop data (keys data)
    end.

(** [s] starts with [p]: the rest of [s] behind it. *)
Fixpoint stripPrefix (p s : string) : option string :=
  match p, s with
  | EmptyString, _ => Some s
  | String a p', String b s' => if Ascii.eqb a b then stripPrefix p' s' else None
  | String _ _, EmptyString => None
  end.

(** The longest run of [\S] at the head of [s]. *)
Fixpoint takeNonSpace (s : string) : string :=
  match s with
  | String c s' => if Js.isWhiteSpace c then EmptyString else String c (takeNonSpace s')
  | EmptyString => EmptyString
  end.

(** [/oauth_token:\s*(\S+)/] anchored at the head of [s]: behind the marker
    the white space is skipped and the run of non-space characters that
    follows is the capture; an empty run is no match. *)
Definition ghYml_matchHere (s : string) : option string :=
  match stripPrefix "oauth_token:" s with
  | Some rest =>
      let tok := takeNonSpace (Js.trimStart rest) in
      if String.eqb tok "" then None else Some tok
  | None => None
  end.

(** [content.match(/oauth_token:\s*(\S+)/)]: the leftmost position where the
    pattern matches, and there its capture group. *)
Fixpoint readToken_ghYml (content : string) : option string :=
  match ghYml_matchHere content with
  | Some tok => Some tok
  | None =>
      match content with
      | String _ rest => readToken_ghYml rest
      | EmptyString => None
      end
  end.

(** Plans that have a hard monthly cap on Chat messages. *)
Definition CHAT_LIMITED_PLANS : list string := ["free"; "copilot_free"; "copilot-free"].

(** [Set.prototype.has] *)
Definition has (set : list string) (x : string) : bool := existsb (String.eqb x) set.

(* ------------------------------------------------------------------------- *)
(** ** Widgets *)
(* ------------------------------------------------------------------------- *)

(** The two usage rows ([UsageRowResult]) of the menu. *)
Inductive Row : Type := _premiumResult | _chatResult.

(** The actors whose visibility, width or style classes the indicator sets. *)
Inductive Widget : Type :=
| _setupItem | _setupSep | _openSettingsItem
| _headerItem | item (r : Row) | bar (r : Row) | _chatSep | _footerItem
| _settingsItem | _warningDot.

Inductive Label : Type :=
| _setupHeading | _setupBody | _planLabel
| usedLabel (r : Row) | percentLabel (r : Row) | _updatedLabel.

Definition Row_eq_dec (a b : Row) : {a = b} + {a <> b}.
Proof. decide equality. Defined.

Definition Widget_eq_dec (a b : Widget) : {a = b} + {a <> b}.
Proof. decide equality; apply Row_eq_dec. Defined.

Definition Label_eq_dec (a b : Label) : {a = b} + {a <> b}.
Proof. decide equality; apply Row_eq_dec. Defined.

(** What the shell shows: per actor its visibility, style classes and
    requested width, per label its text. *)
Record Ui : Type := {
  visible : Widget -> bool;
  style_classes : Widget -> list string;
  width : Widget -> number;
  text : Label -> string
}.

(** The calls the indicator makes into the toolkit. *)
Inductive UiCall : Type :=
| set_visible (w : Widget) (b : bool)
| set_text (l : Label) (s : string)
| set_width (w : Widget) (px : number)
| add_style_class_name (w : Widget) (c : string)
| remove_style_class_name (w : Widget) (c : string).

Definition upd {K V : Type} (eq_dec : forall a b : K, {a = b} + {a <> b})
  (f : K -> V) (k : K) (v : V) : K -> V :=
  fun k' => if eq_dec k k' then v else f k'.

(** A class is added once; removing it drops every occurrence. *)
Definition add_class (c : string) (l : list string) : list string :=
  if existsb (String.eqb c) l then l else (l ++ [c])%list.

Definition remove_class (c : string) (l : list string) : list string :=
  filter (fun x => negb (String.eqb c x)) l.

Definition apply_call (c : UiCall) (u : Ui) : Ui :=
  match c with
  | set_visible w b =>
      {| visible := upd Widget_eq_dec (visible u) w b; style_classes := style_classes u;
         width := width u; text := text u |}
  | set_text l s =>
      {| visible := visible u; style_classes := style_classes u;
         width := width u; text := upd Label_eq_dec (text u) l s |}
  | set_width w px =>
      {| visible := visible u; style_classes := style_classes u;
         width := upd Widget_eq_dec (width u) w px; text := text u |}
  | add_style_class_name w c =>
      {| visible := visible u;
         style_classes := upd Widget_eq_dec (style_classes u) w (add_class c (style_classes u w));
         width := width u; text := text u |}
  | remove_style_class_name w c =>
      {| visible := visible u;
         style_classes := upd Widget_eq_dec (style_classes u) w (remove_class c (style_classes u w));
         width := width u; text := text u |}
  end.

(* ------------------------------------------------------------------------- *)
(** ** The world a refresh runs in *)
(* ------------------------------------------------------------------------- *)

(** The token sources, in the order [_resolveToken] visits them. *)
Inductive TokenSource : Type :=
| gh_auth_token            (* 1) `gh auth token` subprocess *)
| gh_hosts_yml             (* 2) ~/.config/gh/hosts.yml *)
| copilot_hosts_json       (* 3) ~/.config/github-copilot/hosts.json *)
| copilot_apps_json        (* 4) ~/.config/github-copilot/apps.json *)
| copilot_oauth_json       (* 5) ~/.config/github-copilot/oauth.json *)
| settings_github_token.   (* 6) the "github-token" settings key *)

Definition TokenSource_eq_dec (a b : TokenSource) : {a = b} + {a <> b}.
Proof. decide equality. Defined.

(** How [Gio.Subprocess.new] and [communicate_utf8_finish] went. *)
Inductive SubprocessRun : Type :=
| SpawnThrows
| CommunicateThrows
| Communicated (stdout : option string).

(** How [load_contents_async] went for one file.  [ReadThrows] stands for an
    exception of [load_contents_finish] or, for a JSON file, of [JSON.parse];
    [Decoded] carries the text (hosts.yml) or the parsed document. *)
Inductive FileLoad (A : Type) : Type :=
| NoSourceObject
| ReadThrows
| Decoded (content : A).
Arguments NoSourceObject {A}.
Arguments ReadThrows {A}.
Arguments Decoded {A} content.

(** [QuotaSnapshot], [QuotaSnapshots] and [CopilotUsageData] of the API. *)
Record QuotaSnapshot : Type := {
  percent_remaining : option number;
  percentRemaining : option number
}.

Record QuotaSnapshots : Type := {
  premium_interactions : option QuotaSnapshot;
  premiumInteractions : option QuotaSnapshot;
  chat : option QuotaSnapshot
}.

Record CopilotUsageData : Type := {
  copilot_plan : option string;
  copilotPlan : option string;
  quota_snapshots : option QuotaSnapshots;
  quotaSnapshots : option QuotaSnapshots
}.

(** The body of a response: [get_data()] gave nothing, decoding or
    [JSON.parse] threw an error with this message, or the parsed value. *)
Inductive ResponseBody : Type :=
| NoData
| ParseThrows (message : string)
| Parsed (data : CopilotUsageData).

(** What the callback of [send_and_read_async] is handed. *)
Inductive FetchResult : Type :=
| NoSourceSession
| FinishThrows (message : string)
| Response (status_code : nat) (body : ResponseBody).

(** The points where a refresh yields to the main loop. *)
Inductive Suspension : Type :=
| AwaitProbe (s : TokenSource)
| AwaitHttp.

Record Env : Type := {
  gh_subprocess : SubprocessRun;
  hosts_yml : FileLoad string;
  hosts_json : FileLoad (option (Record_ HostEntry));
  apps_json : FileLoad (option (Record_ HostEntry));
  oauth_json : FileLoad (option (Record_ (list (option OauthEntry))));
  github_token : string;               (* settings.get_string("github-token") *)
  http : FetchResult;
  clock : nat * nat;                   (* getHours(), getMinutes() *)
  teardown : Suspension -> bool        (* destroy() is called during this wait *)
}.

(** What a refresh does, in order. *)
Inductive Event : Type :=
| Probed (s : TokenSource)
| HttpGet (url : string) (headers : list (string * string))
| UiCalled (c : UiCall)
| Destroy.

(* ------------------------------------------------------------------------- *)
(** ** The indicator *)
(* ------------------------------------------------------------------------- *)

Record Indicator : Type := {
  _menuState : option string;
  _destroyed : bool;
  ui : Ui;
  log : list Event
}.

Definition M : Type -> Type := state Indicator.

(** The state after one more event in the log. *)
Definition logged (e : Event) (st : Indicator) : Indicator :=
  {| _menuState := _menuState st; _destroyed := _destroyed st;
     ui := ui st; log := (log st ++ [e])%list |}.

(** The state after a call into the toolkit: the widget changes and the call
    is logged. *)
Definition called (c : UiCall) (st : Indicator) : Indicator :=
  {| _menuState := _menuState st; _destroyed := _destroyed st;
     ui := apply_call c (ui st); log := (log st ++ [UiCalled c])%list |}.

Definition menuStateSet (s : string) (st : Indicator) : Indicator :=
  {| _menuState := Some s; _destroyed := _destroyed st; ui := ui st; log := log st |}.

Definition torn (st : Indicator) : Indicator :=
  {| _menuState := _menuState st; _destroyed := true;
     ui := ui st; log := (log st ++ [Destroy])%list |}.

Definition emit (e : Event) : M unit := modify (logged e) ;; ret tt.

Definition call (c : UiCall) : M unit := modify (called c) ;; ret tt.

Definition set_menuState (s : string) : M unit := modify (menuStateSet s) ;; ret tt.

(** [destroy()]: the flag is raised first; stopping the timer, disconnecting
    the settings signal and aborting the session leave the widgets alone. *)
Definition destroy : M unit := modify torn ;; ret tt.

(** [_setMenuState] *)
Definition _setMenuState (state : string) : M unit :=
  cur <- gets _menuState ;;
  if match cur with Some c => String.eqb c state | None => false end then ret tt
  else
    set_menuState state ;;
    let isSetup := String.eqb state "setup" in
    call (set_visible _setupItem isSetup) ;;
    call (set_visible _setupSep isSetup) ;;
    call (set_visible _openSettingsItem isSetup) ;;
    call (set_visible _headerItem (negb isSetup)) ;;
    call (set_visible (item _premiumResult) (negb isSetup)) ;;
    call (set_visible _footerItem (negb isSetup)) ;;
    (if isSetup then
       call (set_visible (item _chatResult) false) ;;
       call (set_visible _chatSep false)
     else ret tt) ;;
    call (set_visible _settingsItem true).

(** [plan !== null && CHAT_LIMITED_PLANS.has(plan.toLowerCase())] *)
Definition isLimited (plan : option string) : bool :=
  match plan with
  | Some p => has CHAT_LIMITED_PLANS (Js.toLowerCase p)
  | None => false
  end.

(** [_updateChatVisibility] *)
Definition _updateChatVisibility (plan : option string) : M unit :=
  call (set_visible (item _chatResult) (isLimited plan)) ;;
  call (set_visible _chatSep (isLimited plan)).

(** [_showSetupState] *)
Definition _showSetupState (heading body : string) : M unit :=
  _setMenuState "setup" ;;
  call (set_text _setupHeading heading) ;;
  call (set_text _setupBody body) ;;
  call (set_visible _warningDot true) ;;
  call (remove_style_class_name _warningDot "dot-critical") ;;
  call (add_style_class_name _warningDot "dot-high").

(** [_showNetworkError]; the label exists from [_buildMenu] on. *)
Definition _showNetworkError (detail : string) : M unit :=
  call (set_text _updatedLabel ("Error: " ++ detail)) ;;
  call (set_visible _warningDot true) ;;
  call (remove_style_class_name _warningDot "dot-critical") ;;
  call (add_style_class_name _warningDot "dot-high").

(** [raw.replace(/[_-]/g, " ")] *)
Fixpoint replaceSeparators (raw : string) : string :=
  match raw with
  | String c s =>
      String (if Ascii.eqb c "_" || Ascii.eqb c "-" then " "%char else c) (replaceSeparators s)
  | EmptyString => EmptyString
  end.

(** [.replace(/\b\w/g, c => c.toUpperCase())]: a word character is put in
    upper case when the character before it is not a word character. *)
Fixpoint capitalizeWords (afterWord : bool) (s : string) : string :=
  match s with
  | String c s' =>
      let w := Js.isWordChar c in
      String (if w && negb afterWord then Js.upperWordChar c else c) (capitalizeWords w s')
  | EmptyString => EmptyString
  end.

(** [_formatPlan] *)
Definition _formatPlan (raw : string) : string :=
  capitalizeWords false (replaceSeparators raw).

(** [Math.min(100, Math.max(0, pct))] *)
Definition clampedPct (pct : number) : number :=
  Number.min (Fin 100) (Number.max (Fin 0) pct).

Definition TRACK_PX : Q := 244.

(** The style class [_updateBar] picks for a clamped percentage. *)
Definition usageClass (clamped : number) : string :=
  if Number.leb (Fin 90) clamped then "usage-critical"
  else if Number.leb (Fin 70) clamped then "usage-high"
  else if Number.leb (Fin 40) clamped then "usage-medium"
  else "usage-low".

(** [_updateBar] *)
Definition _updateBar (b : Widget) (pct : number) : M unit :=
  call (set_width b (Number.round (Number.mul (Number.div (clampedPct pct) 100) TRACK_PX))) ;;
  call (remove_style_class_name b "usage-low") ;;
  call (remove_style_class_name b "usage-medium") ;;
  call (remove_style_class_name b "usage-high") ;;
  call (remove_style_class_name b "usage-critical") ;;
  call (add_style_class_name b (usageClass (clampedPct pct))).

(** The local constants of [_updateUsageDisplay]. *)
Definition plan_of (data : CopilotUsageData) : option string :=
  Js.nullish (copilot_plan data) (copilotPlan data).

Definition snapshots_of (data : CopilotUsageData) : option QuotaSnapshots :=
  Js.nullish (quota_snapshots data) (quotaSnapshots data).

Definition premium_of (data : CopilotUsageData) : option QuotaSnapshot :=
  match snapshots_of data with
  | Some snapshots => Js.nullish (premium_interactions snapshots) (premiumInteractions snapshots)
  | None => None
  end.

Definition chat_of (data : CopilotUsageData) : option QuotaSnapshot :=
  match snapshots_of data with
  | Some snapshots => chat snapshots
  | None => None
  end.

Definition pctRemaining (snap : option QuotaSnapshot) : option number :=
  match snap with
  | Some s => Js.nullish (percent_remaining s) (percentRemaining s)
  | None => None
  end.

(** [!plan && !premium && !chat] *)
Definition noUsageFields (data : CopilotUsageData) : bool :=
  negb (Js.truthy (plan_of data))
  && match premium_of data with Some _ => false | None => true end
  && match chat_of data with Some _ => false | None => true end.

(** The block [_updateUsageDisplay] runs once for the premium row and once
    for the chat row. *)
Definition updateRow (r : Row) (remaining : option number) : M unit :=
  match remaining with
  | Some rem =>
      let used := Number.sub 100 rem in
      _updateBar (bar r) used ;;
      call (set_text (usedLabel r) (Number.toString (Number.round used) ++ "%")) ;;
      call (set_text (percentLabel r) (Number.toFixed0 rem ++ "% remaining"))
  | None =>
      _updateBar (bar r) (Fin 0) ;;
      call (set_text (usedLabel r) "unlimited") ;;
      call (set_text (percentLabel r) "")
  end.

(** The warning dot: shown only when premium is nearly exhausted. *)
Definition updateWarningDot (premR : option number) : M unit :=
  match premR with
  | Some r =>
      if Number.leb r (Fin 10) then
        call (set_visible _warningDot true) ;;
        call (add_style_class_name _warningDot
                (if Number.leb r (Fin 0) then "dot-critical" else "dot-high"))
      else
        call (set_visible _warningDot false) ;;
        call (remove_style_class_name _warningDot "dot-critical") ;;
        call (remove_style_class_name _warningDot "dot-high")
  | None =>
      call (set_visible _warningDot false) ;;
      call (remove_style_class_name _warningDot "dot-critical") ;;
      call (remove_style_class_name _warningDot "dot-high")
  end.

Definition NO_DATA_HEADING : string := "Copilot Data Unavailable".
Definition NO_DATA_BODY : string :=
  "API returned no usage data. Your token may lack Copilot permissions.".

(** [_updateUsageDisplay]; [now] is the wall clock read at the end. *)
Definition _updateUsageDisplay (now : nat * nat) (data : CopilotUsageData) : M unit :=
  let plan := plan_of data in
  let premium := premium_of data in
  let chat := chat_of data in
  if noUsageFields data then _showSetupState NO_DATA_HEADING NO_DATA_BODY
  else
    _setMenuState "usage" ;;
    call (set_text _planLabel (if Js.truthy plan
                               then match plan with Some p => _formatPlan p | None => "" end
                               else "")) ;;
    _updateChatVisibility plan ;;
    let premR := pctRemaining premium in
    updateRow _premiumResult premR ;;
    let chatR := pctRemaining chat in
    updateRow _chatResult chatR ;;
    updateWarningDot premR ;;
    let hh := Js.padStart2 (Js.ofNat (fst now)) in
    let mm := Js.padStart2 (Js.ofNat (snd now)) in
    call (set_text _updatedLabel ("Updated " ++ hh ++ ":" ++ mm)).

Definition AUTH_HEADING : string := "Token Invalid or Expired".
Definition AUTH_BODY : string := "The stored token was rejected. Update it in Settings.".
Definition NO_TOKEN_HEADING : string := "GitHub Token Required".
Definition NO_TOKEN_BODY : string := "No credentials found. Open Settings to add your token.".

Definition API_URL : string := "https://api.github.com/copilot_internal/user".

Definition request_headers (token : string) : list (string * string) :=
  [ ("Authorization", "token " ++ token);
    ("Accept", "application/json");
    ("Editor-Version", "vscode/1.96.2");
    ("Editor-Plugin-Version", "copilot-chat/0.26.7");
    ("User-Agent", "GitHubCopilotChat/0.26.7");
    ("X-Github-Api-Version", "2025-04-01") ].

(** [stdout?.trim() ?? null], then [token || null]. *)
Definition subprocessToken (run : SubprocessRun) : option string :=
  match run with
  | SpawnThrows => None
  | CommunicateThrows => None
  | Communicated stdout =>
      let token := option_map Js.trim stdout in
      if Js.truthy token then token else None
  end.

(** What [_readFileToken] resolves to: [extractFn(...) ?? null], or [null]
    when there is no source object or something threw. *)
Definition fileToken {A : Type} (load : FileLoad A) (extractFn : TokenExtractor A)
  : option string :=
  match load with
  | NoSourceObject => None
  | ReadThrows => None
  | Decoded content => extractFn content
  end.

Section Refresh.

Variable env : Env.

(** [await p]: the promise [p] has settled with [result]; [destroy()] may
    have run meanwhile. *)
Definition await {A : Type} (at_ : Suspension) (result : A) : M A :=
  (if teardown env at_ then destroy else ret tt) ;;
  ret result.

(** [_runSubprocessToken("gh", ["auth", "token"])], awaited. *)
Definition _runSubprocessToken : M (option string) :=
  emit (Probed gh_auth_token) ;;
  await (AwaitProbe gh_auth_token) (subprocessToken (gh_subprocess env)).

(** [_readFileToken(path, extractFn, isJson)], awaited. *)
Definition _readFileToken {A : Type} (s : TokenSource) (load : FileLoad A)
  (extractFn : TokenExtractor A) : M (option string) :=
  emit (Probed s) ;;
  await (AwaitProbe s) (fileToken load extractFn).

(** The callback of [send_and_read_async]. *)
Definition fetchCallback : M unit :=
  match http env with
  | NoSourceSession => ret tt
  | FinishThrows message => _showNetworkError message
  | Response status_code body =>
      if (status_code =? 401) || (status_code =? 403) then
        _showSetupState AUTH_HEADING AUTH_BODY
      else if negb (status_code =? 200) then
        _showNetworkError ("HTTP " ++ Js.ofNat status_code)
      else
        match body with
        | NoData => _showNetworkError "Empty response from API"
        | ParseThrows message => _showNetworkError message
        | Parsed data => _updateUsageDisplay (clock env) data
        end
  end.

(** [_fetchUsage]: the request goes out, and its callback runs once the
    main loop has the result. *)
Definition _fetchUsage (token : string) : M unit :=
  emit (HttpGet API_URL (request_headers token)) ;;
  await AwaitHttp tt ;;
  fetchCallback.

(** [if (token) return this._fetchUsage(token);] and what follows it. *)
Definition ifToken (token : option string) (otherwise : M unit) : M unit :=
  match token with
  | Some t => if String.eqb t "" then otherwise else _fetchUsage t
  | None => otherwise
  end.

(** One block of [_resolveToken] behind an [await]:
    [if (this._destroyed) return; if (token) return this._fetchUsage(token);] *)
Definition afterAwait (token : option string) (otherwise : M unit) : M unit :=
  d <- gets _destroyed ;;
  if d then ret tt else ifToken token otherwise.

(** [_resolveToken] *)
Definition _resolveToken : M unit :=
  (* 1) GitHub CLI via subprocess *)
  token <- _runSubprocessToken ;;
  afterAwait token (
  (* 2) GitHub CLI hosts.yml (legacy) *)
  token <- _readFileToken gh_hosts_yml (hosts_yml env) readToken_ghYml ;;
  afterAwait token (
  (* 3) ~/.config/github-copilot/hosts.json *)
  token <- _readFileToken copilot_hosts_json (hosts_json env) readToken_hostsJson ;;
  afterAwait token (
  (* 4) ~/.config/github-copilot/apps.json *)
  token <- _readFileToken copilot_apps_json (apps_json env) readToken_appsJson ;;
  afterAwait token (
  (* 5) ~/.config/github-copilot/oauth.json *)
  token <- _readFileToken copilot_oauth_json (oauth_json env) readToken_oauthJson ;;
  afterAwait token (
  (* 6) Manual token from extension settings *)
  emit (Probed settings_github_token) ;;
  let token := Js.trim (github_token env) in
  ifToken (Some token) (
  (* Nothing found - show setup UI *)
  _showSetupState NO_TOKEN_HEADING NO_TOKEN_BODY)))))).

(** [_refreshUsage] *)
Definition _refreshUsage : M unit := _resolveToken.

End Refresh.

(* ------------------------------------------------------------------------- *)
(** ** The indicator as [_init] leaves it *)
(* ------------------------------------------------------------------------- *)

(** The widgets as [_init] and [_buildMenu] construct them, before the first
    [_setMenuState]: actors are visible unless created hidden, and no width
    has been requested (-1). *)
Definition built : Ui := {|
  visible := fun w => match w with _warningDot => false | _ => true end;
  style_classes := fun w =>
    match w with
    | bar _ => ["copilot-progress-bar"; "usage-low"]
    | _warningDot => ["copilot-warning-dot"]
    | _settingsItem => ["copilot-settings-item"]
    | _ => []
    end;
  width := fun _ => Fin (-1);
  text := fun l =>
    match l with
    | _setupHeading => "GitHub Token Required"
    | _setupBody => "No credentials found. Open Settings to add your token."
    | _updatedLabel => "Not yet refreshed"
    | _ => ""
    end
|}.

(** [_buildMenu] ends with [_setMenuState("setup")]; the class-field
    initialisers, which run after [_init] returns, then put [_menuState]
    back to [null] and [_destroyed] to [false]. *)
Definition _init : Indicator :=
  let st := execState (_setMenuState "setup")
              {| _menuState := None; _destroyed := false; ui := built; log := [] |} in
  {| _menuState := None; _destroyed := false; ui := ui st; log := [] |}.

(** One refresh of an indicator in state [st]. *)
Definition refresh (env : Env) (st : Indicator) : Indicator :=
  execState (_refreshUsage env) st.

(* ------------------------------------------------------------------------- *)
(** ** Reading a log *)
(* ------------------------------------------------------------------------- *)

Definition probesOf (evs : list Event) : list TokenSource :=
  flat_map (fun e => match e with Probed s => [s] | _ => [] end) evs.

Definition fetchesOf (evs : list Event) : list (string * list (string * string)) :=
  flat_map (fun e => match e with HttpGet u h => [(u, h)] | _ => [] end) evs.

Definition uiCallsOf (evs : list Event) : list UiCall :=
  flat_map (fun e => match e with UiCalled c => [c] | _ => [] end) evs.

(** The events behind the first [Destroy]. *)
Fixpoint afterDestroy (evs : list Event) : list Event :=
  match evs with
  | Destroy :: rest => rest
  | _ :: rest => afterDestroy rest
  | [] => []
  end.

(* ------------------------------------------------------------------------- *)
(** ** The probes as a list *)
(* ------------------------------------------------------------------------- *)

(** The order of the blocks of [_resolveToken]. *)
Definition priority : list TokenSource :=
  [gh_auth_token; gh_hosts_yml; copilot_hosts_json; copilot_apps_json;
   copilot_oauth_json; settings_github_token].

(** The sources [_resolveToken] visits ahead of [s]. *)
Fixpoint takeUntil (s : TokenSource) (l : list TokenSource) : list TokenSource :=
  match l with
  | x :: rest => if TokenSource_eq_dec x s then [] else x :: takeUntil s rest
  | [] => []
  end.

Definition before (s : TokenSource) : list TokenSource := takeUntil s priority.

(** Whether the probe of [s] is awaited: all but the settings key. *)
Definition suspends (s : TokenSource) : bool :=
  match s with
  | settings_github_token => false
  | _ => true
  end.

(** What the probe of source [s] yields in [env]. *)
Definition probeToken (env : Env) (s : TokenSource) : option string :=
  match s with
  | gh_auth_token => subprocessToken (gh_subprocess env)
  | gh_hosts_yml => fileToken (hosts_yml env) readToken_ghYml
  | copilot_hosts_json => fileToken (hosts_json env) readToken_hostsJson
  | copilot_apps_json => fileToken (apps_json env) readToken_appsJson
  | copilot_oauth_json => fileToken (oauth_json env) readToken_oauthJson
  | settings_github_token => Some (Js.trim (github_token env))
  end.

(* ------------------------------------------------------------------------- *)
(** ** States along a refresh *)
(* ------------------------------------------------------------------------- *)

(** The state once the wait at [p] is over. *)
Definition awaited (env : Env) (p : Suspension) (st : Indicator) : Indicator :=
  if teardown env p then torn st else st.

(** The state once the probe of [s] has been started and has settled. *)
Definition probed (env : Env) (s : TokenSource) (st : Indicator) : Indicator :=
  awaited env (AwaitProbe s) (logged (Probed s) st).

(** The state once the probes of [l] have run one after the other, nobody
    calling [destroy()]. *)
Definition probedAll (l : list TokenSource) (st : Indicator) : Indicator :=
  fold_left (fun acc s => logged (Probed s) acc) l st.

(** The state once the request for [token] has gone out and been answered. *)
Definition answered (env : Env) (token : string) (st : Indicator) : Indicator :=
  awaited env AwaitHttp (logged (HttpGet API_URL (request_headers token)) st).

(** The resolver as the specification words it: the probes of the ordered
    list [l] are run one after the other; behind an awaited probe the
    teardown flag is looked at; the first non-empty token goes to the fetch;
    when the list is exhausted the "no credentials" setup state is shown.
    [_resolveToken] is compared with it in [resolveToken_resolveFrom]. *)
Fixpoint resolveFrom (env : Env) (l : list TokenSource) (st : Indicator) : Indicator :=
  match l with
  | [] => execState (_showSetupState NO_TOKEN_HEADING NO_TOKEN_BODY) st
  | s :: rest =>
      let st1 := if suspends s then probed env s st else logged (Probed s) st in
      if suspends s && _destroyed st1 then st1
      else if Js.truthy (probeToken env s)
           then match probeToken env s with
                | Some t => execState (_fetchUsage env t) st1
                | None => st1
                end
           else resolveFrom env rest st1
  end.

(** A computation that only calls into the toolkit: it appends those calls to
    the log and leaves [_destroyed] alone. *)
Definition uiOnly {A : Type} (m : M A) : Prop :=
  forall st, exists calls,
    log (execState m st) = (log st ++ map UiCalled calls)%list
    /\ _destroyed (execState m st) = _destroyed st.

(* ------------------------------------------------------------------------- *)
(** ** The menu state and the layout *)
(* ------------------------------------------------------------------------- *)

(** The menu is laid out for the setup state. *)
Definition setupLayout (u : Ui) : Prop :=
  visible u _setupItem = true /\ visible u _setupSep = true
  /\ visible u _openSettingsItem = true
  /\ visible u _headerItem = false /\ visible u (item _premiumResult) = false
  /\ visible u (item _chatResult) = false /\ visible u _chatSep = false
  /\ visible u _footerItem = false.

(** [_menuState] agrees with what is laid out. *)
Definition consistent (st : Indicator) : Prop :=
  _menuState st = Some "setup" -> setupLayout (ui st).

(** The snapshot [_updateUsageDisplay] shows in row [r]. *)
Definition snapshot_of (r : Row) (data : CopilotUsageData) : option QuotaSnapshot :=
  match r with
  | _premiumResult => premium_of data
  | _chatResult => chat_of data
  end.

(* ------------------------------------------------------------------------- *)
(** ** Payloads and worlds used as examples *)
(* ------------------------------------------------------------------------- *)

(** The body [{"copilot_plan": plan, "quota_snapshots":
    {"premium_interactions": {"percent_remaining": r}}}]. *)
Definition snakeBody (plan : string) (r : Q) : CopilotUsageData := {|
  copilot_plan := Some plan; copilotPlan := None;
  quota_snapshots := Some {|
    premium_interactions :=
      Some {| percent_remaining := Some (Number.ofDecimal r); percentRemaining := None |};
    premiumInteractions := None; chat := None |};
  quotaSnapshots := None
|}.

(** The body of [snakeBody] spelled in camelCase. *)
Definition camelBody (plan : string) (r : Q) : CopilotUsageData := {|
  copilot_plan := None; copilotPlan := Some plan;
  quota_snapshots := None;
  quotaSnapshots := Some {|
    premium_interactions := None;
    premiumInteractions :=
      Some {| percent_remaining := None; percentRemaining := Some (Number.ofDecimal r) |};
    chat := None |}
|}.

(** A body that carries both spellings of every field, with different values. *)
Definition mixedBody (plan : string) (r : Q) (plan' : string) (r' : Q) : CopilotUsageData :=
  let n := Number.ofDecimal r in
  let n' := Number.ofDecimal r' in {|
  copilot_plan := Some plan; copilotPlan := Some plan';
  quota_snapshots := Some {|
    premium_interactions := Some {| percent_remaining := Some n; percentRemaining := Some n' |};
    premiumInteractions := Some {| percent_remaining := Some n'; percentRemaining := Some n |};
    chat := None |};
  quotaSnapshots := Some {|
    premium_interactions := Some {| percent_remaining := Some n'; percentRemaining := None |};
    premiumInteractions := None; chat := None |}
|}.

(** The body [{}]. *)
Definition emptyBody : CopilotUsageData := {|
  copilot_plan := None; copilotPlan := None; quota_snapshots := None; quotaSnapshots := None
|}.

(** A world with nothing in it: no gh, no files, no manual token, no network. *)
Definition bareEnv : Env := {|
  gh_subprocess := SpawnThrows;
  hosts_yml := ReadThrows;
  hosts_json := ReadThrows;
  apps_json := ReadThrows;
  oauth_json := ReadThrows;
  github_token := "";
  http := FinishThrows "Could not connect";
  clock := (9, 5);
  teardown := fun _ => false
|}.

(** A world where the legacy hosts.yml and the settings key both hold a
    token; gh is not installed. *)
Definition ymlEnv : Env := {|
  gh_subprocess := SpawnThrows;
  hosts_yml := Decoded "github.com:
    user: octocat
    oauth_token: gho_yml
";
  hosts_json := ReadThrows;
  apps_json := ReadThrows;
  oauth_json := ReadThrows;
  github_token := "ghp_manual";
  http := Response 200 (Parsed (snakeBody "pro" 80));
  clock := (9, 5);
  teardown := fun _ => false
|}.

(** A world where the settings key holds a token and the indicator is
    destroyed while the request is in flight: [session.abort()] makes
    [send_and_read_finish] throw in the callback. *)
Definition tornFetchEnv : Env := {|
  gh_subprocess := SpawnThrows;
  hosts_yml := ReadThrows;
  hosts_json := ReadThrows;
  apps_json := ReadThrows;
  oauth_json := ReadThrows;
  github_token := "ghp_manual";
  http := FinishThrows "Operation was cancelled";
  clock := (9, 5);
  teardown := fun p => match p with AwaitHttp => true | AwaitProbe _ => false end
|}.

(** A world with the given output of gh, hosts.json, apps.json, oauth.json
    and settings key, and nothing else. *)
Definition tokenEnv (gh : SubprocessRun) (hosts apps : FileLoad (option (Record_ HostEntry)))
  (oauth : FileLoad (option (Record_ (list (option OauthEntry))))) (setting : string)
  : Env := {|
  gh_subprocess := gh;
  hosts_yml := ReadThrows;
  hosts_json := hosts;
  apps_json := apps;
  oauth_json := oauth;
  github_token := setting;
  http := Response 401 NoData;
  clock := (9, 5);
  teardown := fun _ => false
|}.

(** hosts.json with a token that has white space around it. *)
Definition paddedHosts : FileLoad (option (Record_ HostEntry)) :=
  Decoded (Some [("github.com", Some {| oauth_token := Some " ghu_hosts " |})]).

(** hosts.json with a token that is one space. *)
Definition blankHosts : FileLoad (option (Record_ HostEntry)) :=
  Decoded (Some [("github.com", Some {| oauth_token := Some " " |})]).

(** apps.json whose second entry is the first with a token, one that ends
    in a space. *)
Definition paddedApps : FileLoad (option (Record_ HostEntry)) :=
  Decoded (Some [("github.com:Iv1.a", Some {| oauth_token := None |});
                 ("github.com:Iv1.b", Some {| oauth_token := Some "ghu_apps " |})]).

(** oauth.json whose first array has a null entry and an entry without a
    token, and whose second array holds a token that starts with a space. *)
Definition paddedOauth : FileLoad (option (Record_ (list (option OauthEntry)))) :=
  Decoded (Some [("https://github.com/login/oauth",
                   Some [None; Some {| accessToken := None |}]);
                 ("https://github.com/login/device",
                   Some [Some {| accessToken := Some "" |};
                         Some {| accessToken := Some " ghu_oauth" |}])]).

Definition with_http (env : Env) (r : FetchResult) : Env := {|
  gh_subprocess := gh_subprocess env; hosts_yml := hosts_yml env;
  hosts_json := hosts_json env; apps_json := apps_json env;
  oauth_json := oauth_json env; github_token := github_token env;
  http := r; clock := clock env; teardown := teardown env
|}.

(* ------------------------------------------------------------------------- *)
(** ** More vocabulary for the properties *)
(* ------------------------------------------------------------------------- *)

(** Every character of [s] satisfies [p]. *)
Fixpoint stringAll (p : ascii -> bool) (s : string) : bool :=
  match s with
  | String c s' => p c && stringAll p s'
  | EmptyString => true
  end.

(** The characters [_formatPlan] replaces by a space. *)
Definition isSeparator (c : ascii) : bool := Ascii.eqb c "_" || Ascii.eqb c "-".

(** The style classes [_updateBar] removes before it adds one of them. *)
Definition usageClasses : list string :=
  ["usage-low"; "usage-medium"; "usage-high"; "usage-critical"].

(** The events one refresh appends to the log. *)
Definition events (env : Env) (st : Indicator) : list Event :=
  skipn (length (log st)) (log (refresh env st)).

(** [data[key]?.oauth_token]: what [readToken_appsJson] tests for one key. *)
Definition tokenAt (data : Record_ HostEntry) (key : string) : option string :=
  match get data key with
  | Some e => oauth_token e
  | None => None
  end.

(** The document of the file source [s] has [t] as the token the extractor
    comes to first: under "github.com" for hosts.json; for apps.json under
    the key [key], no key ahead of it having a non-empty token; for
    oauth.json in the entry [e] of the array under [key], no entry ahead of
    it in that array and no entry of an array under an earlier key having a
    non-empty access token. *)
Definition holdsToken (env : Env) (s : TokenSource) (t : string) : Prop :=
  match s with
  | copilot_hosts_json =>
      exists data e, hosts_json env = Decoded (Some data)
                     /\ get data "github.com" = Some e /\ oauth_token e = Some t
  | copilot_apps_json =>
      exists data pre key post,
        apps_json env = Decoded (Some data)
        /\ keys data = (pre ++ key :: post)%list
        /\ (forall k, In k pre -> Js.truthy (tokenAt data k) = false)
        /\ tokenAt data key = Some t
  | copilot_oauth_json =>
      exists data pre key post ahead e behind,
        oauth_json env = Decoded (Some data)
        /\ keys data = (pre ++ key :: post)%list
        /\ (forall k entries e', In k pre -> get data k = Some entries ->
                                 In (Some e') entries -> Js.truthy (accessToken e') = false)
        /\ get data key = Some (ahead ++ Some e :: behind)%list
        /\ (forall e', In (Some e') ahead -> Js.truthy (accessToken e') = false)
        /\ accessToken e = Some t
  | _ => False
  end.

(** [s] is empty or starts with white space: what follows a [\S+] match. *)
Definition endsToken (s : string) : Prop :=
  match s with
  | String c _ => Js.isWhiteSpace c = true
  | EmptyString => True
  end.

(** [env] with [destroy()] called during the waits [t] picks. *)
Definition with_teardown (env : Env) (t : Suspension -> bool) : Env := {|
  gh_subprocess := gh_subprocess env; hosts_yml := hosts_yml env;
  hosts_json := hosts_json env; apps_json := apps_json env;
  oauth_json := oauth_json env; github_token := github_token env;
  http := http env; clock := clock env; teardown := t
|}.

(** [env] with the settings key "github-token" set to [t]. *)
Definition with_github_token (env : Env) (t : string) : Env := {|
  gh_subprocess := gh_subprocess env; hosts_yml := hosts_yml env;
  hosts_json := hosts_json env; apps_json := apps_json env;
  oauth_json := oauth_json env; github_token := t;
  http := http env; clock := clock env; teardown := teardown env
|}.

(** The world of [ymlEnv] with a teardown while hosts.yml is being read. *)
Definition tornProbeEnv : Env :=
  with_teardown ymlEnv
    (fun p => match p with AwaitProbe gh_hosts_yml => true | _ => false end).

(** The menu is laid out for the usage state; the chat row is left to
    [_updateChatVisibility]. *)
Definition usageLayout (u : Ui) : Prop :=
  visible u _setupItem = false /\ visible u _setupSep = false
  /\ visible u _openSettingsItem = false
  /\ visible u _headerItem = true /\ visible u (item _premiumResult) = true
  /\ visible u _footerItem = true.

(** [_menuState] and the layout are in step: before the first
    [_setMenuState] survives and in the "setup" state the menu shows the
    setup layout, in the "usage" state the usage layout; there is no other
    state, and the shared Settings item is visible. *)
Definition inStep (st : Indicator) : Prop :=
  match _menuState st with
  | None => setupLayout (ui st)
  | Some s => (s = "setup" /\ setupLayout (ui st)) \/ (s = "usage" /\ usageLayout (ui st))
  end
  /\ visible (ui st) _settingsItem = true.

(** The indicator after one refresh in each of the worlds [envs], in turn. *)
Definition refreshes (envs : list Env) (st : Indicator) : Indicator :=
  fold_left (fun acc env => refresh env acc) envs st.

(** The classes of the warning dot that mark a level. *)
Definition dotClass (remaining : number) : string :=
  if Number.leb remaining (Fin 0) then "dot-critical" else "dot-high".

(** prefs.ts, the "apply" handler of the token row:
    [settings.set_string("github-token", tokenRow.get_text().trim())]. *)
Definition applyToken (text : string) (env : Env) : Env :=
  with_github_token env (Js.trim text).

(* ------------------------------------------------------------------------- *)
(** ** The refresh timer *)
(* ------------------------------------------------------------------------- *)

Module Timer.

(** The field [_timerId]: a source id, [null], or [undefined] as long as
    neither an assignment nor the class-field initialiser has run. *)
Inductive TimerId : Type :=
| undefined
| null
| id (n : nat).

(** The indicator's [_timerId] and, of GLib's main loop, the timeout sources
    the indicator has armed (id and interval in seconds) and the id the next
    source gets. *)
Record State : Type := {
  _timerId : TimerId;
  armed : list (nat * Z);
  fresh : nat
}.

(** [GLib.timeout_add_seconds(GLib.PRIORITY_DEFAULT, interval, callback)] *)
Definition timeout_add_seconds (interval : Z) (st : State) : nat * State :=
  (fresh st,
   {| _timerId := _timerId st; armed := (fresh st, interval) :: armed st;
      fresh := S (fresh st) |}).

(** [GLib.source_remove(id)] *)
Definition source_remove (n : nat) (st : State) : State :=
  {| _timerId := _timerId st;
     armed := filter (fun s => negb (fst s =? n)) (armed st);
     fresh := fresh st |}.

(** [_stopTimer].  The test is [this._timerId !== null], which [undefined]
    passes; [undefined] is no source's id, so that nothing is removed then. *)
Definition _stopTimer (st : State) : State :=
  match _timerId st with
  | id n =>
      let st1 := source_remove n st in
      {| _timerId := null; armed := armed st1; fresh := fresh st1 |}
  | undefined => {| _timerId := null; armed := armed st; fresh := fresh st |}
  | null => st
  end.

(** [_startTimer]; [interval] is [settings.get_int("refresh-interval")]. *)
Definition _startTimer (interval : Z) (st : State) : State :=
  let st1 := _stopTimer st in
  if (interval <=? 0)%Z then st1
  else
    let (n, st2) := timeout_add_seconds interval st1 in
    {| _timerId := id n; armed := armed st2; fresh := fresh st2 |}.

(** The class-field initialiser [_timerId = null], which runs once [_init]
    has returned. *)
Definition fieldInitialiser (st : State) : State :=
  {| _timerId := null; armed := armed st; fresh := fresh st |}.

(** Before [_init]: the field not yet set, no source armed, GLib about to
    hand out the id [n]. *)
Definition init (n : nat) : State := {| _timerId := undefined; armed := []; fresh := n |}.

(** Construction of the indicator, as far as the timer goes: [_init] calls
    [_startTimer], then the initialiser runs. *)
Definition construct (interval : Z) (n : nat) : State :=
  fieldInitialiser (_startTimer interval (init n)).

(** [destroy()], as far as the timer goes. *)
Definition destroy (st : State) : State := _stopTimer st.

End Timer.

(* ========================================================================= *)
(** * Properties *)
(* ========================================================================= *)

Example trim_ex : Js.trim "  gho_abc
 " = "gho_abc".
Proof. reflexivity. Qed.

Example lower_ex : Js.toLowerCase "Copilot_FREE" = "copilot_free".
Proof. reflexivity. Qed.

(** Binary64 at work: [100 - 0.5000000000000001] is exactly 99.5, which
    [Math.round] takes to 100; [100 - 10.000000000000002] is exactly 90; a
    product that lands on a half pixel is rounded up; [String] turns to the
    exponent notation from [1e21]; a literal beyond the range is infinite. *)
Example sub_ex :
  Number.sub 100 (Number.ofDecimal (5000000000000001 # 10000000000000000)) = Fin (199 # 2)
  /\ Number.sub 100 (Number.ofDecimal (10000000000000002 # 1000000000000000)) = Fin 90.
Proof. vm_compute. split; reflexivity. Qed.

Example round_ex :
  Number.round (Fin (5 # 2)) = Fin 3 /\ Number.round (Fin (- (5 # 2))) = Fin (-2)
  /\ Number.round (Fin (199 # 2)) = Fin 100.
Proof. vm_compute. repeat split. Qed.

Example width_ex :
  Number.round
    (Number.mul
       (Number.div (clampedPct (Number.ofDecimal (10245901639344261 # 10000000000000000))) 100)
       TRACK_PX)
  = Fin 3.
Proof. vm_compute. reflexivity. Qed.

Example toString_ex :
  Number.toString (Fin 100) = "100"
  /\ Number.toString (Fin (-50)) = "-50"
  /\ Number.toString (Number.round (Number.sub 100 (Number.ofDecimal (- (10 ^ 21))))) = "1e+21"
  /\ Number.toString (Number.ofDecimal (2 ^ 60)) = "1152921504606847000"
  /\ Number.toString (Number.ofDecimal (5 # 2)) = "2.5"
  /\ Number.toString (Number.sub 100 (Number.ofDecimal (10 ^ 999))) = "-Infinity".
Proof. vm_compute. repeat split. Qed.

Example toFixed0_ex :
  Number.toFixed0 (Fin (- (5 # 2))) = "-3" /\ Number.toFixed0 (Fin (4 # 10)) = "0"
  /\ Number.toFixed0 (Fin (- (4 # 10))) = "-0"
  /\ Number.toFixed0 (Number.ofDecimal (2 ^ 60)) = "1152921504606846976"
  /\ Number.toFixed0 (Number.ofDecimal (10 ^ 21)) = "1e+21".
Proof. vm_compute. repeat split. Qed.

(** The extractors on small documents. *)
Example readToken_appsJson_ex :
  readToken_appsJson
    (Some [("a", Some {| oauth_token := None |}); ("b", Some {| oauth_token := Some "T" |})])
  = Some "T".
Proof. reflexivity. Qed.

Example readToken_hostsJson_ex :
  readToken_hostsJson (Some [("github.com", Some {| oauth_token := Some "X" |})]) = Some "X"
  /\ readToken_hostsJson (Some []) = None.
Proof. split; reflexivity. Qed.

Example readToken_ghYml_ex :
  readToken_ghYml "oauth_token: abc123
" = Some "abc123" /\ readToken_ghYml "user: me" = None.
Proof. split; reflexivity. Qed.

Example readToken_oauthJson_ex :
  readToken_oauthJson
    (Some [("note", None);
           ("https://github.com/login/oauth",
            Some [None; Some {| accessToken := Some "" |}; Some {| accessToken := Some "A" |}])])
  = Some "A".
Proof. reflexivity. Qed.

(** A refresh that finds the token of hosts.yml and is answered with plan
    "pro" and 80 % of the premium quota remaining. *)
Example refresh_ex :
  let st := refresh ymlEnv _init in
  _menuState st = Some "usage"
  /\ text (ui st) _planLabel = "Pro"
  /\ text (ui st) (usedLabel _premiumResult) = "20%"
  /\ text (ui st) (percentLabel _premiumResult) = "80% remaining"
  /\ text (ui st) (usedLabel _chatResult) = "unlimited"
  /\ visible (ui st) (item _chatResult) = false
  /\ text (ui st) _updatedLabel = "Updated 09:05".
Proof. vm_compute. repeat split. Qed.

Example formatPlan_ex : _formatPlan "copilot_free-plan" = "Copilot Free Plan".
Proof. reflexivity. Qed.

(* ------------------------------------------------------------------------- *)
(** ** Binary64 arithmetic *)
(* ------------------------------------------------------------------------- *)

Section NumberFacts.
Import Number.
Local Open Scope Q_scope.

Lemma pow2_pos (k : Z) : 0 < pow2 k.
Proof. apply Qpower_0_lt. reflexivity. Qed.

Lemma pow2_plus (x y : Z) : pow2 (x + y) == pow2 x * pow2 y.
Proof. apply Qpower_plus. discriminate. Qed.

Lemma pow2_le (x y : Z) : (x <= y)%Z -> pow2 x <= pow2 y.
Proof. intros H. apply Qpower_le_compat_l; [exact H | discriminate]. Qed.

Lemma least_some (b : Q) (fuel : nat) :
  forall k a r, least b fuel k a = Some r ->
    (k <= r)%Z /\ a < b ^ r /\ (r = k \/ b ^ (r - 1) <= a).
Proof.
  induction fuel as [|n IH]; intros k a r H; simpl in H;
    destruct (Qle_bool (b ^ k) a) eqn:E; try discriminate.
  - injection H as <-. split; [lia|]. split; [|left; reflexivity].
    apply Qnot_le_lt. intros C. apply Qle_bool_iff in C. congruence.
  - apply IH in H. destruct H as (H1 & H2 & H3). split; [lia|]. split; [exact H2|].
    right. destruct H3 as [-> | H3]; [|exact H3].
    replace (k + 1 - 1)%Z with k by lia. apply Qle_bool_iff. exact E.
  - injection H as <-. split; [lia|]. split; [|left; reflexivity].
    apply Qnot_le_lt. intros C. apply Qle_bool_iff in C. congruence.
Qed.

Lemma least_none (b : Q) (fuel : nat) :
  forall k a, least b fuel k a = None -> b ^ (k + Z.of_nat fuel) <= a.
Proof.
  induction fuel as [|n IH]; intros k a H; simpl in H;
    destruct (Qle_bool (b ^ k) a) eqn:E; try discriminate.
  - replace (k + Z.of_nat 0)%Z with k by lia. apply Qle_bool_iff. exact E.
  - apply IH in H. replace (k + Z.of_nat (S n))%Z with (k + 1 + Z.of_nat n)%Z by lia.
    exact H.
Qed.

Lemma leastFrom_some (b : Q) (lo hi g : Z) (a : Q) (r : Z) :
  leastFrom b lo hi g a = Some r ->
  (lo <= r)%Z /\ a < b ^ r /\ (r = lo \/ b ^ (r - 1) <= a).
Proof.
  unfold leastFrom. intros H.
  destruct ((lo <? g)%Z && Qle_bool (b ^ (g - 1)) a) eqn:E.
  - apply andb_true_iff in E. destruct E as [E1 E2].
    apply Z.ltb_lt in E1. apply Qle_bool_iff in E2.
    apply least_some in H. destruct H as (H1 & H2 & H3).
    split; [lia|]. split; [exact H2|]. right.
    destruct H3 as [-> | H3]; assumption.
  - apply least_some in H. exact H.
Qed.

Lemma leastFrom_none (b : Q) (lo hi g : Z) (a : Q) :
  1 <= b -> leastFrom b lo hi g a = None -> b ^ hi <= a.
Proof.
  unfold leastFrom. intros Hb H.
  set (start := if ((lo <? g)%Z && Qle_bool (b ^ (g - 1)) a)%bool then g else lo) in *.
  apply least_none in H.
  eapply Qle_trans; [|exact H].
  apply Qpower_le_compat_l; [lia | exact Hb].
Qed.

Lemma binade_some (a : Q) (k : Z) :
  binade a = Some k ->
  (EMIN + PREC <= k)%Z /\ a < pow2 k /\ (k = (EMIN + PREC)%Z \/ pow2 (k - 1) <= a).
Proof. apply leastFrom_some. Qed.

Lemma binade_none (a : Q) : binade a = None -> pow2 EMAX <= a.
Proof. apply leastFrom_none. discriminate. Qed.

(** Rounding to an integer. *)

Lemma rne_cases (x : Q) :
  (rne x = Qfloor x /\ x - inject_Z (Qfloor x) <= 1 # 2
   /\ (x - inject_Z (Qfloor x) == 1 # 2 -> Z.even (Qfloor x) = true))
  \/ (rne x = (Qfloor x + 1)%Z /\ 1 # 2 <= x - inject_Z (Qfloor x)
      /\ (x - inject_Z (Qfloor x) == 1 # 2 -> Z.even (Qfloor x) = false)).
Proof.
  unfold rne. cbv zeta.
  destruct (Qcompare_spec (x - inject_Z (Qfloor x)) (1 # 2)) as [E|E|E].
  - destruct (Z.even (Qfloor x)) eqn:Ev.
    + left. split; [reflexivity|]. split; [rewrite E; apply Qle_refl|]. intros _. reflexivity.
    + right. split; [reflexivity|]. split; [rewrite E; apply Qle_refl|]. intros _. reflexivity.
  - left. split; [reflexivity|]. split; [apply Qlt_le_weak; exact E|].
    intros C. rewrite C in E. apply Qlt_irrefl in E. destruct E.
  - right. split; [reflexivity|]. split; [apply Qlt_le_weak; exact E|].
    intros C. rewrite C in E. apply Qlt_irrefl in E. destruct E.
Qed.

Lemma rne_floor (x : Q) :
  x - inject_Z (Qfloor x) < 1 # 2 -> rne x = Qfloor x.
Proof.
  intros H. unfold rne. cbv zeta.
  destruct (Qcompare_spec (x - inject_Z (Qfloor x)) (1 # 2)) as [E|E|E].
  - rewrite E in H. apply Qlt_irrefl in H. destruct H.
  - reflexivity.
  - exfalso. apply (Qlt_irrefl (1 # 2)). eapply Qlt_trans; eassumption.
Qed.

Lemma rne_mono (x y : Q) : x <= y -> (rne x <= rne y)%Z.
Proof.
  intros H.
  pose proof (Qfloor_resp_le x y H) as F.
  destruct (rne_cases x) as [(Ex & Dx & Px) | (Ex & Dx & Px)];
    destruct (rne_cases y) as [(Ey & Dy & Py) | (Ey & Dy & Py)];
    rewrite Ex, Ey; try lia.
  destruct (Z.eq_dec (Qfloor x) (Qfloor y)) as [Q|Q]; [|lia].
  exfalso. rewrite Q in *.
  assert (Dxe : x - inject_Z (Qfloor y) == 1 # 2) by lra.
  assert (Dye : y - inject_Z (Qfloor y) == 1 # 2) by lra.
  specialize (Px Dxe). specialize (Py Dye). congruence.
Qed.

Lemma rne_Z (n : Z) : rne (inject_Z n) = n.
Proof.
  rewrite rne_floor; rewrite Qfloor_Z; [reflexivity|].
  setoid_replace (inject_Z n - inject_Z n) with 0 by ring. reflexivity.
Qed.

Lemma rne_le (x : Q) (n : Z) : x <= inject_Z n -> (rne x <= n)%Z.
Proof. intros H. rewrite <- (rne_Z n). apply rne_mono. exact H. Qed.

Lemma rne_ge (x : Q) (n : Z) : inject_Z n <= x -> (n <= rne x)%Z.
Proof. intros H. rewrite <- (rne_Z n). apply rne_mono. exact H. Qed.

(** Rounding to binary64 is monotone. *)

Lemma pow2_53 : inject_Z (2 ^ 53) == pow2 53.
Proof. reflexivity. Qed.

Lemma pow2_52 : inject_Z (2 ^ 52) == pow2 52.
Proof. reflexivity. Qed.

Lemma grid_mono (a b : Q) (k : Z) : a <= b -> grid a k <= grid b k.
Proof.
  intros H. unfold grid.
  pose proof (pow2_pos (k - PREC)) as P.
  apply Qmult_le_compat_r; [|apply Qlt_le_weak; exact P].
  rewrite <- Zle_Qle. apply rne_mono.
  apply Qmult_le_compat_r; [exact H|].
  apply Qlt_le_weak. apply Qinv_lt_0_compat. exact P.
Qed.

Lemma grid_nonneg (a : Q) (k : Z) : 0 <= a -> 0 <= grid a k.
Proof.
  intros H. unfold grid.
  pose proof (pow2_pos (k - PREC)) as P.
  apply Qmult_le_0_compat; [|apply Qlt_le_weak; exact P].
  change 0 with (inject_Z 0). rewrite <- Zle_Qle. apply rne_ge.
  change (inject_Z 0) with 0. apply Qle_shift_div_l; [exact P|]. lra.
Qed.

Lemma grid_upper (a : Q) (k : Z) : a <= pow2 k -> grid a k <= pow2 k.
Proof.
  intros H. unfold grid.
  pose proof (pow2_pos (k - PREC)) as P.
  assert (E : pow2 k == inject_Z (2 ^ 53) * pow2 (k - PREC)).
  { rewrite pow2_53. rewrite <- pow2_plus. unfold PREC.
    replace (53 + (k - 53))%Z with k by lia. reflexivity. }
  rewrite E.
  apply Qmult_le_compat_r; [|apply Qlt_le_weak; exact P].
  rewrite <- Zle_Qle. apply rne_le.
  apply Qle_shift_div_r; [exact P|]. rewrite <- E. exact H.
Qed.

Lemma grid_lower (a : Q) (k : Z) : pow2 (k - 1) <= a -> pow2 (k - 1) <= grid a k.
Proof.
  intros H. unfold grid.
  pose proof (pow2_pos (k - PREC)) as P.
  assert (E : pow2 (k - 1) == inject_Z (2 ^ 52) * pow2 (k - PREC)).
  { rewrite pow2_52. rewrite <- pow2_plus. unfold PREC.
    replace (52 + (k - 53))%Z with (k - 1)%Z by lia. reflexivity. }
  rewrite E.
  apply Qmult_le_compat_r; [|apply Qlt_le_weak; exact P].
  rewrite <- Zle_Qle. apply rne_ge.
  apply Qle_shift_div_l; [exact P|]. rewrite <- E. exact H.
Qed.

Lemma le_Inf_pos (x : number) : le x (Inf false).
Proof. destruct x as [q|[|]]; reflexivity. Qed.

Lemma le_Inf_neg (x : number) : le (Inf true) x.
Proof. destruct x as [q|[|]]; reflexivity. Qed.

Lemma le_Fin_iff (a b : Q) : le (Fin a) (Fin b) <-> a <= b.
Proof. unfold le. simpl. apply Qle_bool_iff. Qed.

Lemma number_le_refl (x : number) : le x x.
Proof. destruct x as [q|[|]]; try reflexivity. apply le_Fin_iff. apply Qle_refl. Qed.

Lemma number_le_trans (x y z : number) : le x y -> le y z -> le x z.
Proof.
  destruct x as [a|[|]], y as [b|[|]], z as [c|[|]]; try reflexivity; try discriminate.
  rewrite !le_Fin_iff. apply Qle_trans.
Qed.

Lemma number_le_total (x y : number) : le x y \/ le y x.
Proof.
  destruct x as [a|[|]], y as [b|[|]];
    try (left; reflexivity); try (right; reflexivity).
  rewrite !le_Fin_iff. destruct (Qlt_le_dec a b) as [H|H]; [left; apply Qlt_le_weak|right]; exact H.
Qed.

Lemma number_leb_false (x y : number) : leb x y = false -> le y x.
Proof.
  intros H. destruct (number_le_total x y) as [C|C]; [|exact C].
  unfold le in C. congruence.
Qed.

Lemma rndPos_nonneg (a : Q) : 0 <= a -> le (Fin 0) (rndPos a).
Proof.
  intros H. unfold rndPos.
  destruct (binade a) as [k|]; [|reflexivity].
  destruct (Qle_bool (pow2 EMAX) (grid a k)); [reflexivity|].
  apply le_Fin_iff. rewrite Qred_correct. apply grid_nonneg. exact H.
Qed.

Lemma rndPos_mono (a b : Q) : 0 <= a -> a <= b -> le (rndPos a) (rndPos b).
Proof.
  intros H0 H. unfold rndPos.
  destruct (binade a) as [ka|] eqn:Ba.
  - destruct (binade b) as [kb|] eqn:Bb.
    + apply binade_some in Ba. destruct Ba as (La & Ua & Da).
      apply binade_some in Bb. destruct Bb as (Lb & Ub & Db).
      assert (G : grid a ka <= grid b kb).
      { destruct (Z.lt_trichotomy ka kb) as [C|[C|C]].
        - destruct Db as [Db|Db]; [lia|].
          apply Qle_trans with (pow2 ka); [apply grid_upper, Qlt_le_weak, Ua|].
          apply Qle_trans with (pow2 (kb - 1)); [apply pow2_le; lia|].
          apply grid_lower. exact Db.
        - subst kb. apply grid_mono. exact H.
        - exfalso. destruct Da as [Da|Da]; [lia|].
          assert (pow2 kb <= pow2 (ka - 1)) by (apply pow2_le; lia). lra. }
      destruct (Qle_bool (pow2 EMAX) (grid a ka)) eqn:Oa.
      * apply Qle_bool_iff in Oa.
        assert (Ob : Qle_bool (pow2 EMAX) (grid b kb) = true)
          by (apply Qle_bool_iff; lra).
        rewrite Ob. reflexivity.
      * destruct (Qle_bool (pow2 EMAX) (grid b kb)); [reflexivity|].
        apply le_Fin_iff. rewrite !Qred_correct. exact G.
    + destruct (Qle_bool (pow2 EMAX) (grid a ka)); [reflexivity | apply le_Inf_pos].
  - apply binade_none in Ba.
    destruct (binade b) as [kb|] eqn:Bb; [|reflexivity].
    apply binade_some in Bb. destruct Bb as (Lb & Ub & Db).
    assert (K : (EMAX < kb)%Z).
    { apply Z.lt_nge. intros C. assert (pow2 kb <= pow2 EMAX) by (apply pow2_le; exact C). lra. }
    destruct Db as [Db|Db]; [unfold EMIN, PREC, EMAX in *; lia|].
    assert (Ob : Qle_bool (pow2 EMAX) (grid b kb) = true).
    { apply Qle_bool_iff. apply Qle_trans with (pow2 (kb - 1)); [apply pow2_le; lia|].
      apply grid_lower. exact Db. }
    rewrite Ob. reflexivity.
Qed.

Lemma opp_anti (x y : number) : le x y -> le (opp y) (opp x).
Proof.
  destruct x as [a|[|]], y as [b|[|]]; try reflexivity; try discriminate.
  simpl. rewrite !le_Fin_iff. intros H. lra.
Qed.

Lemma opp_nonpos (x : number) : le (Fin 0) x -> le (opp x) (Fin 0).
Proof. intros H. apply (opp_anti (Fin 0) x H). Qed.

Lemma rnd_mono (a b : Q) : a <= b -> le (rnd a) (rnd b).
Proof.
  intros H. unfold rnd.
  destruct (Qle_bool 0 a) eqn:Sa; destruct (Qle_bool 0 b) eqn:Sb.
  - apply Qle_bool_iff in Sa. apply rndPos_mono; assumption.
  - apply Qle_bool_iff in Sa.
    assert (C : Qle_bool 0 b = true) by (apply Qle_bool_iff; lra). congruence.
  - apply Qle_bool_iff in Sb.
    assert (Na : 0 <= - a).
    { destruct (Qlt_le_dec a 0) as [C|C]; [lra|]. apply Qle_bool_iff in C. congruence. }
    apply number_le_trans with (Fin 0).
    + apply opp_nonpos. apply rndPos_nonneg. exact Na.
    + apply rndPos_nonneg. exact Sb.
  - assert (Nb : 0 <= - b).
    { destruct (Qlt_le_dec b 0) as [C|C]; [lra|]. apply Qle_bool_iff in C. congruence. }
    apply opp_anti. apply rndPos_mono; [exact Nb | lra].
Qed.

Lemma rnd_exact :
  rnd 0 = Fin 0 /\ rnd 1 = Fin 1 /\ rnd 90 = Fin 90 /\ rnd 100 = Fin 100
  /\ rnd 244 = Fin 244.
Proof. vm_compute. repeat split. Qed.

Lemma number_bounded (x : number) (lo hi : Q) :
  le (Fin lo) x -> le x (Fin hi) -> exists q, x = Fin q /\ lo <= q /\ q <= hi.
Proof.
  destruct x as [q|[|]]; try discriminate.
  rewrite !le_Fin_iff. intros L U. exists q. repeat split; assumption.
Qed.

Lemma rnd_between (x lo hi : Q) :
  rnd lo = Fin lo -> rnd hi = Fin hi -> lo <= x -> x <= hi ->
  exists q, rnd x = Fin q /\ lo <= q /\ q <= hi.
Proof.
  intros El Eh L U. apply number_bounded.
  - rewrite <- El. apply rnd_mono. exact L.
  - rewrite <- Eh. apply rnd_mono. exact U.
Qed.

Lemma sub_anti (x : Q) (y y' : number) : le y y' -> le (sub x y') (sub x y).
Proof.
  destruct y as [a|[|]], y' as [b|[|]]; simpl; try discriminate; intros H;
    try apply le_Inf_pos; try apply le_Inf_neg; try reflexivity.
  apply rnd_mono. apply le_Fin_iff in H. lra.
Qed.

Lemma div_mono (x y : number) (d : Q) : 0 < d -> le x y -> le (div x d) (div y d).
Proof.
  intros Hd. destruct x as [a|[|]], y as [b|[|]]; simpl; try discriminate; intros H;
    try apply le_Inf_pos; try apply le_Inf_neg; try reflexivity.
  apply rnd_mono. apply le_Fin_iff in H.
  apply Qmult_le_compat_r; [exact H|]. apply Qlt_le_weak, Qinv_lt_0_compat, Hd.
Qed.

Lemma mul_mono (x y : number) (m : Q) : 0 <= m -> le x y -> le (mul x m) (mul y m).
Proof.
  intros Hm. destruct x as [a|[|]], y as [b|[|]]; simpl; try discriminate; intros H;
    try apply le_Inf_pos; try apply le_Inf_neg; try reflexivity.
  apply rnd_mono. apply le_Fin_iff in H. apply Qmult_le_compat_r; assumption.
Qed.

Lemma round_mono (x y : number) : le x y -> le (round x) (round y).
Proof.
  destruct x as [a|[|]], y as [b|[|]]; try discriminate; intros H; try reflexivity.
  apply le_Fin_iff in H. unfold round. apply le_Fin_iff. rewrite <- Zle_Qle.
  apply Qfloor_resp_le. lra.
Qed.

(** Numbers that compare equal have the same [Math.round]. *)
Lemma round_comp (x y : number) : le x y -> le y x -> round x = round y.
Proof.
  destruct x as [a|[|]], y as [b|[|]]; try discriminate; try reflexivity.
  rewrite !le_Fin_iff. intros H1 H2. unfold round.
  assert (E : a == b) by lra. rewrite E. reflexivity.
Qed.

Lemma max_mono (c x y : number) : le x y -> le (max c x) (max c y).
Proof.
  intros H. unfold max.
  destruct (leb c x) eqn:Ex; destruct (leb c y) eqn:Ey.
  - exact H.
  - apply number_leb_false in Ey.
    apply number_le_trans with y; [exact H | exact Ey].
  - exact Ey.
  - apply number_le_refl.
Qed.

Lemma min_mono (c x y : number) : le x y -> le (min c x) (min c y).
Proof.
  intros H. unfold min.
  destruct (leb c x) eqn:Ex; destruct (leb c y) eqn:Ey.
  - apply number_le_refl.
  - assert (C : le c y) by (apply number_le_trans with x; assumption).
    unfold le in C. congruence.
  - apply number_leb_false. exact Ex.
  - exact H.
Qed.

Lemma clampedPct_mono (p q : number) : le p q -> le (clampedPct p) (clampedPct q).
Proof. intros H. unfold clampedPct. apply min_mono, max_mono, H. Qed.

Lemma clampedPct_bounds (pct : number) :
  le (Fin 0) (clampedPct pct) /\ le (clampedPct pct) (Fin 100).
Proof.
  unfold clampedPct, min, max.
  destruct (leb (Fin 0) pct) eqn:E0.
  - destruct (leb (Fin 100) pct) eqn:E1.
    + split; reflexivity.
    + split; [exact E0 | apply number_leb_false; exact E1].
  - change (leb (Fin 100) (Fin 0)) with false. cbv iota. split; reflexivity.
Qed.

Lemma clampedPct_fin (pct : number) :
  exists c, clampedPct pct = Fin c /\ 0 <= c /\ c <= 100.
Proof.
  destruct (clampedPct_bounds pct) as [L U]. apply number_bounded; assumption.
Qed.

(** Inside [0, 100] clamping changes nothing that [Math.round] sees. *)
Lemma clampedPct_in_range (pct : number) :
  le (Fin 0) pct -> le pct (Fin 100) -> round (clampedPct pct) = round pct.
Proof.
  intros L U. unfold clampedPct, min, max. rewrite L.
  destruct (leb (Fin 100) pct) eqn:E; [|reflexivity].
  apply round_comp; assumption.
Qed.

Lemma clampedPct_low (pct : number) : le pct (Fin 0) -> le (clampedPct pct) (Fin 0).
Proof.
  intros H. unfold clampedPct, min, max.
  destruct (leb (Fin 0) pct) eqn:E0.
  - destruct (leb (Fin 100) pct) eqn:E1; [|exact H].
    assert (C : le (Fin 100) (Fin 0)) by (apply number_le_trans with pct; assumption).
    discriminate C.
  - reflexivity.
Qed.

Lemma clampedPct_high (pct : number) : le (Fin 100) pct -> le (Fin 100) (clampedPct pct).
Proof.
  intros H. unfold clampedPct, min, max.
  assert (E0 : leb (Fin 0) pct = true).
  { apply (number_le_trans (Fin 0) (Fin 100) pct); [reflexivity | exact H]. }
  rewrite E0. rewrite H. reflexivity.
Qed.

(** The width [_updateBar] computes is a whole number of pixels inside the
    track, whatever the rounding of the division and the product does. *)
Lemma barWidth_shape (pct : number) :
  exists k, round (mul (div (clampedPct pct) 100) TRACK_PX) = Fin (inject_Z k)
            /\ (0 <= k <= 244)%Z.
Proof.
  destruct rnd_exact as (R0 & R1 & _ & _ & R244).
  destruct (clampedPct_fin pct) as (c & -> & C0 & C1).
  unfold div.
  destruct (rnd_between (c / 100) 0 1 R0 R1) as (d & -> & D0 & D1).
  { apply Qle_shift_div_l; [reflexivity | lra]. }
  { apply Qle_shift_div_r; [reflexivity | lra]. }
  unfold mul, TRACK_PX.
  destruct (rnd_between (d * 244) 0 244 R0 R244) as (w & -> & W0 & W1); [lra | lra |].
  unfold round. eexists. split; [reflexivity|]. split.
  - change 0%Z with (Qfloor 0). apply Qfloor_resp_le. lra.
  - change 244%Z with (Qfloor (489 # 2)). apply Qfloor_resp_le. lra.
Qed.

Lemma barWidth_mono (p q : number) :
  le p q ->
  le (round (mul (div (clampedPct p) 100) TRACK_PX))
     (round (mul (div (clampedPct q) 100) TRACK_PX)).
Proof.
  intros H. apply round_mono. apply mul_mono; [discriminate|].
  apply div_mono; [reflexivity|]. apply clampedPct_mono. exact H.
Qed.

Lemma barWidth_ends :
  round (mul (div (clampedPct (Fin 0)) 100) TRACK_PX) = Fin 0
  /\ round (mul (div (clampedPct (Fin 100)) 100) TRACK_PX) = Fin 244.
Proof. vm_compute. split; reflexivity. Qed.

Lemma sub_exact :
  sub 100 (Fin 100) = Fin 0 /\ sub 100 (Fin 0) = Fin 100 /\ sub 100 (Fin 10) = Fin 90.
Proof. vm_compute. repeat split. Qed.

(** What is received within [0, 100] leaves a used percentage within
    [0, 100]: the subtraction is exact at both ends and monotone between. *)
Lemma sub_100_in_range (rem : number) :
  le (Fin 0) rem -> le rem (Fin 100) ->
  le (Fin 0) (sub 100 rem) /\ le (sub 100 rem) (Fin 100).
Proof.
  intros L U. destruct sub_exact as (S100 & S0 & _). split.
  - rewrite <- S100. apply sub_anti. exact U.
  - rewrite <- S0. apply sub_anti. exact L.
Qed.

Lemma sub_100_critical (rem : number) : le rem (Fin 10) -> le (Fin 90) (sub 100 rem).
Proof.
  intros H. destruct sub_exact as (_ & _ & S10).
  rewrite <- S10. apply sub_anti. exact H.
Qed.

End NumberFacts.

(* ------------------------------------------------------------------------- *)
(** ** Running the state monad *)
(* ------------------------------------------------------------------------- *)

Lemma exec_bind {A B : Type} (m : M A) (f : A -> M B) (st : Indicator) :
  execState (bind m f) st = execState (f (evalState m st)) (execState m st).
Proof. unfold execState, evalState. simpl. destruct (runState m st). reflexivity. Qed.

Lemma eval_bind {A B : Type} (m : M A) (f : A -> M B) (st : Indicator) :
  evalState (bind m f) st = evalState (f (evalState m st)) (execState m st).
Proof. unfold execState, evalState. simpl. destruct (runState m st). reflexivity. Qed.

Lemma exec_ret {A : Type} (a : A) (st : Indicator) : execState (ret a : M A) st = st.
Proof. reflexivity. Qed.

Lemma eval_ret {A : Type} (a : A) (st : Indicator) : evalState (ret a : M A) st = a.
Proof. reflexivity. Qed.

Lemma exec_gets {A : Type} (f : Indicator -> A) (st : Indicator) :
  execState (gets f) st = st.
Proof. reflexivity. Qed.

Lemma eval_gets {A : Type} (f : Indicator -> A) (st : Indicator) :
  evalState (gets f) st = f st.
Proof. reflexivity. Qed.

Lemma exec_call (c : UiCall) (st : Indicator) : execState (call c) st = called c st.
Proof. reflexivity. Qed.

Lemma exec_emit (e : Event) (st : Indicator) : execState (emit e) st = logged e st.
Proof. reflexivity. Qed.

Lemma exec_set_menuState (s : string) (st : Indicator) :
  execState (set_menuState s) st = menuStateSet s st.
Proof. reflexivity. Qed.

Lemma exec_destroy (st : Indicator) : execState destroy st = torn st.
Proof. reflexivity. Qed.

Lemma exec_if {A : Type} (b : bool) (m1 m2 : M A) (st : Indicator) :
  execState (if b then m1 else m2) st = if b then execState m1 st else execState m2 st.
Proof. destruct b; reflexivity. Qed.

Create Rewrite HintDb run.
#[local] Hint Rewrite @exec_bind @eval_bind @exec_ret @eval_ret @exec_gets @eval_gets
  exec_call exec_emit exec_set_menuState exec_destroy : run.

Ltac run := autorewrite with run.

#[local] Arguments add_class : simpl never.
#[local] Arguments remove_class : simpl never.
#[local] Arguments String.append : simpl never.
#[local] Arguments String.eqb : simpl never.
#[local] Arguments Js.ofZ : simpl never.
#[local] Arguments Number.rnd : simpl never.
#[local] Arguments Number.leb : simpl never.
#[local] Arguments Number.sub : simpl never.
#[local] Arguments Number.div : simpl never.
#[local] Arguments Number.mul : simpl never.
#[local] Arguments Number.round : simpl never.
#[local] Arguments Number.toString : simpl never.
#[local] Arguments Number.toFixed0 : simpl never.
#[local] Arguments Number.ofDecimal : simpl never.
#[local] Arguments clampedPct : simpl never.
#[local] Arguments usageClass : simpl never.

(* ------------------------------------------------------------------------- *)
(** ** The display helpers, step by step *)
(* ------------------------------------------------------------------------- *)

Lemma upd_same {K V : Type} (dec : forall a b : K, {a = b} + {a <> b}) (f : K -> V) k v :
  upd dec f k v k = v.
Proof. unfold upd. destruct (dec k k); congruence. Qed.

Lemma upd_other {K V : Type} (dec : forall a b : K, {a = b} + {a <> b}) (f : K -> V) k v k' :
  k' <> k -> upd dec f k v k' = f k'.
Proof. unfold upd. destruct (dec k k'); congruence. Qed.

(** [_showNetworkError] writes the footer label and the warning dot and
    nothing else. *)
Lemma showNetworkError_spec (detail : string) (st : Indicator) :
  let st' := execState (_showNetworkError detail) st in
  _menuState st' = _menuState st
  /\ _destroyed st' = _destroyed st
  /\ text (ui st') _updatedLabel = "Error: " ++ detail
  /\ visible (ui st') _warningDot = true
  /\ (forall l, l <> _updatedLabel -> text (ui st') l = text (ui st) l)
  /\ (forall w, w <> _warningDot ->
       visible (ui st') w = visible (ui st) w
       /\ style_classes (ui st') w = style_classes (ui st) w)
  /\ (forall w, width (ui st') w = width (ui st) w).
Proof.
  unfold _showNetworkError. run. simpl.
  repeat split; intros; rewrite ?upd_other by assumption; reflexivity.
Qed.

(** [_setMenuState] records the state and touches visibility only. *)
Lemma setMenuState_frame (s : string) (st : Indicator) :
  let st' := execState (_setMenuState s) st in
  _menuState st' = Some s
  /\ _destroyed st' = _destroyed st
  /\ text (ui st') = text (ui st)
  /\ width (ui st') = width (ui st)
  /\ style_classes (ui st') = style_classes (ui st)
  /\ visible (ui st') _warningDot = visible (ui st) _warningDot.
Proof.
  unfold _setMenuState. run. rewrite exec_if.
  destruct (_menuState st) as [c|] eqn:Hc.
  - destruct (String.eqb c s) eqn:E.
    + apply String.eqb_eq in E. subst c. run. repeat split; auto.
    + run. rewrite exec_if. destruct (String.eqb s "setup"); run; repeat split.
  - run. rewrite exec_if. destruct (String.eqb s "setup"); run; repeat split.
Qed.

(** Entering the setup state lays the menu out for it. *)
Lemma setMenuState_setup_layout (st : Indicator) :
  consistent st -> setupLayout (ui (execState (_setMenuState "setup") st)).
Proof.
  intros Hst. unfold _setMenuState. run. rewrite exec_if.
  destruct (_menuState st) as [c|] eqn:Hc.
  - destruct (String.eqb c "setup") eqn:E.
    + apply String.eqb_eq in E. subst c. run. auto.
    + run. unfold setupLayout. simpl. repeat split.
  - run. unfold setupLayout. simpl. repeat split.
Qed.

(** [_showSetupState]: the menu is in the setup state with the given texts,
    the warning dot is on, and the usage rows keep what they showed. *)
Lemma showSetupState_spec (heading body : string) (st : Indicator) :
  let st' := execState (_showSetupState heading body) st in
  _menuState st' = Some "setup"
  /\ _destroyed st' = _destroyed st
  /\ text (ui st') _setupHeading = heading
  /\ text (ui st') _setupBody = body
  /\ visible (ui st') _warningDot = true
  /\ (consistent st -> setupLayout (ui st'))
  /\ (forall l, l <> _setupHeading -> l <> _setupBody -> text (ui st') l = text (ui st) l)
  /\ (forall w, width (ui st') w = width (ui st) w)
  /\ (forall w, w <> _warningDot -> style_classes (ui st') w = style_classes (ui st) w).
Proof.
  unfold _showSetupState. run.
  destruct (setMenuState_frame "setup" st) as (Hm & Hd & Ht & Hw & Hs & Hv).
  pose proof (setMenuState_setup_layout st) as Hl.
  set (st1 := execState (_setMenuState "setup") st) in *.
  simpl. rewrite Ht, Hw, Hs.
  repeat match goal with |- _ /\ _ => split end; auto;
    intros; rewrite ?upd_other by assumption; reflexivity.
Qed.

(* ------------------------------------------------------------------------- *)
(** ** The fetch *)
(* ------------------------------------------------------------------------- *)

Lemma exec_await {A : Type} (env : Env) (p : Suspension) (r : A) (st : Indicator) :
  execState (await env p r) st = awaited env p st.
Proof. unfold await, awaited. run. rewrite exec_if. run. reflexivity. Qed.

Lemma eval_await {A : Type} (env : Env) (p : Suspension) (r : A) (st : Indicator) :
  evalState (await env p r) st = r.
Proof. unfold await. run. reflexivity. Qed.

#[local] Hint Rewrite @exec_await @eval_await : run.

Lemma awaited_frame (env : Env) (p : Suspension) (st : Indicator) :
  _menuState (awaited env p st) = _menuState st /\ ui (awaited env p st) = ui st.
Proof. unfold awaited. destruct (teardown env p); split; reflexivity. Qed.

Lemma answered_frame (env : Env) (token : string) (st : Indicator) :
  _menuState (answered env token st) = _menuState st
  /\ ui (answered env token st) = ui st.
Proof.
  unfold answered.
  destruct (awaited_frame env AwaitHttp (logged (HttpGet API_URL (request_headers token)) st))
    as [H1 H2].
  rewrite H1, H2. split; reflexivity.
Qed.

Lemma answered_consistent (env : Env) (token : string) (st : Indicator) :
  consistent st -> consistent (answered env token st).
Proof.
  unfold consistent. destruct (answered_frame env token st) as [-> ->]. auto.
Qed.

Lemma exec_fetchUsage (env : Env) (token : string) (st : Indicator) :
  execState (_fetchUsage env token) st
  = execState (fetchCallback env) (answered env token st).
Proof. unfold _fetchUsage. run. reflexivity. Qed.

(** The callback on a rejected token. *)
Lemma fetchCallback_auth (env : Env) (code : nat) (body : ResponseBody) (st : Indicator) :
  http env = Response code body -> code = 401 \/ code = 403 ->
  execState (fetchCallback env) st = execState (_showSetupState AUTH_HEADING AUTH_BODY) st.
Proof.
  intros H Hc. unfold fetchCallback. rewrite H.
  destruct Hc; subst code; reflexivity.
Qed.


(** The callback on a 200 response whose body parsed. *)
Lemma fetchCallback_parsed (env : Env) (data : CopilotUsageData) (st : Indicator) :
  http env = Response 200 (Parsed data) ->
  execState (fetchCallback env) st = execState (_updateUsageDisplay (clock env) data) st.
Proof. intros H. unfold fetchCallback. rewrite H. reflexivity. Qed.

Lemma noUsageFields_absent (data : CopilotUsageData) :
  plan_of data = None -> premium_of data = None -> chat_of data = None ->
  noUsageFields data = true.
Proof. intros Hp Hq Hc. unfold noUsageFields. rewrite Hp, Hq, Hc. reflexivity. Qed.

(* ------------------------------------------------------------------------- *)
(** ** The display helpers only call into the toolkit *)
(* ------------------------------------------------------------------------- *)

Lemma uiOnly_ret {A : Type} (a : A) : uiOnly (ret a : M A).
Proof. intros st. exists []. simpl. rewrite app_nil_r. auto. Qed.

Lemma uiOnly_bind {A B : Type} (m : M A) (f : A -> M B) :
  uiOnly m -> (forall a, uiOnly (f a)) -> uiOnly (bind m f).
Proof.
  intros Hm Hf st. rewrite exec_bind.
  destruct (Hm st) as (c1 & L1 & D1).
  destruct (Hf (evalState m st) (execState m st)) as (c2 & L2 & D2).
  exists (c1 ++ c2)%list. rewrite L2, L1, D2, D1, map_app, app_assoc. auto.
Qed.

Lemma uiOnly_call (c : UiCall) : uiOnly (call c).
Proof. intros st. exists [c]. rewrite exec_call. auto. Qed.

Lemma uiOnly_gets {A : Type} (f : Indicator -> A) : uiOnly (gets f).
Proof. intros st. exists []. simpl. rewrite app_nil_r. auto. Qed.

Lemma uiOnly_set_menuState (s : string) : uiOnly (set_menuState s).
Proof. intros st. exists []. simpl. rewrite app_nil_r. auto. Qed.

Lemma uiOnly_if {A : Type} (b : bool) (m1 m2 : M A) :
  uiOnly m1 -> uiOnly m2 -> uiOnly (if b then m1 else m2).
Proof. destruct b; auto. Qed.

Create HintDb uiOnly.
#[local] Hint Resolve uiOnly_ret uiOnly_call uiOnly_gets uiOnly_set_menuState : uiOnly.
#[local] Hint Extern 2 (uiOnly (bind _ _)) => apply uiOnly_bind; [ | intros ] : uiOnly.
#[local] Hint Extern 2 (uiOnly (if _ then _ else _)) => apply uiOnly_if : uiOnly.

Lemma uiOnly_setMenuState (s : string) : uiOnly (_setMenuState s).
Proof. unfold _setMenuState. auto 20 with uiOnly. Qed.
#[local] Hint Resolve uiOnly_setMenuState : uiOnly.

Lemma uiOnly_showSetupState (h b : string) : uiOnly (_showSetupState h b).
Proof. unfold _showSetupState. auto 20 with uiOnly. Qed.

Lemma uiOnly_showNetworkError (d : string) : uiOnly (_showNetworkError d).
Proof. unfold _showNetworkError. auto 20 with uiOnly. Qed.

Lemma uiOnly_updateBar (b : Widget) (pct : number) : uiOnly (_updateBar b pct).
Proof. unfold _updateBar. auto 20 with uiOnly. Qed.
#[local] Hint Resolve uiOnly_showSetupState uiOnly_showNetworkError uiOnly_updateBar : uiOnly.

Lemma uiOnly_updateRow (r : Row) (rem : option number) : uiOnly (updateRow r rem).
Proof. unfold updateRow. destruct rem; auto 20 with uiOnly. Qed.

Lemma uiOnly_updateWarningDot (rem : option number) : uiOnly (updateWarningDot rem).
Proof.
  unfold updateWarningDot. destruct rem as [r|]; [destruct (Number.leb r (Fin 10))|];
    auto 20 with uiOnly.
Qed.

Lemma uiOnly_updateChatVisibility (plan : option string) : uiOnly (_updateChatVisibility plan).
Proof. unfold _updateChatVisibility. auto 20 with uiOnly. Qed.
#[local] Hint Resolve uiOnly_updateRow uiOnly_updateWarningDot uiOnly_updateChatVisibility
  : uiOnly.

Lemma uiOnly_updateUsageDisplay (now : nat * nat) (data : CopilotUsageData) :
  uiOnly (_updateUsageDisplay now data).
Proof.
  unfold _updateUsageDisplay. destruct (noUsageFields data); auto 30 with uiOnly.
Qed.
#[local] Hint Resolve uiOnly_updateUsageDisplay : uiOnly.

Lemma uiOnly_fetchCallback (env : Env) : uiOnly (fetchCallback env).
Proof.
  unfold fetchCallback. destruct (http env) as [ | msg | code body].
  - auto with uiOnly.
  - auto with uiOnly.
  - destruct ((code =? 401) || (code =? 403)); [auto with uiOnly|].
    destruct (negb (code =? 200)); [auto with uiOnly|].
    destruct body; auto with uiOnly.
Qed.

Lemma probesOf_app (a b : list Event) : probesOf (a ++ b) = (probesOf a ++ probesOf b)%list.
Proof. apply flat_map_app. Qed.

Lemma fetchesOf_app (a b : list Event) :
  fetchesOf (a ++ b) = (fetchesOf a ++ fetchesOf b)%list.
Proof. apply flat_map_app. Qed.

Lemma probesOf_ui (calls : list UiCall) : probesOf (map UiCalled calls) = [].
Proof. induction calls; simpl; auto. Qed.

Lemma fetchesOf_ui (calls : list UiCall) : fetchesOf (map UiCalled calls) = [].
Proof. induction calls; simpl; auto. Qed.

(* ------------------------------------------------------------------------- *)
(** ** The menu state and the layout stay in step *)
(* ------------------------------------------------------------------------- *)

Lemma consistent_init : consistent _init.
Proof. intros H. discriminate H. Qed.

Lemma consistent_frame (st st' : Indicator) :
  _menuState st' = _menuState st ->
  (forall w, w <> _warningDot -> visible (ui st') w = visible (ui st) w) ->
  consistent st -> consistent st'.
Proof.
  intros Hm Hv Hst H. rewrite Hm in H. specialize (Hst H).
  unfold setupLayout in *. rewrite !Hv by discriminate. exact Hst.
Qed.

Lemma showNetworkError_consistent (detail : string) (st : Indicator) :
  consistent st -> consistent (execState (_showNetworkError detail) st).
Proof.
  destruct (showNetworkError_spec detail st) as (Hm & _ & _ & _ & _ & Hw & _).
  apply consistent_frame; [exact Hm|]. intros w Hne. apply Hw. exact Hne.
Qed.

Lemma showSetupState_consistent (heading body : string) (st : Indicator) :
  consistent st -> consistent (execState (_showSetupState heading body) st).
Proof.
  intros Hst _. destruct (showSetupState_spec heading body st) as (_ & _ & _ & _ & _ & Hl & _).
  apply Hl. exact Hst.
Qed.

(* ------------------------------------------------------------------------- *)
(** ** The resolver, block by block *)
(* ------------------------------------------------------------------------- *)

Lemma probed_alive (env : Env) (s : TokenSource) (st : Indicator) :
  teardown env (AwaitProbe s) = false -> probed env s st = logged (Probed s) st.
Proof. intros H. unfold probed, awaited. rewrite H. reflexivity. Qed.

Lemma probed_torn (env : Env) (s : TokenSource) (st : Indicator) :
  teardown env (AwaitProbe s) = true -> probed env s st = torn (logged (Probed s) st).
Proof. intros H. unfold probed, awaited. rewrite H. reflexivity. Qed.

(** A block of [_resolveToken] that awaits a probe: the probe is logged, and
    what follows depends on the flag and on the token. *)
Lemma exec_afterAwait (env : Env) (token : option string) (k : M unit) (st : Indicator) :
  execState (afterAwait env token k) st
  = if _destroyed st then st else execState (ifToken env token k) st.
Proof. unfold afterAwait. run. rewrite exec_if. reflexivity. Qed.

Lemma exec_block_subprocess (env : Env) (k : M unit) (st : Indicator) :
  execState (token <- _runSubprocessToken env ;; afterAwait env token k) st
  = let st1 := probed env gh_auth_token st in
    if _destroyed st1 then st1
    else execState (ifToken env (probeToken env gh_auth_token) k) st1.
Proof. unfold _runSubprocessToken. run. rewrite exec_afterAwait. reflexivity. Qed.

Lemma exec_block_file {A : Type} (env : Env) (s : TokenSource) (load : FileLoad A)
  (extractFn : TokenExtractor A) (k : M unit) (st : Indicator) :
  execState (token <- _readFileToken env s load extractFn ;; afterAwait env token k) st
  = let st1 := probed env s st in
    if _destroyed st1 then st1
    else execState (ifToken env (fileToken load extractFn) k) st1.
Proof. unfold _readFileToken. run. rewrite exec_afterAwait. reflexivity. Qed.

(** One step of the list-driven resolver agrees with one block of the code. *)
Lemma resolveFrom_block (env : Env) (s : TokenSource) (rest : list TokenSource)
  (k : M unit) (st1 : Indicator) :
  (forall st, execState k st = resolveFrom env rest st) ->
  execState (ifToken env (probeToken env s) k) st1
  = if Js.truthy (probeToken env s)
    then match probeToken env s with
         | Some t => execState (_fetchUsage env t) st1
         | None => st1
         end
    else resolveFrom env rest st1.
Proof.
  intros Hk. unfold ifToken, Js.truthy.
  destruct (probeToken env s) as [t|]; [|apply Hk].
  destruct (String.eqb t ""); [apply Hk | reflexivity].
Qed.

Lemma resolveFrom_cons (env : Env) (s : TokenSource) (rest : list TokenSource)
  (st : Indicator) :
  resolveFrom env (s :: rest) st
  = let st1 := if suspends s then probed env s st else logged (Probed s) st in
    if suspends s && _destroyed st1 then st1
    else if Js.truthy (probeToken env s)
         then match probeToken env s with
              | Some t => execState (_fetchUsage env t) st1
              | None => st1
              end
         else resolveFrom env rest st1.
Proof. reflexivity. Qed.

(** [_resolveToken] runs the probes of [priority] the way [resolveFrom] does. *)
Lemma resolveToken_resolveFrom (env : Env) (st : Indicator) :
  execState (_resolveToken env) st = resolveFrom env priority st.
Proof.
  unfold _resolveToken, priority.
  rewrite exec_block_subprocess. rewrite resolveFrom_cons. cbn [suspends andb]. cbv zeta.
  destruct (_destroyed (probed env gh_auth_token st)); [reflexivity|].
  apply resolveFrom_block. clear st. intros st.
  rewrite exec_block_file. rewrite resolveFrom_cons. cbn [suspends andb]. cbv zeta.
  destruct (_destroyed (probed env gh_hosts_yml st)); [reflexivity|].
  apply (resolveFrom_block env gh_hosts_yml). clear st. intros st.
  rewrite exec_block_file. rewrite resolveFrom_cons. cbn [suspends andb]. cbv zeta.
  destruct (_destroyed (probed env copilot_hosts_json st)); [reflexivity|].
  apply (resolveFrom_block env copilot_hosts_json). clear st. intros st.
  rewrite exec_block_file. rewrite resolveFrom_cons. cbn [suspends andb]. cbv zeta.
  destruct (_destroyed (probed env copilot_apps_json st)); [reflexivity|].
  apply (resolveFrom_block env copilot_apps_json). clear st. intros st.
  rewrite exec_block_file. rewrite resolveFrom_cons. cbn [suspends andb]. cbv zeta.
  destruct (_destroyed (probed env copilot_oauth_json st)); [reflexivity|].
  apply (resolveFrom_block env copilot_oauth_json). clear st. intros st.
  rewrite exec_bind, exec_emit. rewrite resolveFrom_cons. cbn [suspends andb]. cbv zeta.
  apply (resolveFrom_block env settings_github_token). clear st. intros st.
  reflexivity.
Qed.

Lemma probedAll_frame (l : list TokenSource) (st : Indicator) :
  log (probedAll l st) = (log st ++ map Probed l)%list
  /\ _destroyed (probedAll l st) = _destroyed st
  /\ _menuState (probedAll l st) = _menuState st
  /\ ui (probedAll l st) = ui st.
Proof.
  revert st. induction l as [|s l IH]; intros st; simpl.
  - rewrite app_nil_r. auto.
  - destruct (IH (logged (Probed s) st)) as (L & D & S & U).
    rewrite L, D, S, U. simpl. rewrite <- app_assoc. auto.
Qed.

Lemma step_alive (env : Env) (s : TokenSource) (st : Indicator) :
  teardown env (AwaitProbe s) = false ->
  (if suspends s then probed env s st else logged (Probed s) st) = logged (Probed s) st.
Proof. intros H. rewrite probed_alive by assumption. destruct (suspends s); reflexivity. Qed.

Section Resolver.

Variable env : Env.

(** The first source that yields a token decides the refresh. *)
Lemma resolveFrom_found (pre : list TokenSource) (s : TokenSource)
  (post : list TokenSource) (t : string) :
  forall st,
  _destroyed st = false ->
  (forall s', In s' pre -> Js.truthy (probeToken env s') = false) ->
  probeToken env s = Some t -> t <> "" ->
  (forall s', In s' (pre ++ [s]) -> teardown env (AwaitProbe s') = false) ->
  resolveFrom env (pre ++ s :: post) st
  = execState (_fetchUsage env t) (probedAll (pre ++ [s]) st).
Proof.
  induction pre as [|p pre IH]; intros st Hst Hpre Hs Ht Hcalm.
  - simpl app. rewrite resolveFrom_cons. cbv zeta.
    rewrite step_alive by (apply Hcalm; simpl; auto).
    simpl _destroyed. rewrite Hst, andb_false_r, Hs.
    unfold Js.truthy. apply String.eqb_neq in Ht. rewrite Ht. reflexivity.
  - simpl app. rewrite resolveFrom_cons. cbv zeta.
    rewrite step_alive by (apply Hcalm; simpl; auto).
    simpl _destroyed. rewrite Hst, andb_false_r.
    rewrite (Hpre p) by (simpl; auto).
    rewrite IH; auto.
    + intros s' Hin. apply Hpre. simpl; auto.
    + intros s' Hin. apply Hcalm. simpl; auto.
Qed.

(** When no source yields a token, the setup state is shown. *)
Lemma resolveFrom_none (l : list TokenSource) :
  forall st,
  _destroyed st = false ->
  (forall s', In s' l -> Js.truthy (probeToken env s') = false) ->
  (forall s', In s' l -> teardown env (AwaitProbe s') = false) ->
  resolveFrom env l st
  = execState (_showSetupState NO_TOKEN_HEADING NO_TOKEN_BODY) (probedAll l st).
Proof.
  induction l as [|p l IH]; intros st Hst Hsil Hcalm.
  - reflexivity.
  - rewrite resolveFrom_cons. cbv zeta.
    rewrite step_alive by (apply Hcalm; simpl; auto).
    simpl _destroyed. rewrite Hst, andb_false_r.
    rewrite (Hsil p) by (simpl; auto).
    rewrite IH; auto.
    + intros s' Hin. apply Hsil. simpl; auto.
    + intros s' Hin. apply Hcalm. simpl; auto.
Qed.

(** A teardown during an awaited probe ends the refresh on the spot. *)
Lemma resolveFrom_torn (pre : list TokenSource) (s : TokenSource)
  (post : list TokenSource) :
  forall st,
  _destroyed st = false ->
  (forall s', In s' pre -> Js.truthy (probeToken env s') = false /\ teardown env (AwaitProbe s') = false) ->
  suspends s = true -> teardown env (AwaitProbe s) = true ->
  resolveFrom env (pre ++ s :: post) st = torn (probedAll (pre ++ [s]) st).
Proof.
  induction pre as [|p pre IH]; intros st Hst Hpre Hs Ht.
  - simpl app. rewrite resolveFrom_cons. cbv zeta.
    rewrite Hs, probed_torn by assumption. reflexivity.
  - simpl app. rewrite resolveFrom_cons. cbv zeta.
    destruct (Hpre p) as [Hsil Hcalm]; [simpl; auto|].
    rewrite step_alive by assumption.
    simpl _destroyed. rewrite Hst, andb_false_r, Hsil.
    rewrite IH; auto.
    intros s' Hin. apply Hpre. simpl; auto.
Qed.

(** Without a token there is no request, whatever else happens. *)
Lemma resolveFrom_no_fetch (l : list TokenSource) :
  forall st,
  (forall s', In s' l -> Js.truthy (probeToken env s') = false) ->
  fetchesOf (log (resolveFrom env l st)) = fetchesOf (log st).
Proof.
  induction l as [|p l IH]; intros st Hsil.
  - simpl. destruct (uiOnly_showSetupState NO_TOKEN_HEADING NO_TOKEN_BODY st)
      as (calls & L & _).
    rewrite L, fetchesOf_app, fetchesOf_ui, app_nil_r. reflexivity.
  - rewrite resolveFrom_cons. cbv zeta.
    rewrite (Hsil p) by (simpl; auto).
    assert (Hlog : fetchesOf (log (if suspends p then probed env p st
                                   else logged (Probed p) st)) = fetchesOf (log st)).
    { unfold probed, awaited.
      destruct (suspends p); [destruct (teardown env (AwaitProbe p))|]; simpl;
        rewrite ?fetchesOf_app; simpl; rewrite ?app_nil_r; reflexivity. }
    destruct (suspends p && _); [exact Hlog|].
    rewrite IH; [exact Hlog|].
    intros s' Hin. apply Hsil. simpl; auto.
Qed.

End Resolver.

Lemma priority_split (s : TokenSource) : exists post, priority = (before s ++ s :: post)%list.
Proof. destruct s; eexists; reflexivity. Qed.

(** The log of a fetch: the request, a teardown if one happened meanwhile,
    and calls into the toolkit. *)
Lemma fetchUsage_log (env : Env) (token : string) (st : Indicator) :
  exists calls,
    log (execState (_fetchUsage env token) st)
    = (log st ++ HttpGet API_URL (request_headers token)
         :: (if teardown env AwaitHttp then [Destroy] else []) ++ map UiCalled calls)%list.
Proof.
  rewrite exec_fetchUsage.
  destruct (uiOnly_fetchCallback env (answered env token st)) as (calls & L & _).
  exists calls. rewrite L. unfold answered, awaited.
  destruct (teardown env AwaitHttp); simpl; rewrite <- ?app_assoc; reflexivity.
Qed.

(* ------------------------------------------------------------------------- *)
(** ** The resolver *)
(* ------------------------------------------------------------------------- *)

(** The log of a refresh in which [s] is the first source with a token. *)
Lemma refresh_found_log (env : Env) (st : Indicator) (s : TokenSource) (t : string) :
  _destroyed st = false ->
  (forall s', In s' (before s) -> Js.truthy (probeToken env s') = false) ->
  probeToken env s = Some t -> t <> "" ->
  (forall s', In s' (before s ++ [s]) -> teardown env (AwaitProbe s') = false) ->
  exists tail,
    log (refresh env st)
    = (log st ++ map Probed (before s ++ [s])
         ++ HttpGet API_URL (request_headers t) :: tail)%list
    /\ probesOf tail = [] /\ fetchesOf tail = [].
Proof.
  intros Hst Hpre Hs Ht Hcalm.
  destruct (priority_split s) as [post Hsplit].
  unfold refresh, _refreshUsage.
  rewrite resolveToken_resolveFrom, Hsplit.
  rewrite (resolveFrom_found env (before s) s post t) by assumption.
  destruct (fetchUsage_log env t (probedAll (before s ++ [s]) st)) as (calls & L).
  destruct (probedAll_frame (before s ++ [s]) st) as (Lp & _).
  exists ((if teardown env AwaitHttp then [Destroy] else []) ++ map UiCalled calls)%list.
  rewrite L, Lp, <- app_assoc. split; [reflexivity|].
  rewrite probesOf_app, fetchesOf_app, probesOf_ui, fetchesOf_ui.
  destruct (teardown env AwaitHttp); split; reflexivity.
Qed.

(** C1: in every world, the resolver runs the probes one after the other in
    the fixed order gh subprocess, gh hosts.yml, github-copilot hosts.json,
    apps.json, oauth.json, settings token; when [s] is the first source whose
    probe yields a non-empty token [t] (and the indicator is not torn down
    while those probes run), the log of the refresh is: the probes of the
    sources up to and including [s], in that order, then one request carrying
    [t], and behind it no probe and no further request. *)
Theorem resolver_fetches_first_found_token (env : Env) (st : Indicator)
  (s : TokenSource) (t : string) :
  _destroyed st = false ->
  (forall s', In s' (before s) -> Js.truthy (probeToken env s') = false) ->
  probeToken env s = Some t -> t <> "" ->
  (forall s', In s' (before s ++ [s]) -> teardown env (AwaitProbe s') = false) ->
  (exists post, priority = (before s ++ s :: post)%list)
  /\ exists tail,
       log (refresh env st)
       = (log st ++ map Probed (before s ++ [s])
            ++ HttpGet API_URL (request_headers t) :: tail)%list
       /\ probesOf tail = [] /\ fetchesOf tail = [].
Proof.
  intros Hst Hpre Hs Ht Hcalm. split.
  - apply priority_split.
  - apply refresh_found_log; assumption.
Qed.

Lemma resolver_fetches_first_found_token_witness :
  exists tail,
    log (refresh ymlEnv _init)
    = ([Probed gh_auth_token; Probed gh_hosts_yml]
         ++ HttpGet API_URL (request_headers "gho_yml") :: tail)%list
    /\ probesOf tail = [] /\ fetchesOf tail = [].
Proof.
  apply (resolver_fetches_first_found_token ymlEnv _init gh_hosts_yml "gho_yml").
  - reflexivity.
  - simpl. intros s' [<- | []]. reflexivity.
  - reflexivity.
  - discriminate.
  - reflexivity.
Defined.

(** C2: when every probe yields "not found" (the settings token being empty
    once trimmed), the refresh sends no request, whatever else happens; and,
    the indicator not being torn down meanwhile, it ends in the setup state
    with the heading "GitHub Token Required" and the body "No credentials
    found. Open Settings to add your token.", all six sources probed. *)
Theorem no_token_shows_setup_without_fetch (env : Env) (st : Indicator) :
  (forall s, Js.truthy (probeToken env s) = false) ->
  let st' := refresh env st in
  Js.trim (github_token env) = ""
  /\ fetchesOf (log st') = fetchesOf (log st)
  /\ (_destroyed st = false ->
      (forall s, teardown env (AwaitProbe s) = false) ->
      (exists calls, log st' = (log st ++ map Probed priority ++ map UiCalled calls)%list)
      /\ _menuState st' = Some "setup"
      /\ text (ui st') _setupHeading = "GitHub Token Required"
      /\ text (ui st') _setupBody = "No credentials found. Open Settings to add your token."
      /\ visible (ui st') _warningDot = true
      /\ (consistent st -> setupLayout (ui st'))).
Proof.
  intros Hsil st'. subst st'. unfold refresh, _refreshUsage.
  rewrite resolveToken_resolveFrom. split; [|split].
  - specialize (Hsil settings_github_token). simpl in Hsil.
    destruct (String.eqb (Js.trim (github_token env)) "") eqn:E; [|discriminate].
    apply String.eqb_eq. exact E.
  - apply resolveFrom_no_fetch. auto.
  - intros Hst Hcalm. rewrite resolveFrom_none by auto.
    destruct (probedAll_frame priority st) as (L & D & S & U).
    destruct (showSetupState_spec NO_TOKEN_HEADING NO_TOKEN_BODY (probedAll priority st))
      as (Hm & _ & Hh & Hb & Hv & Hl & _).
    destruct (uiOnly_showSetupState NO_TOKEN_HEADING NO_TOKEN_BODY (probedAll priority st))
      as (calls & Lc & _).
    repeat match goal with |- _ /\ _ => split end; auto.
    exists calls. rewrite Lc, L, <- app_assoc. reflexivity.
Qed.

Lemma no_token_shows_setup_without_fetch_witness :
  let st' := refresh bareEnv _init in
  fetchesOf (log st') = []
  /\ _menuState st' = Some "setup"
  /\ text (ui st') _setupHeading = "GitHub Token Required"
  /\ text (ui st') _setupBody = "No credentials found. Open Settings to add your token.".
Proof.
  destruct (no_token_shows_setup_without_fetch bareEnv _init) as (_ & Hf & H).
  - intros s. destruct s; reflexivity.
  - destruct H as (_ & Hm & Hh & Hb & _).
    + reflexivity.
    + reflexivity.
    + exact (conj Hf (conj Hm (conj Hh Hb))).
Defined.

(* ------------------------------------------------------------------------- *)
(** ** Teardown *)
(* ------------------------------------------------------------------------- *)

(** A teardown while a probe is awaited: the refresh stops there, and the
    log ends with the [Destroy]. *)
Lemma teardown_during_probe_is_silent (env : Env) (st : Indicator) (s : TokenSource) :
  _destroyed st = false ->
  (forall s', In s' (before s) ->
     Js.truthy (probeToken env s') = false /\ teardown env (AwaitProbe s') = false) ->
  suspends s = true -> teardown env (AwaitProbe s) = true ->
  log (refresh env st) = (log st ++ map Probed (before s ++ [s]) ++ [Destroy])%list.
Proof.
  intros Hst Hpre Hs Ht.
  destruct (priority_split s) as [post Hsplit].
  unfold refresh, _refreshUsage. rewrite resolveToken_resolveFrom, Hsplit.
  rewrite (resolveFrom_torn env (before s) s post) by assumption.
  destruct (probedAll_frame (before s ++ [s]) st) as (L & _).
  simpl. rewrite L, <- app_assoc. reflexivity.
Qed.

(** The callback of the request does not look at [_destroyed]: with a
    teardown while the request is in flight, whatever the callback does to
    the widgets is done after the [Destroy]. *)
Lemma teardown_during_fetch_is_not_observed (env : Env) (token : string) (st : Indicator) :
  teardown env AwaitHttp = true ->
  execState (_fetchUsage env token) st
  = execState (fetchCallback env)
      (torn (logged (HttpGet API_URL (request_headers token)) st)).
Proof.
  intros H. rewrite exec_fetchUsage. unfold answered, awaited. rewrite H. reflexivity.
Qed.

(** With a teardown while the request is in flight and the aborted request
    throwing in [send_and_read_finish], the refresh logs the request, the
    [Destroy], and then the four calls of [_showNetworkError]. *)
Lemma teardown_during_fetch_abort_log (env : Env) (token message : string)
  (st : Indicator) :
  teardown env AwaitHttp = true -> http env = FinishThrows message ->
  log (execState (_fetchUsage env token) st)
  = (log st ++ [ HttpGet API_URL (request_headers token); Destroy;
                 UiCalled (set_text _updatedLabel ("Error: " ++ message));
                 UiCalled (set_visible _warningDot true);
                 UiCalled (remove_style_class_name _warningDot "dot-critical");
                 UiCalled (add_style_class_name _warningDot "dot-high") ])%list.
Proof.
  intros Ht Hh. rewrite teardown_during_fetch_is_not_observed by exact Ht.
  unfold fetchCallback. rewrite Hh. unfold _showNetworkError. run. simpl.
  rewrite <- !app_assoc. reflexivity.
Qed.

(** C3: the indicator is destroyed while the request is in flight, the
    aborted request reports "Operation was cancelled" to the callback, and
    the callback still writes the footer label and the warning dot: four
    calls into the toolkit behind the teardown. *)
Theorem teardown_during_fetch_still_updates_widgets :
  uiCallsOf (afterDestroy (log (refresh tornFetchEnv _init)))
  = [ set_text _updatedLabel "Error: Operation was cancelled";
      set_visible _warningDot true;
      remove_style_class_name _warningDot "dot-critical";
      add_style_class_name _warningDot "dot-high" ].
Proof. vm_compute. reflexivity. Qed.

(* ------------------------------------------------------------------------- *)
(** ** Classifying the response *)
(* ------------------------------------------------------------------------- *)

(** C7: a response with status 401 or 403, whatever its body, puts the menu
    in the setup state with the heading "Token Invalid or Expired" and the
    body "The stored token was rejected. Update it in Settings."; both
    differ from the texts shown when no credentials are found. *)
Theorem auth_rejected_shows_distinct_setup (env : Env) (token : string) (st : Indicator)
  (code : nat) (body : ResponseBody) :
  http env = Response code body ->
  code = 401 \/ code = 403 ->
  let st' := execState (_fetchUsage env token) st in
  _menuState st' = Some "setup"
  /\ text (ui st') _setupHeading = "Token Invalid or Expired"
  /\ text (ui st') _setupBody = "The stored token was rejected. Update it in Settings."
  /\ (consistent st -> setupLayout (ui st'))
  /\ text (ui st') _setupHeading <> NO_TOKEN_HEADING
  /\ text (ui st') _setupBody <> NO_TOKEN_BODY.
Proof.
  intros H Hc st'. subst st'.
  rewrite exec_fetchUsage, (fetchCallback_auth env code body) by assumption.
  destruct (showSetupState_spec AUTH_HEADING AUTH_BODY (answered env token st))
    as (Hm & _ & Hh & Hb & _ & Hl & _).
  rewrite Hh, Hb.
  repeat match goal with |- _ /\ _ => split end; auto; try discriminate.
  intros Hst. apply Hl. apply answered_consistent. exact Hst.
Qed.

Lemma auth_rejected_shows_distinct_setup_witness :
  let st' := execState (_fetchUsage
                          (with_http ymlEnv (Response 401 (Parsed (snakeBody "pro" 80))))
                          "gho_yml") _init in
  _menuState st' = Some "setup"
  /\ text (ui st') _setupHeading = "Token Invalid or Expired"
  /\ text (ui st') _setupHeading <> NO_TOKEN_HEADING
  /\ text (ui st') _setupBody <> NO_TOKEN_BODY.
Proof.
  destruct (auth_rejected_shows_distinct_setup
              (with_http ymlEnv (Response 401 (Parsed (snakeBody "pro" 80))))
              "gho_yml" _init 401 (Parsed (snakeBody "pro" 80)))
    as (Hm & Hh & _ & _ & Hh' & Hb').
  - reflexivity.
  - left. reflexivity.
  - exact (conj Hm (conj Hh (conj Hh' Hb'))).
Defined.



(* ------------------------------------------------------------------------- *)
(** ** Chat visibility *)
(* ------------------------------------------------------------------------- *)

Lemma lowerChar_idem (c : ascii) : Js.lowerChar (Js.lowerChar c) = Js.lowerChar c.
Proof. destruct c as [[] [] [] [] [] [] [] []]; reflexivity. Qed.

Lemma toLowerCase_idem (s : string) : Js.toLowerCase (Js.toLowerCase s) = Js.toLowerCase s.
Proof. induction s as [|c s IH]; simpl; [reflexivity|]. rewrite lowerChar_idem, IH. reflexivity. Qed.

Lemma has_In (set : list string) (x : string) : has set x = true <-> In x set.
Proof.
  unfold has. rewrite existsb_exists. split.
  - intros (y & Hy & E). apply String.eqb_eq in E. subst. exact Hy.
  - intros H. exists x. split; [exact H | apply String.eqb_refl].
Qed.

(* ------------------------------------------------------------------------- *)
(** ** The usage rows *)
(* ------------------------------------------------------------------------- *)

Ltac upd_solve :=
  repeat first [ rewrite upd_same | rewrite upd_other by congruence ]; auto.

(** [updateRow] writes the bar and the two labels of its row. *)
Lemma updateRow_spec (r : Row) (rem : option number) (st : Indicator) :
  let st' := execState (updateRow r rem) st in
  _menuState st' = _menuState st
  /\ visible (ui st') = visible (ui st)
  /\ (forall l, l <> usedLabel r -> l <> percentLabel r -> text (ui st') l = text (ui st) l)
  /\ (forall w, w <> bar r ->
       width (ui st') w = width (ui st) w
       /\ style_classes (ui st') w = style_classes (ui st) w)
  /\ match rem with
     | Some x =>
         width (ui st') (bar r)
         = Number.round (Number.mul (Number.div (clampedPct (Number.sub 100 x)) 100) TRACK_PX)
         /\ text (ui st') (usedLabel r)
            = Number.toString (Number.round (Number.sub 100 x)) ++ "%"
         /\ text (ui st') (percentLabel r) = Number.toFixed0 x ++ "% remaining"
     | None =>
         width (ui st') (bar r) = Fin 0
         /\ text (ui st') (usedLabel r) = "unlimited"
         /\ text (ui st') (percentLabel r) = ""
     end.
Proof.
  unfold updateRow, _updateBar. destruct rem as [x|]; run; simpl;
    repeat match goal with |- _ /\ _ => split end; intros; upd_solve.
Qed.

(** [updateWarningDot] writes the warning dot only. *)
Lemma updateWarningDot_frame (premR : option number) (st : Indicator) :
  let st' := execState (updateWarningDot premR) st in
  _menuState st' = _menuState st
  /\ text (ui st') = text (ui st)
  /\ width (ui st') = width (ui st)
  /\ (forall w, w <> _warningDot ->
       visible (ui st') w = visible (ui st) w
       /\ style_classes (ui st') w = style_classes (ui st) w).
Proof.
  unfold updateWarningDot.
  destruct premR as [r|]; [destruct (Number.leb r (Fin 10))|]; run; simpl;
    repeat match goal with |- _ /\ _ => split end; intros; upd_solve.
Qed.

(** The state [_updateUsageDisplay] reaches on a body with usage fields, one
    step at a time. *)
Lemma exec_updateUsageDisplay (now : nat * nat) (data : CopilotUsageData) (st : Indicator) :
  noUsageFields data = false ->
  exists st3 label,
    _menuState st3 = Some "usage"
    /\ visible (ui st3) (item _chatResult) = isLimited (plan_of data)
    /\ visible (ui st3) _chatSep = isLimited (plan_of data)
    /\ execState (_updateUsageDisplay now data) st
       = called (set_text _updatedLabel label)
           (execState (updateWarningDot (pctRemaining (premium_of data)))
              (execState (updateRow _chatResult (pctRemaining (chat_of data)))
                 (execState (updateRow _premiumResult (pctRemaining (premium_of data)))
                    st3))).
Proof.
  intros H. unfold _updateUsageDisplay. rewrite H. run.
  destruct (setMenuState_frame "usage" st) as (Hm & _).
  eexists. eexists. split; [|split; [|split; [|reflexivity]]].
  - unfold _updateChatVisibility. run. simpl. exact Hm.
  - unfold _updateChatVisibility. run. reflexivity.
  - unfold _updateChatVisibility. run. reflexivity.
Qed.

(** C8: after [_updateChatVisibility plan] the chat row and its separator are
    visible exactly when the plan, put in lower case, is one of "free",
    "copilot_free" and "copilot-free", whatever the indicator showed before:
    "Free", "free", "copilot-free" and "copilot_free" show the row, "pro",
    "business" and "enterprise" hide it, and the case of the letters does
    not matter.  A usage display ends with the row that visible or hidden. *)
Theorem chat_row_follows_plan :
  (isLimited (Some "Free") = true /\ isLimited (Some "free") = true
   /\ isLimited (Some "copilot-free") = true /\ isLimited (Some "copilot_free") = true)
  /\ (isLimited (Some "pro") = false /\ isLimited (Some "business") = false
      /\ isLimited (Some "enterprise") = false)
  /\ (forall p, isLimited (Some p) = true
                <-> In (Js.toLowerCase p) ["free"; "copilot_free"; "copilot-free"])
  /\ (forall p, isLimited (Some (Js.toLowerCase p)) = isLimited (Some p))
  /\ (forall plan st,
        let st' := execState (_updateChatVisibility plan) st in
        visible (ui st') (item _chatResult) = isLimited plan
        /\ visible (ui st') _chatSep = isLimited plan)
  /\ (forall now data st,
        noUsageFields data = false ->
        let st' := execState (_updateUsageDisplay now data) st in
        visible (ui st') (item _chatResult) = isLimited (plan_of data)
        /\ visible (ui st') _chatSep = isLimited (plan_of data)).
Proof.
  split; [repeat split|]. split; [repeat split|]. split; [|split; [|split]].
  - intros p. unfold isLimited. apply has_In.
  - intros p. unfold isLimited. rewrite toLowerCase_idem. reflexivity.
  - intros plan st. unfold _updateChatVisibility. run. simpl. split; reflexivity.
  - intros now data st H.
    destruct (exec_updateUsageDisplay now data st H) as (st3 & label & _ & Hc & Hs & ->).
    destruct (updateRow_spec _premiumResult (pctRemaining (premium_of data)) st3)
      as (_ & V1 & _).
    set (st4 := execState (updateRow _premiumResult _) st3) in *.
    destruct (updateRow_spec _chatResult (pctRemaining (chat_of data)) st4)
      as (_ & V2 & _).
    set (st5 := execState (updateRow _chatResult _) st4) in *.
    destruct (updateWarningDot_frame (pctRemaining (premium_of data)) st5)
      as (_ & _ & _ & V3).
    simpl.
    destruct (V3 (item _chatResult)) as [-> _]; [discriminate|].
    destruct (V3 _chatSep) as [-> _]; [discriminate|].
    rewrite V2, V1. split; assumption.
Qed.

(** C6 (as the code has it): for a snapshot with remaining percentage [rem],
    the used percentage is [100 - rem] as binary64 computes it.  The bar of
    the row is driven by that value clamped to [0,100]: its width is
    [Math.round] of that share of the 244 px track, a whole number of pixels
    from 0 to 244.  The used label shows [Math.round(100 - rem)] followed by
    "%" without clamping; label and bar agree when 0 <= rem <= 100.  When
    the remaining percentage is absent the used label reads "unlimited", the
    remaining label is empty and the bar is empty. *)
Theorem usage_row_shows_used_percentage (now : nat * nat) (data : CopilotUsageData)
  (st : Indicator) (r : Row) :
  noUsageFields data = false ->
  let st' := execState (_updateUsageDisplay now data) st in
  match pctRemaining (snapshot_of r data) with
  | Some rem =>
      let used := Number.sub 100 rem in
      width (ui st') (bar r)
      = Number.round (Number.mul (Number.div (clampedPct used) 100) TRACK_PX)
      /\ (Number.le (Fin 0) (clampedPct used) /\ Number.le (clampedPct used) (Fin 100))
      /\ (exists px, width (ui st') (bar r) = Fin (inject_Z px) /\ (0 <= px <= 244)%Z)
      /\ text (ui st') (usedLabel r) = Number.toString (Number.round used) ++ "%"
      /\ (Number.le (Fin 0) rem -> Number.le rem (Fin 100) ->
          text (ui st') (usedLabel r)
          = Number.toString (Number.round (clampedPct used)) ++ "%")
  | None =>
      text (ui st') (usedLabel r) = "unlimited"
      /\ text (ui st') (percentLabel r) = ""
      /\ width (ui st') (bar r) = Fin 0
  end.
Proof.
  intros H st'. subst st'.
  destruct (exec_updateUsageDisplay now data st H) as (st3 & label & _ & _ & _ & E).
  rewrite E. clear E.
  pose proof (updateRow_spec _premiumResult (pctRemaining (premium_of data)) st3) as P.
  set (st4 := execState (updateRow _premiumResult _) st3) in *.
  pose proof (updateRow_spec _chatResult (pctRemaining (chat_of data)) st4) as C.
  set (st5 := execState (updateRow _chatResult _) st4) in *.
  destruct (updateWarningDot_frame (pctRemaining (premium_of data)) st5) as (_ & Wt & Ww & _).
  set (st6 := execState (updateWarningDot _) st5) in *.
  cbv zeta in P, C.
  destruct P as (_ & _ & _ & _ & P). destruct C as (_ & _ & Ct & Cw & C).
  assert (Hw : forall w, width (ui (called (set_text _updatedLabel label) st6)) w
                         = width (ui st5) w)
    by (intros w; simpl; rewrite Ww; reflexivity).
  assert (Ht : forall l, l <> _updatedLabel ->
                         text (ui (called (set_text _updatedLabel label) st6)) l
                         = text (ui st5) l)
    by (intros l Hl; simpl; rewrite Wt; upd_solve).
  assert (G : forall rem w t,
             w = Number.round (Number.mul (Number.div (clampedPct (Number.sub 100 rem)) 100)
                                 TRACK_PX) ->
             t = Number.toString (Number.round (Number.sub 100 rem)) ++ "%" ->
             w = Number.round (Number.mul (Number.div (clampedPct (Number.sub 100 rem)) 100)
                                 TRACK_PX)
             /\ (Number.le (Fin 0) (clampedPct (Number.sub 100 rem))
                 /\ Number.le (clampedPct (Number.sub 100 rem)) (Fin 100))
             /\ (exists px, w = Fin (inject_Z px) /\ (0 <= px <= 244)%Z)
             /\ t = Number.toString (Number.round (Number.sub 100 rem)) ++ "%"
             /\ (Number.le (Fin 0) rem -> Number.le rem (Fin 100) ->
                 t = Number.toString (Number.round (clampedPct (Number.sub 100 rem))) ++ "%")).
  { intros rem w t -> ->. split; [reflexivity|]. split; [apply clampedPct_bounds|].
    split; [apply barWidth_shape|]. split; [reflexivity|].
    intros H0 H1. destruct (sub_100_in_range rem H0 H1) as [U0 U1].
    rewrite (clampedPct_in_range _ U0 U1). reflexivity. }
  rewrite Hw, !Ht by discriminate.
  destruct r; simpl snapshot_of.
  - destruct (Cw (bar _premiumResult)) as [-> _]; [discriminate|].
    rewrite !Ct by discriminate.
    destruct (pctRemaining (premium_of data)) as [rem|].
    + destruct P as (Pw & Pt & _). cbv zeta. apply G; assumption.
    + destruct P as (-> & -> & ->). auto.
  - destruct (pctRemaining (chat_of data)) as [rem|].
    + destruct C as (Pw & Pt & _). cbv zeta. apply G; assumption.
    + destruct C as (-> & -> & ->). auto.
Qed.

Lemma usage_row_shows_used_percentage_witness :
  let st' := execState (_updateUsageDisplay (9, 5) (snakeBody "pro" 80)) _init in
  text (ui st') (usedLabel _premiumResult) = "20%"
  /\ width (ui st') (bar _premiumResult) = Fin 49
  /\ text (ui st') (usedLabel _chatResult) = "unlimited".
Proof.
  pose proof (usage_row_shows_used_percentage (9, 5) (snakeBody "pro" 80) _init
                _premiumResult eq_refl) as P.
  pose proof (usage_row_shows_used_percentage (9, 5) (snakeBody "pro" 80) _init
                _chatResult eq_refl) as C.
  cbv zeta in P, C.
  change (pctRemaining (snapshot_of _premiumResult (snakeBody "pro" 80)))
    with (Some (Number.ofDecimal 80)) in P.
  change (pctRemaining (snapshot_of _chatResult (snakeBody "pro" 80)))
    with (@None number) in C.
  cbv zeta in P.
  destruct P as (Pw & _ & _ & Pt & _). destruct C as (Ct & _).
  refine (conj _ (conj _ Ct)).
  - rewrite Pt. vm_compute. reflexivity.
  - rewrite Pw. vm_compute. reflexivity.
Defined.

(** The used label is not clamped: with 150 % remaining it reads "-50%",
    where the clamped value is 0 and the bar is empty. *)
Lemma used_label_is_not_clamped :
  let st' := execState (_updateUsageDisplay (9, 5) (snakeBody "pro" 150)) _init in
  text (ui st') (usedLabel _premiumResult) = "-50%"
  /\ Number.toString (Number.round (clampedPct (Number.sub 100 (Number.ofDecimal 150))))
     ++ "%" = "0%"
  /\ text (ui st') (usedLabel _premiumResult)
     <> Number.toString (Number.round (clampedPct (Number.sub 100 (Number.ofDecimal 150))))
        ++ "%"
  /\ width (ui st') (bar _premiumResult) = Fin 0.
Proof. vm_compute. repeat split; discriminate. Qed.

Lemma truthy_nonempty (t : string) : t <> "" -> Js.truthy (Some t) = true.
Proof. intros H. unfold Js.truthy. apply String.eqb_neq in H. rewrite H. reflexivity. Qed.

(* ------------------------------------------------------------------------- *)
(** ** Every refresh keeps the menu state and the layout in step *)
(* ------------------------------------------------------------------------- *)

Lemma updateUsageDisplay_consistent (now : nat * nat) (data : CopilotUsageData)
  (st : Indicator) :
  consistent st -> consistent (execState (_updateUsageDisplay now data) st).
Proof.
  intros Hst. destruct (noUsageFields data) eqn:E.
  - unfold _updateUsageDisplay. rewrite E. apply showSetupState_consistent. exact Hst.
  - destruct (exec_updateUsageDisplay now data st E) as (st3 & label & Hm & _ & _ & ->).
    intros H. exfalso. simpl in H.
    destruct (updateWarningDot_frame (pctRemaining (premium_of data))
                (execState (updateRow _chatResult (pctRemaining (chat_of data)))
                   (execState (updateRow _premiumResult (pctRemaining (premium_of data)))
                      st3))) as (M3 & _).
    destruct (updateRow_spec _chatResult (pctRemaining (chat_of data))
                (execState (updateRow _premiumResult (pctRemaining (premium_of data)))
                   st3)) as (M2 & _).
    destruct (updateRow_spec _premiumResult (pctRemaining (premium_of data)) st3)
      as (M1 & _).
    rewrite M3, M2, M1, Hm in H. discriminate H.
Qed.

Lemma fetchCallback_consistent (env : Env) (st : Indicator) :
  consistent st -> consistent (execState (fetchCallback env) st).
Proof.
  intros Hst. unfold fetchCallback. destruct (http env) as [ | msg | code body].
  - exact Hst.
  - apply showNetworkError_consistent. exact Hst.
  - destruct ((code =? 401) || (code =? 403)).
    + apply showSetupState_consistent. exact Hst.
    + destruct (negb (code =? 200)).
      * apply showNetworkError_consistent. exact Hst.
      * destruct body.
        -- apply showNetworkError_consistent. exact Hst.
        -- apply showNetworkError_consistent. exact Hst.
        -- apply updateUsageDisplay_consistent. exact Hst.
Qed.

Lemma probed_consistent (env : Env) (s : TokenSource) (st : Indicator) :
  consistent st ->
  consistent (if suspends s then probed env s st else logged (Probed s) st).
Proof.
  intros Hst. unfold probed, awaited.
  destruct (suspends s); [destruct (teardown env (AwaitProbe s))|]; exact Hst.
Qed.

Lemma resolveFrom_consistent (env : Env) (l : list TokenSource) :
  forall st, consistent st -> consistent (resolveFrom env l st).
Proof.
  induction l as [|s l IH]; intros st Hst.
  - simpl. apply showSetupState_consistent. exact Hst.
  - rewrite resolveFrom_cons. cbv zeta.
    pose proof (probed_consistent env s st Hst) as H1.
    destruct (suspends s && _); [exact H1|].
    destruct (Js.truthy (probeToken env s)); [|apply IH; exact H1].
    destruct (probeToken env s) as [t|]; [|exact H1].
    rewrite exec_fetchUsage. apply fetchCallback_consistent.
    apply answered_consistent. exact H1.
Qed.

(** Whatever the world, a refresh of an indicator whose menu state agrees
    with its layout leaves one whose menu state agrees with its layout; the
    indicator [_init] builds is such a one. *)
Lemma refresh_consistent (env : Env) (st : Indicator) :
  consistent st -> consistent (refresh env st).
Proof.
  intros Hst. unfold refresh, _refreshUsage. rewrite resolveToken_resolveFrom.
  apply resolveFrom_consistent. exact Hst.
Qed.

(* ------------------------------------------------------------------------- *)
(** ** A payload without usage fields *)
(* ------------------------------------------------------------------------- *)

(** C5: a 200 response whose parsed body has no plan, no premium snapshot
    and no chat snapshot, under either spelling, puts the menu in the setup
    state with the heading "Copilot Data Unavailable"; the plan label, the
    used and remaining labels and the bars are not written, so no 0% is
    shown. *)
Theorem empty_payload_shows_data_unavailable (env : Env) (token : string)
  (st : Indicator) (data : CopilotUsageData) :
  http env = Response 200 (Parsed data) ->
  plan_of data = None -> premium_of data = None -> chat_of data = None ->
  let st' := execState (_fetchUsage env token) st in
  _menuState st' = Some "setup"
  /\ text (ui st') _setupHeading = "Copilot Data Unavailable"
  /\ text (ui st') _setupBody
     = "API returned no usage data. Your token may lack Copilot permissions."
  /\ (forall l, l <> _setupHeading -> l <> _setupBody -> text (ui st') l = text (ui st) l)
  /\ (forall w, width (ui st') w = width (ui st) w)
  /\ (forall r, style_classes (ui st') (bar r) = style_classes (ui st) (bar r))
  /\ (consistent st -> setupLayout (ui st')).
Proof.
  intros H Hp Hq Hc st'. subst st'.
  rewrite exec_fetchUsage, (fetchCallback_parsed env data) by assumption.
  unfold _updateUsageDisplay. rewrite (noUsageFields_absent data) by assumption.
  destruct (showSetupState_spec NO_DATA_HEADING NO_DATA_BODY (answered env token st))
    as (Hm & _ & Hh & Hb & _ & Hl & Ht & Hw & Hs).
  destruct (answered_frame env token st) as (Em & Eu).
  rewrite Eu in Ht, Hw, Hs.
  repeat match goal with |- _ /\ _ => split end; auto.
  - intros r. apply Hs. discriminate.
  - intros Hst. apply Hl. apply answered_consistent. exact Hst.
Qed.

Lemma empty_payload_shows_data_unavailable_witness :
  let env := with_http ymlEnv (Response 200 (Parsed emptyBody)) in
  let st := refresh ymlEnv _init in
  let st' := execState (_fetchUsage env "gho_yml") st in
  _menuState st = Some "usage"
  /\ _menuState st' = Some "setup"
  /\ text (ui st') _setupHeading = "Copilot Data Unavailable"
  /\ text (ui st') (usedLabel _premiumResult) = "20%"
  /\ setupLayout (ui st').
Proof.
  destruct (empty_payload_shows_data_unavailable
              (with_http ymlEnv (Response 200 (Parsed emptyBody))) "gho_yml"
              (refresh ymlEnv _init) emptyBody)
    as (Hm & Hh & _ & Hl & _ & _ & Hy); try reflexivity.
  refine (conj eq_refl (conj Hm (conj Hh (conj _ _)))).
  - rewrite Hl by discriminate. reflexivity.
  - apply Hy. apply refresh_consistent. apply consistent_init.
Defined.

(* ========================================================================= *)
(** * Further properties of the code *)
(* ========================================================================= *)

(* ------------------------------------------------------------------------- *)
(** ** The subprocess probe *)
(* ------------------------------------------------------------------------- *)

Lemma trimEnd_idem (s : string) : Js.trimEnd (Js.trimEnd s) = Js.trimEnd s.
Proof.
  induction s as [|c s IH]; [reflexivity|]. simpl.
  destruct (Js.trimEnd s) as [|c' r] eqn:E.
  - destruct (Js.isWhiteSpace c) eqn:W; simpl; [reflexivity | rewrite W; reflexivity].
  - change (match Js.trimEnd (String c' r) with
            | EmptyString => if Js.isWhiteSpace c then EmptyString else String c EmptyString
            | String a b => String c (String a b)
            end = String c (String c' r)).
    rewrite IH. reflexivity.
Qed.

Lemma trimStart_head (s : string) (c : ascii) (r : string) :
  Js.trimStart s = String c r -> Js.isWhiteSpace c = false.
Proof.
  induction s as [|a s IH]; simpl; [discriminate|].
  destruct (Js.isWhiteSpace a) eqn:W; [exact IH|].
  intros H. injection H as -> _. exact W.
Qed.

Lemma trimEnd_keeps_head (c : ascii) (r : string) :
  Js.isWhiteSpace c = false -> exists r', Js.trimEnd (String c r) = String c r'.
Proof.
  intros W. simpl. destruct (Js.trimEnd r); [rewrite W|]; eauto.
Qed.

Lemma trimEnd_nonempty (s : string) : Js.trimEnd s <> "" -> s <> "".
Proof. destruct s; [intros H; exact H | discriminate]. Qed.

(** [trim] leaves no white space at either end. *)
Lemma trim_trimmed (s : string) :
  Js.trimStart (Js.trim s) = Js.trim s /\ Js.trimEnd (Js.trim s) = Js.trim s.
Proof.
  unfold Js.trim. split; [|apply trimEnd_idem].
  destruct (Js.trimStart s) as [|c r] eqn:E; [reflexivity|].
  pose proof (trimStart_head s c r E) as W.
  destruct (trimEnd_keeps_head c r W) as [r' ->]. simpl. rewrite W. reflexivity.
Qed.

Lemma trim_idem (s : string) : Js.trim (Js.trim s) = Js.trim s.
Proof.
  destruct (trim_trimmed s) as [H1 H2]. unfold Js.trim at 1. rewrite H1. exact H2.
Qed.

(** X1: whatever gh does, the subprocess probe yields either nothing or a
    token that is not empty and has no white space at its start or its end;
    a token comes only from an output that gh wrote, and is that output
    trimmed. *)
Theorem subprocess_token_is_trimmed_and_nonempty (run : SubprocessRun) (t : string) :
  subprocessToken run = Some t ->
  t <> ""
  /\ Js.trimStart t = t /\ Js.trimEnd t = t
  /\ exists out, run = Communicated (Some out) /\ t = Js.trim out.
Proof.
  intros H. destruct run as [ | | [out|]]; simpl in H; try discriminate.
  unfold Js.truthy in H.
  destruct (String.eqb (Js.trim out) "") eqn:E; simpl in H; [discriminate|].
  injection H as <-. apply String.eqb_neq in E.
  destruct (trim_trimmed out) as [H1 H2]. eauto 6.
Qed.

Lemma subprocess_token_is_trimmed_and_nonempty_witness :
  "gho_abc" <> ""
  /\ Js.trimStart "gho_abc" = "gho_abc" /\ Js.trimEnd "gho_abc" = "gho_abc"
  /\ exists out, Communicated (Some "  gho_abc
") = Communicated (Some out) /\ "gho_abc" = Js.trim out.
Proof.
  apply (subprocess_token_is_trimmed_and_nonempty (Communicated (Some "  gho_abc
")) "gho_abc").
  reflexivity.
Defined.

(* ------------------------------------------------------------------------- *)
(** ** [_setMenuState] *)
(* ------------------------------------------------------------------------- *)

(** X2: [_setMenuState] is idempotent: called again with the state the menu
    is already in, it returns at once, so the second call makes no call into
    the toolkit and changes nothing. *)
Theorem setMenuState_twice_is_once (s : string) (st : Indicator) :
  let st1 := execState (_setMenuState s) st in
  execState (_setMenuState s) st1 = st1
  /\ uiCallsOf (skipn (length (log st1)) (log (execState (_setMenuState s) st1))) = [].
Proof.
  intros st1.
  destruct (setMenuState_frame s st) as (Hm & _). fold st1 in Hm.
  assert (E : execState (_setMenuState s) st1 = st1).
  { unfold _setMenuState at 1. run. rewrite exec_if, Hm, String.eqb_refl. reflexivity. }
  rewrite E. split; [reflexivity|]. rewrite skipn_all. reflexivity.
Qed.

(* ------------------------------------------------------------------------- *)
(** ** [_formatPlan] *)
(* ------------------------------------------------------------------------- *)

Lemma length_replaceSeparators (s : string) :
  String.length (replaceSeparators s) = String.length s.
Proof. induction s; simpl; congruence. Qed.

Lemma length_capitalizeWords (s : string) :
  forall b, String.length (capitalizeWords b s) = String.length s.
Proof. induction s as [|c s IH]; intros b; simpl; [reflexivity|]. rewrite IH. reflexivity. Qed.

Lemma isSeparator_upper (c : ascii) : isSeparator (Js.upperWordChar c) = isSeparator c.
Proof. destruct c as [[] [] [] [] [] [] [] []]; reflexivity. Qed.

Lemma isWordChar_upper (c : ascii) : Js.isWordChar (Js.upperWordChar c) = Js.isWordChar c.
Proof. destruct c as [[] [] [] [] [] [] [] []]; reflexivity. Qed.

Lemma upperWordChar_idem (c : ascii) :
  Js.upperWordChar (Js.upperWordChar c) = Js.upperWordChar c.
Proof. destruct c as [[] [] [] [] [] [] [] []]; reflexivity. Qed.

Lemma replaceSeparators_clean (s : string) :
  stringAll (fun c => negb (isSeparator c)) (replaceSeparators s) = true.
Proof.
  induction s as [|c s IH]; simpl; [reflexivity|]. rewrite IH, andb_true_r.
  fold (isSeparator c). destruct (isSeparator c) eqn:E; [reflexivity|].
  rewrite E. reflexivity.
Qed.

Lemma capitalizeWords_clean (s : string) :
  forall b, stringAll (fun c => negb (isSeparator c)) s = true ->
            stringAll (fun c => negb (isSeparator c)) (capitalizeWords b s) = true.
Proof.
  induction s as [|c s IH]; intros b H; simpl in *; [reflexivity|].
  apply andb_true_iff in H. destruct H as [Hc Hs].
  rewrite (IH _ Hs), andb_true_r.
  destruct (Js.isWordChar c && negb b); [rewrite isSeparator_upper|]; exact Hc.
Qed.

Lemma replaceSeparators_fix (s : string) :
  stringAll (fun c => negb (isSeparator c)) s = true -> replaceSeparators s = s.
Proof.
  induction s as [|c s IH]; intros H; simpl in *; [reflexivity|].
  apply andb_true_iff in H. destruct H as [Hc Hs].
  rewrite (IH Hs). fold (isSeparator c). apply negb_true_iff in Hc. rewrite Hc. reflexivity.
Qed.

Lemma capitalizeWords_idem (s : string) :
  forall b, capitalizeWords b (capitalizeWords b s) = capitalizeWords b s.
Proof.
  induction s as [|c s IH]; intros b; simpl; [reflexivity|].
  destruct (Js.isWordChar c && negb b) eqn:E.
  - rewrite isWordChar_upper, upperWordChar_idem, E, IH. reflexivity.
  - rewrite E, IH. reflexivity.
Qed.

(** X3: [_formatPlan] keeps the length of the plan identifier, leaves no
    underscore and no hyphen in it, and is idempotent: a plan already
    formatted is shown as it is. *)
Theorem formatPlan_shape (raw : string) :
  String.length (_formatPlan raw) = String.length raw
  /\ stringAll (fun c => negb (isSeparator c)) (_formatPlan raw) = true
  /\ _formatPlan (_formatPlan raw) = _formatPlan raw.
Proof.
  unfold _formatPlan. split; [|split].
  - rewrite length_capitalizeWords. apply length_replaceSeparators.
  - apply capitalizeWords_clean. apply replaceSeparators_clean.
  - rewrite replaceSeparators_fix
      by (apply capitalizeWords_clean; apply replaceSeparators_clean).
    apply capitalizeWords_idem.
Qed.

(* ------------------------------------------------------------------------- *)
(** ** [_updateBar] *)
(* ------------------------------------------------------------------------- *)

Lemma In_remove_class (c x : string) (l : list string) :
  In c (remove_class x l) <-> In c l /\ c <> x.
Proof.
  unfold remove_class. rewrite filter_In. split; intros [H1 H2]; split; auto.
  - intros ->. rewrite String.eqb_refl in H2. discriminate.
  - apply negb_true_iff. apply String.eqb_neq. congruence.
Qed.

Lemma In_add_class (c x : string) (l : list string) :
  In c (add_class x l) <-> c = x \/ In c l.
Proof.
  unfold add_class. destruct (existsb (String.eqb x) l) eqn:E.
  - split; [auto|]. intros [-> | H]; [|exact H].
    apply existsb_exists in E. destruct E as (y & Hy & Ey).
    apply String.eqb_eq in Ey. subst y. exact Hy.
  - rewrite in_app_iff. simpl. split; intros [H | H]; auto.
    + destruct H as [<- | []]. auto.
Qed.

Lemma usageClass_usage (q : number) : In (usageClass q) usageClasses.
Proof.
  unfold usageClass, usageClasses.
  destruct (Number.leb (Fin 90) q);
    [|destruct (Number.leb (Fin 70) q); [|destruct (Number.leb (Fin 40) q)]];
    simpl; auto.
Qed.

(** What [_updateBar] leaves behind, call by call. *)
Lemma exec_updateBar (b : Widget) (pct : number) (st : Indicator) :
  let st' := execState (_updateBar b pct) st in
  _menuState st' = _menuState st
  /\ visible (ui st') = visible (ui st)
  /\ text (ui st') = text (ui st)
  /\ width (ui st') b
     = Number.round (Number.mul (Number.div (clampedPct pct) 100) TRACK_PX)
  /\ style_classes (ui st') b
     = add_class (usageClass (clampedPct pct))
         (remove_class "usage-critical"
            (remove_class "usage-high"
               (remove_class "usage-medium"
                  (remove_class "usage-low" (style_classes (ui st) b)))))
  /\ (forall w, w <> b ->
        width (ui st') w = width (ui st) w
        /\ style_classes (ui st') w = style_classes (ui st) w).
Proof.
  unfold _updateBar. run. simpl.
  repeat match goal with |- _ /\ _ => split end; intros; upd_solve.
Qed.

(** X4: after [_updateBar] the bar carries exactly one of the four usage
    classes, the one of the band the clamped percentage falls in, whatever
    classes it carried before; its other classes are kept, and no other
    widget and no label is touched. *)
Theorem updateBar_leaves_one_usage_class (b : Widget) (pct : number) (st : Indicator) :
  let st' := execState (_updateBar b pct) st in
  (forall c, In c (style_classes (ui st') b)
             <-> c = usageClass (clampedPct pct)
                 \/ (In c (style_classes (ui st) b) /\ ~ In c usageClasses))
  /\ (forall c, In c usageClasses -> In c (style_classes (ui st') b) ->
                c = usageClass (clampedPct pct))
  /\ (forall w, w <> b -> style_classes (ui st') w = style_classes (ui st) w)
  /\ text (ui st') = text (ui st)
  /\ visible (ui st') = visible (ui st).
Proof.
  intros st'. subst st'.
  destruct (exec_updateBar b pct st) as (_ & Hv & Ht & _ & Hc & Ho).
  assert (Hin : forall c, In c (style_classes (ui (execState (_updateBar b pct) st)) b)
                          <-> c = usageClass (clampedPct pct)
                              \/ (In c (style_classes (ui st) b) /\ ~ In c usageClasses)).
  { intros c. rewrite Hc, In_add_class, !In_remove_class. unfold usageClasses. simpl.
    split.
    - intros [H | ((((H & H1) & H2) & H3) & H4)]; [left; exact H|].
      right. split; [exact H|]. intros [E | [E | [E | [E | []]]]]; congruence.
    - intros [H | [H Hn]]; [left; exact H|]. right.
      repeat split; auto; intros ->; apply Hn; auto. }
  split; [exact Hin|]. split; [|split; [|split; assumption]].
  - intros c Hu H. apply Hin in H. destruct H as [H | [_ Hn]]; [exact H|].
    contradiction.
  - intros w Hw. apply Ho. exact Hw.
Qed.

(** X5: the width [_updateBar] requests is a whole number of pixels between
    0 and 244 for every percentage, grows with the percentage, is 0 for any
    percentage at or below 0 and 244 for any at or above 100. *)
Theorem updateBar_width_in_track (b : Widget) (st : Indicator) :
  (forall pct,
     exists px, width (ui (execState (_updateBar b pct) st)) b = Fin (inject_Z px)
                /\ (0 <= px <= 244)%Z)
  /\ (forall p q, Number.le p q ->
        Number.le (width (ui (execState (_updateBar b p) st)) b)
                  (width (ui (execState (_updateBar b q) st)) b))
  /\ (forall pct, Number.le pct (Fin 0) ->
        width (ui (execState (_updateBar b pct) st)) b = Fin 0)
  /\ (forall pct, Number.le (Fin 100) pct ->
        width (ui (execState (_updateBar b pct) st)) b = Fin 244).
Proof.
  assert (W : forall pct,
             width (ui (execState (_updateBar b pct) st)) b
             = Number.round (Number.mul (Number.div (clampedPct pct) 100) TRACK_PX))
    by (intros pct; apply (exec_updateBar b pct st)).
  destruct barWidth_ends as [E0 E1].
  split; [|split; [|split]].
  - intros pct. rewrite W. apply barWidth_shape.
  - intros p q H. rewrite !W. apply barWidth_mono. exact H.
  - intros pct H. rewrite W.
    pose proof (barWidth_mono pct (Fin 0) H) as M. rewrite E0 in M.
    destruct (barWidth_shape pct) as (px & E & L & U). rewrite E in *.
    apply le_Fin_iff in M. change (inject_Z px <= inject_Z 0)%Q in M.
    rewrite <- Zle_Qle in M.
    replace px with 0%Z by lia. reflexivity.
  - intros pct H. rewrite W.
    pose proof (barWidth_mono (Fin 100) pct H) as M. rewrite E1 in M.
    destruct (barWidth_shape pct) as (px & E & L & U). rewrite E in *.
    apply le_Fin_iff in M. change (inject_Z 244 <= inject_Z px)%Q in M.
    rewrite <- Zle_Qle in M.
    replace px with 244%Z by lia. reflexivity.
Qed.

(* ------------------------------------------------------------------------- *)
(** ** The extractors *)
(* ------------------------------------------------------------------------- *)

Lemma stripPrefix_Some (p : string) :
  forall s r, stripPrefix p s = Some r -> s = p ++ r.
Proof.
  induction p as [|a p IH]; intros s r H; simpl in H.
  - injection H as ->. reflexivity.
  - destruct s as [|b s]; [discriminate|].
    destruct (Ascii.eqb a b) eqn:E; [|discriminate].
    apply Ascii.eqb_eq in E. subst b.
    change (String a s = String a (p ++ r)). rewrite (IH s r H). reflexivity.
Qed.

Lemma stripPrefix_app (p r : string) : stripPrefix p (p ++ r) = Some r.
Proof.
  induction p as [|a p IH]; [reflexivity|].
  change (stripPrefix (String a p) (String a (p ++ r)) = Some r).
  simpl. rewrite Ascii.eqb_refl. exact IH.
Qed.

Lemma trimStart_split (s : string) :
  exists ws, s = ws ++ Js.trimStart s /\ stringAll Js.isWhiteSpace ws = true.
Proof.
  induction s as [|c s (ws & E & W)].
  - exists "". auto.
  - simpl Js.trimStart. destruct (Js.isWhiteSpace c) eqn:Hc.
    + exists (String c ws). split.
      * change (String c s = String c (ws ++ Js.trimStart s)). rewrite <- E. reflexivity.
      * simpl. rewrite Hc, W. reflexivity.
    + exists "". auto.
Qed.

Lemma trimStart_white (ws s : string) :
  stringAll Js.isWhiteSpace ws = true -> Js.trimStart (ws ++ s) = Js.trimStart s.
Proof.
  induction ws as [|c ws IH]; [reflexivity|].
  intros H. simpl in H. apply andb_true_iff in H. destruct H as [Hc Hw].
  change (Js.trimStart (String c (ws ++ s)) = Js.trimStart s).
  simpl. rewrite Hc. auto.
Qed.

Lemma takeNonSpace_split (s : string) :
  exists post,
    s = takeNonSpace s ++ post
    /\ stringAll (fun c => negb (Js.isWhiteSpace c)) (takeNonSpace s) = true
    /\ endsToken post.
Proof.
  induction s as [|c s (post & E & N & P)].
  - exists "". simpl. auto.
  - simpl takeNonSpace. destruct (Js.isWhiteSpace c) eqn:Hc.
    + exists (String c s). simpl. auto.
    + exists post. split; [|split; [|exact P]].
      * change (String c s = String c (takeNonSpace s ++ post)). rewrite <- E. reflexivity.
      * simpl. rewrite Hc, N. reflexivity.
Qed.

Lemma takeNonSpace_app (t post : string) :
  stringAll (fun c => negb (Js.isWhiteSpace c)) t = true ->
  takeNonSpace (t ++ post) = t ++ takeNonSpace post.
Proof.
  induction t as [|c t IH]; [reflexivity|].
  intros H. simpl in H. apply andb_true_iff in H. destruct H as [Hc Ht].
  apply negb_true_iff in Hc.
  change (takeNonSpace (String c (t ++ post)) = String c (t ++ takeNonSpace post)).
  simpl. rewrite Hc, (IH Ht). reflexivity.
Qed.

Lemma readToken_ghYml_unfold (content : string) :
  readToken_ghYml content
  = match ghYml_matchHere content with
    | Some tok => Some tok
    | None => match content with
              | String _ rest => readToken_ghYml rest
              | EmptyString => None
              end
    end.
Proof. destruct content; reflexivity. Qed.

(** A match at the head of the text. *)
Lemma ghYml_matchHere_sound (s t : string) :
  ghYml_matchHere s = Some t ->
  t <> ""
  /\ stringAll (fun c => negb (Js.isWhiteSpace c)) t = true
  /\ exists ws post,
       s = "oauth_token:" ++ ws ++ t ++ post
       /\ stringAll Js.isWhiteSpace ws = true /\ endsToken post.
Proof.
  unfold ghYml_matchHere.
  destruct (stripPrefix "oauth_token:" s) as [rest|] eqn:E; [|discriminate].
  apply stripPrefix_Some in E.
  destruct (String.eqb (takeNonSpace (Js.trimStart rest)) "") eqn:N; [discriminate|].
  intros H. injection H as <-. apply String.eqb_neq in N.
  destruct (trimStart_split rest) as (ws & Er & W).
  destruct (takeNonSpace_split (Js.trimStart rest)) as (post & Et & Nw & P).
  split; [exact N|]. split; [exact Nw|].
  exists ws, post. rewrite <- Et, <- Er. auto.
Qed.

Lemma ghYml_matchHere_complete (ws t post : string) :
  stringAll Js.isWhiteSpace ws = true ->
  t <> "" -> stringAll (fun c => negb (Js.isWhiteSpace c)) t = true ->
  ghYml_matchHere ("oauth_token:" ++ ws ++ t ++ post) = Some (t ++ takeNonSpace post).
Proof.
  intros W Ht N. unfold ghYml_matchHere. rewrite stripPrefix_app.
  rewrite (trimStart_white ws) by exact W.
  assert (E : Js.trimStart (t ++ post) = t ++ post).
  { destruct t as [|c t]; [congruence|]. simpl in N.
    apply andb_true_iff in N. destruct N as [Hc _]. apply negb_true_iff in Hc.
    change (Js.trimStart (String c (t ++ post)) = String c (t ++ post)).
    simpl. rewrite Hc. reflexivity. }
  rewrite E, (takeNonSpace_app t post N).
  destruct t as [|c t]; [congruence|]. reflexivity.
Qed.

(** X6: a token [readToken_ghYml] returns is never empty, holds no white
    space, and stands in the text behind the marker "oauth_token:" and a
    run of white space, followed by white space or the end of the text; and
    whenever the text holds the marker followed by white space and a
    non-space character, a token is returned. *)
Theorem readToken_ghYml_matches_marker :
  (forall content t,
     readToken_ghYml content = Some t ->
     t <> ""
     /\ stringAll (fun c => negb (Js.isWhiteSpace c)) t = true
     /\ exists pre ws post,
          content = pre ++ "oauth_token:" ++ ws ++ t ++ post
          /\ stringAll Js.isWhiteSpace ws = true /\ endsToken post)
  /\ (forall pre ws t post,
        stringAll Js.isWhiteSpace ws = true ->
        t <> "" -> stringAll (fun c => negb (Js.isWhiteSpace c)) t = true ->
        exists t', readToken_ghYml (pre ++ "oauth_token:" ++ ws ++ t ++ post) = Some t').
Proof.
  split.
  - induction content as [|c content IH]; intros t H;
      rewrite readToken_ghYml_unfold in H.
    + discriminate H.
    + destruct (ghYml_matchHere (String c content)) as [tok|] eqn:E.
      * injection H as ->.
        destruct (ghYml_matchHere_sound _ _ E) as (Ht & N & ws & post & Es & W & P).
        split; [exact Ht|]. split; [exact N|].
        exists "", ws, post. auto.
      * destruct (IH t H) as (Ht & N & pre & ws & post & Es & W & P).
        split; [exact Ht|]. split; [exact N|].
        exists (String c pre), ws, post. rewrite Es. auto.
  - induction pre as [|c pre IH]; intros ws t post W Ht N.
    + rewrite readToken_ghYml_unfold.
      change ("" ++ "oauth_token:" ++ ws ++ t ++ post)
        with ("oauth_token:" ++ ws ++ t ++ post).
      rewrite (ghYml_matchHere_complete ws t post W Ht N). eauto.
    + rewrite readToken_ghYml_unfold.
      destruct (ghYml_matchHere _) as [tok|]; [eauto|].
      change (String c pre ++ "oauth_token:" ++ ws ++ t ++ post)
        with (String c (pre ++ "oauth_token:" ++ ws ++ t ++ post)).
      cbv iota. apply IH; assumption.
Qed.

Lemma appsJson_loop_sound (data : Record_ HostEntry) (ks : list string) (t : string) :
  appsJson_loop data ks = Some t ->
  t <> "" /\ exists key, In key ks /\ tokenAt data key = Some t.
Proof.
  induction ks as [|key ks IH]; simpl; [discriminate|].
  fold (tokenAt data key). destruct (Js.truthy (tokenAt data key)) eqn:T.
  - intros H. split.
    + rewrite H in T. unfold Js.truthy in T. apply negb_true_iff in T.
      apply String.eqb_neq. exact T.
    + exists key. auto.
  - intros H. destruct (IH H) as (Ht & k & Hk & Hg). split; [exact Ht|].
    exists k. auto.
Qed.

Lemma appsJson_loop_none (data : Record_ HostEntry) (ks : list string) :
  appsJson_loop data ks = None
  <-> forall key, In key ks -> Js.truthy (tokenAt data key) = false.
Proof.
  induction ks as [|key ks IH]; simpl.
  - split; [intros _ k [] | reflexivity].
  - fold (tokenAt data key). destruct (Js.truthy (tokenAt data key)) eqn:T.
    + split.
      * intros H. rewrite H in T. discriminate T.
      * intros H. rewrite (H key) in T by auto. discriminate T.
    + rewrite IH. split.
      * intros H k [<- | Hk]; auto.
      * intros H k Hk. apply H. auto.
Qed.

Lemma appsJson_loop_first (data : Record_ HostEntry) (pre : list string) (key : string)
  (post : list string) (t : string) :
  (forall k, In k pre -> Js.truthy (tokenAt data k) = false) ->
  tokenAt data key = Some t -> t <> "" ->
  appsJson_loop data (pre ++ key :: post) = Some t.
Proof.
  intros Hpre Hk Ht. induction pre as [|p pre IH]; simpl.
  - fold (tokenAt data key). rewrite Hk, (truthy_nonempty t Ht). reflexivity.
  - fold (tokenAt data p). rewrite (Hpre p) by (simpl; auto).
    apply IH. intros k H. apply Hpre. simpl; auto.
Qed.

(** X7: [readToken_appsJson] returns the token of the first key, in the
    order of the document's keys, whose entry has a non-empty [oauth_token]:
    a returned token is never empty and is the field of one of the entries as
    it stands; nothing is returned exactly when the document is null or no
    entry has a non-empty token (entries without the field, null entries and
    empty tokens are passed over). *)
Theorem readToken_appsJson_first_entry_with_token :
  (forall content t,
     readToken_appsJson content = Some t ->
     t <> ""
     /\ exists data key, content = Some data /\ In key (keys data)
                         /\ tokenAt data key = Some t)
  /\ (forall data,
        readToken_appsJson (Some data) = None
        <-> forall key, In key (keys data) -> Js.truthy (tokenAt data key) = false)
  /\ readToken_appsJson None = None
  /\ (forall data pre key post t,
        keys data = (pre ++ key :: post)%list ->
        (forall k, In k pre -> Js.truthy (tokenAt data k) = false) ->
        tokenAt data key = Some t -> t <> "" ->
        readToken_appsJson (Some data) = Some t).
Proof.
  split; [|split; [|split]].
  - intros [data|] t H; simpl in H; [|discriminate].
    destruct (appsJson_loop_sound data (keys data) t H) as (Ht & key & Hk & Hg).
    split; [exact Ht|]. exists data, key. auto.
  - intros data. apply appsJson_loop_none.
  - reflexivity.
  - intros data pre key post t Hkeys Hpre Hk Ht. simpl. rewrite Hkeys.
    apply appsJson_loop_first; assumption.
Qed.

Lemma oauthJson_entries_sound (entries : list (option OauthEntry)) (t : string) :
  oauthJson_entries entries = Some t ->
  t <> "" /\ exists e, In (Some e) entries /\ accessToken e = Some t.
Proof.
  induction entries as [|entry entries IH]; simpl; [discriminate|].
  destruct entry as [e|].
  - destruct (Js.truthy (accessToken e)) eqn:T.
    + intros H. split.
      * rewrite H in T. unfold Js.truthy in T. apply negb_true_iff in T.
        apply String.eqb_neq. exact T.
      * exists e. auto.
    + intros H. destruct (IH H) as (Ht & e' & He & Ha). split; [exact Ht|].
      exists e'. auto.
  - simpl. intros H. destruct (IH H) as (Ht & e' & He & Ha). split; [exact Ht|].
    exists e'. auto.
Qed.

Lemma oauthJson_entries_none (entries : list (option OauthEntry)) :
  oauthJson_entries entries = None
  <-> forall e, In (Some e) entries -> Js.truthy (accessToken e) = false.
Proof.
  induction entries as [|entry entries IH]; simpl.
  - split; [intros _ e [] | reflexivity].
  - destruct entry as [e|].
    + destruct (Js.truthy (accessToken e)) eqn:T.
      * split.
        -- intros H. rewrite H in T. discriminate T.
        -- intros H. rewrite (H e) in T by auto. discriminate T.
      * rewrite IH. split.
        -- intros H e' [E | He]; [injection E as <-; exact T | auto].
        -- intros H e' He. apply H. auto.
    + simpl. rewrite IH. split.
      * intros H e' [E | He]; [discriminate E | auto].
      * intros H e' He. apply H. auto.
Qed.

Lemma oauthJson_loop_sound (data : Record_ (list (option OauthEntry)))
  (ks : list string) (t : string) :
  oauthJson_loop data ks = Some t ->
  t <> "" /\ exists key entries e,
               In key ks /\ get data key = Some entries
               /\ In (Some e) entries /\ accessToken e = Some t.
Proof.
  induction ks as [|key ks IH]; simpl; [discriminate|].
  destruct (get data key) as [entries|] eqn:G.
  - destruct (oauthJson_entries entries) as [t'|] eqn:E.
    + intros H. injection H as ->.
      destruct (oauthJson_entries_sound entries t E) as (Ht & e & He & Ha).
      split; [exact Ht|]. exists key, entries, e. auto.
    + intros H. destruct (IH H) as (Ht & k & es & e & Hk & Hg & He & Ha).
      split; [exact Ht|]. exists k, es, e. auto.
  - intros H. destruct (IH H) as (Ht & k & es & e & Hk & Hg & He & Ha).
    split; [exact Ht|]. exists k, es, e. auto.
Qed.

Lemma oauthJson_loop_none (data : Record_ (list (option OauthEntry))) (ks : list string) :
  oauthJson_loop data ks = None
  <-> forall key entries e,
        In key ks -> get data key = Some entries -> In (Some e) entries ->
        Js.truthy (accessToken e) = false.
Proof.
  induction ks as [|key ks IH]; simpl.
  - split; [intros _ k es e [] | reflexivity].
  - destruct (get data key) as [entries|] eqn:G.
    + destruct (oauthJson_entries entries) as [t'|] eqn:E.
      * split; [discriminate|]. intros H. exfalso.
        destruct (oauthJson_entries_sound entries t' E) as (Ht & e & He & Ha).
        specialize (H key entries e (or_introl eq_refl) G He).
        rewrite Ha, (truthy_nonempty t' Ht) in H. discriminate H.
      * rewrite IH. split.
        -- intros H k es e [<- | Hk] Hg He.
           ++ rewrite G in Hg. injection Hg as <-.
              apply (proj1 (oauthJson_entries_none entries) E). exact He.
           ++ eapply H; eauto.
        -- intros H k es e Hk. apply H. auto.
    + rewrite IH. split.
      * intros H k es e [<- | Hk] Hg He.
        -- rewrite G in Hg. discriminate Hg.
        -- eapply H; eauto.
      * intros H k es e Hk. apply H. auto.
Qed.

(** X8: a token [readToken_oauthJson] returns is never empty and is the
    [accessToken] of an entry of one of the document's arrays, as it stands;
    nothing is returned exactly when the document is null or no entry of any
    array has a non-empty [accessToken]: values that are not arrays, null
    entries, entries without the field and empty tokens are passed over. *)
Theorem readToken_oauthJson_takes_an_entry_token :
  (forall content t,
     readToken_oauthJson content = Some t ->
     t <> ""
     /\ exists data key entries e,
          content = Some data /\ In key (keys data) /\ get data key = Some entries
          /\ In (Some e) entries /\ accessToken e = Some t)
  /\ (forall data,
        readToken_oauthJson (Some data) = None
        <-> forall key entries e,
              In key (keys data) -> get data key = Some entries -> In (Some e) entries ->
              Js.truthy (accessToken e) = false)
  /\ readToken_oauthJson None = None.
Proof.
  split; [|split].
  - intros [data|] t H; simpl in H; [|discriminate].
    destruct (oauthJson_loop_sound data (keys data) t H)
      as (Ht & key & es & e & Hk & Hg & He & Ha).
    split; [exact Ht|]. exists data, key, es, e. auto.
  - intros data. apply oauthJson_loop_none.
  - reflexivity.
Qed.

(* ------------------------------------------------------------------------- *)
(** ** Every refresh, whatever the world *)
(* ------------------------------------------------------------------------- *)

Lemma skipn_length_app {A : Type} (a b : list A) : skipn (length a) (a ++ b)%list = b.
Proof. induction a as [|x a IH]; simpl; auto. Qed.

Lemma events_of_log (env : Env) (st : Indicator) (evs : list Event) :
  log (refresh env st) = (log st ++ evs)%list -> events env st = evs.
Proof. intros H. unfold events. rewrite H. apply skipn_length_app. Qed.

Lemma step_settled (env : Env) (s : TokenSource) (st : Indicator) :
  suspends s && teardown env (AwaitProbe s) = false ->
  (if suspends s then probed env s st else logged (Probed s) st) = logged (Probed s) st.
Proof.
  intros H. destruct (suspends s); [|reflexivity]. simpl in H.
  apply probed_alive. exact H.
Qed.

(** How a refresh of a live indicator ends: torn down during an awaited
    probe, at the fetch for the first token found, or at the setup state. *)
Lemma resolveFrom_cases (env : Env) (l : list TokenSource) :
  forall st, _destroyed st = false ->
  (exists pre s post,
     l = (pre ++ s :: post)%list
     /\ (forall s', In s' pre -> Js.truthy (probeToken env s') = false)
     /\ suspends s = true /\ teardown env (AwaitProbe s) = true
     /\ resolveFrom env l st = torn (probedAll (pre ++ [s]) st))
  \/ (exists pre s post t,
        l = (pre ++ s :: post)%list
        /\ (forall s', In s' pre -> Js.truthy (probeToken env s') = false)
        /\ probeToken env s = Some t /\ t <> ""
        /\ resolveFrom env l st = execState (_fetchUsage env t) (probedAll (pre ++ [s]) st))
  \/ ((forall s', In s' l -> Js.truthy (probeToken env s') = false)
      /\ resolveFrom env l st
         = execState (_showSetupState NO_TOKEN_HEADING NO_TOKEN_BODY) (probedAll l st)).
Proof.
  induction l as [|s l IH]; intros st Hst.
  - right. right. split; [intros s' []|reflexivity].
  - rewrite resolveFrom_cons. cbv zeta.
    destruct (suspends s && teardown env (AwaitProbe s)) eqn:T.
    + left. apply andb_true_iff in T. destruct T as [Hs Ht].
      exists [], s, l. rewrite Hs, probed_torn by exact Ht. simpl.
      repeat split; auto. intros s' [].
    + rewrite step_settled by exact T. simpl _destroyed. rewrite Hst, andb_false_r.
      destruct (Js.truthy (probeToken env s)) eqn:P.
      * right. left. destruct (probeToken env s) as [t|] eqn:E; [|discriminate P].
        exists [], s, l, t. simpl. repeat split; auto.
        -- intros s' [].
        -- unfold Js.truthy in P. apply negb_true_iff in P. apply String.eqb_neq. exact P.
      * destruct (IH (logged (Probed s) st) Hst)
          as [(pre & s0 & post & -> & Hp & Hs & Ht & E)
             | [(pre & s0 & post & t & -> & Hp & Ht & Hn & E) | (Hall & E)]].
        -- left. exists (s :: pre), s0, post. rewrite E. simpl. repeat split; auto.
           intros s' [<- | H]; auto.
        -- right. left. exists (s :: pre), s0, post, t. rewrite E. simpl.
           repeat split; auto. intros s' [<- | H]; auto.
        -- right. right. rewrite E. simpl. split; [|reflexivity].
           intros s' [<- | H]; auto.
Qed.

(** A refresh of an indicator that is already destroyed starts the first
    probe and stops behind it. *)
Lemma refresh_destroyed (env : Env) (st : Indicator) :
  _destroyed st = true ->
  refresh env st = probed env gh_auth_token st.
Proof.
  intros H. unfold refresh, _refreshUsage. rewrite resolveToken_resolveFrom.
  unfold priority. rewrite resolveFrom_cons. cbv zeta. simpl suspends. cbv iota.
  assert (D : _destroyed (probed env gh_auth_token st) = true).
  { unfold probed, awaited. destruct (teardown env _); simpl; auto. }
  rewrite D. reflexivity.
Qed.

Lemma probed_log (env : Env) (s : TokenSource) (st : Indicator) :
  log (probed env s st)
  = (log st ++ Probed s :: (if teardown env (AwaitProbe s) then [Destroy] else []))%list.
Proof.
  unfold probed, awaited. destruct (teardown env _); simpl; rewrite <- ?app_assoc; reflexivity.
Qed.

(** The log of a refresh, by the way it ends. *)
Lemma refresh_log_cases (env : Env) (st : Indicator) :
  exists evs,
    log (refresh env st) = (log st ++ evs)%list
    /\ ((_destroyed st = true
         /\ evs = Probed gh_auth_token
                    :: (if teardown env (AwaitProbe gh_auth_token) then [Destroy] else []))
        \/ (exists pre s post,
              priority = (pre ++ s :: post)%list
              /\ evs = (map Probed (pre ++ [s]) ++ [Destroy])%list)
        \/ (exists pre s post t calls,
              priority = (pre ++ s :: post)%list
              /\ (forall s', In s' pre -> Js.truthy (probeToken env s') = false)
              /\ probeToken env s = Some t /\ t <> ""
              /\ evs = (map Probed (pre ++ [s])
                         ++ HttpGet API_URL (request_headers t)
                            :: (if teardown env AwaitHttp then [Destroy] else [])
                            ++ map UiCalled calls)%list)
        \/ (exists calls,
              (forall s', Js.truthy (probeToken env s') = false)
              /\ evs = (map Probed priority ++ map UiCalled calls)%list)).
Proof.
  destruct (_destroyed st) eqn:Hst.
  - eexists. split; [rewrite refresh_destroyed by exact Hst; apply probed_log|].
    left. auto.
  - unfold refresh, _refreshUsage. rewrite resolveToken_resolveFrom.
    destruct (resolveFrom_cases env priority st Hst)
      as [(pre & s & post & Hl & Hp & Hs & Ht & E)
         | [(pre & s & post & t & Hl & Hp & Ht & Hn & E) | (Hall & E)]]; rewrite E.
    + destruct (probedAll_frame (pre ++ [s]) st) as (L & _).
      eexists. split; [simpl; rewrite L, <- app_assoc; reflexivity|].
      right. left. exists pre, s, post. auto.
    + destruct (fetchUsage_log env t (probedAll (pre ++ [s]) st)) as (calls & L).
      destruct (probedAll_frame (pre ++ [s]) st) as (Lp & _).
      eexists. split; [rewrite L, Lp, <- app_assoc; reflexivity|].
      right. right. left. exists pre, s, post, t, calls. auto.
    + destruct (uiOnly_showSetupState NO_TOKEN_HEADING NO_TOKEN_BODY (probedAll priority st))
        as (calls & L & _).
      destruct (probedAll_frame priority st) as (Lp & _).
      eexists. split; [rewrite L, Lp, <- app_assoc; reflexivity|].
      right. right. right. exists calls. split; [|reflexivity].
      intros s'. apply Hall. destruct s'; simpl; auto 10.
Qed.

Lemma events_spec (env : Env) (st : Indicator) :
  log (refresh env st) = (log st ++ events env st)%list.
Proof.
  destruct (refresh_log_cases env st) as (evs & H & _).
  rewrite (events_of_log env st evs H). exact H.
Qed.

(** The events of a refresh, by the way it ends. *)
Lemma events_cases (env : Env) (st : Indicator) :
  (_destroyed st = true
   /\ events env st
      = Probed gh_auth_token
          :: (if teardown env (AwaitProbe gh_auth_token) then [Destroy] else []))
  \/ (exists pre s post,
        priority = (pre ++ s :: post)%list
        /\ events env st = (map Probed (pre ++ [s]) ++ [Destroy])%list)
  \/ (exists pre s post t calls,
        priority = (pre ++ s :: post)%list
        /\ (forall s', In s' pre -> Js.truthy (probeToken env s') = false)
        /\ probeToken env s = Some t /\ t <> ""
        /\ events env st
           = (map Probed (pre ++ [s])
                ++ HttpGet API_URL (request_headers t)
                   :: (if teardown env AwaitHttp then [Destroy] else [])
                   ++ map UiCalled calls)%list)
  \/ (exists calls,
        (forall s', Js.truthy (probeToken env s') = false)
        /\ events env st = (map Probed priority ++ map UiCalled calls)%list).
Proof.
  destruct (refresh_log_cases env st) as (evs & H & C).
  rewrite (events_of_log env st evs H). exact C.
Qed.

Lemma probesOf_map_Probed (l : list TokenSource) : probesOf (map Probed l) = l.
Proof. induction l; simpl; congruence. Qed.

Lemma fetchesOf_map_Probed (l : list TokenSource) : fetchesOf (map Probed l) = [].
Proof. induction l; simpl; auto. Qed.

Lemma uiCallsOf_map_Probed (l : list TokenSource) : uiCallsOf (map Probed l) = [].
Proof. induction l; simpl; auto. Qed.

Lemma afterDestroy_map_Probed (l : list TokenSource) (rest : list Event) :
  afterDestroy (map Probed l ++ rest) = afterDestroy rest.
Proof. induction l; simpl; auto. Qed.

Lemma afterDestroy_map_UiCalled (calls : list UiCall) :
  afterDestroy (map UiCalled calls) = [].
Proof. induction calls; simpl; auto. Qed.

(** X9: in every world and from every state, with or without a teardown, one
    refresh starts the probes of a non-empty initial stretch of the fixed
    order, each once and in that order, and sends at most one request: there
    is no retry and no probe out of turn. *)
Theorem refresh_probes_in_order_and_fetches_at_most_once (env : Env) (st : Indicator) :
  log (refresh env st) = (log st ++ events env st)%list
  /\ (exists post, priority = (probesOf (events env st) ++ post)%list)
  /\ probesOf (events env st) <> []
  /\ length (fetchesOf (events env st)) <= 1.
Proof.
  split; [apply events_spec|].
  destruct (events_cases env st)
    as [(_ & ->) | [(pre & s & post & Hl & ->)
       | [(pre & s & post & t & calls & Hl & _ & _ & _ & ->) | (calls & _ & ->)]]].
  - destruct (teardown env _); simpl; repeat split;
      try (eexists; reflexivity); try discriminate; auto.
  - rewrite probesOf_app, fetchesOf_app, probesOf_map_Probed, fetchesOf_map_Probed.
    simpl. rewrite app_nil_r. split; [|split].
    + exists post. rewrite Hl, <- app_assoc. reflexivity.
    + destruct pre; discriminate.
    + auto.
  - rewrite probesOf_app, fetchesOf_app, probesOf_map_Probed, fetchesOf_map_Probed.
    simpl. rewrite probesOf_app, fetchesOf_app, probesOf_ui, fetchesOf_ui.
    split; [|split].
    + exists post. destruct (teardown env AwaitHttp); simpl;
        rewrite app_nil_r, Hl, <- app_assoc; reflexivity.
    + destruct (teardown env AwaitHttp); simpl; rewrite app_nil_r;
        destruct pre; discriminate.
    + destruct (teardown env AwaitHttp); simpl; auto.
  - rewrite probesOf_app, fetchesOf_app, probesOf_map_Probed, fetchesOf_map_Probed,
      probesOf_ui, fetchesOf_ui. rewrite ?app_nil_r. split; [|split].
    + exists []. rewrite app_nil_r. reflexivity.
    + discriminate.
    + simpl. auto.
Qed.

(** X10: a request is only ever sent with a token that is not empty and that
    is what the probe of some source yielded, every source ahead of it in the
    fixed order having yielded nothing; its URL and headers are the fixed
    ones, with "Authorization: token <t>". *)
Theorem request_carries_first_found_token (env : Env) (st : Indicator)
  (url : string) (headers : list (string * string)) :
  In (url, headers) (fetchesOf (events env st)) ->
  exists pre s post t,
    priority = (pre ++ s :: post)%list
    /\ (forall s', In s' pre -> Js.truthy (probeToken env s') = false)
    /\ probeToken env s = Some t /\ t <> ""
    /\ url = API_URL /\ headers = request_headers t.
Proof.
  intros H.
  destruct (events_cases env st)
    as [(_ & E) | [(pre & s & post & Hl & E)
       | [(pre & s & post & t & calls & Hl & Hp & Ht & Hn & E) | (calls & _ & E)]]];
    rewrite E in H.
  - destruct (teardown env _); simpl in H; contradiction.
  - rewrite fetchesOf_app, fetchesOf_map_Probed in H. simpl in H. contradiction.
  - rewrite fetchesOf_app, fetchesOf_map_Probed in H. simpl in H.
    rewrite fetchesOf_app, fetchesOf_ui in H.
    assert (H' : (API_URL, request_headers t) = (url, headers)).
    { destruct (teardown env AwaitHttp); simpl in H; destruct H as [H | []]; exact H. }
    injection H' as <- <-. exists pre, s, post, t. auto 10.
  - rewrite fetchesOf_app, fetchesOf_map_Probed, fetchesOf_ui in H. simpl in H.
    contradiction.
Qed.

Lemma request_carries_first_found_token_witness :
  exists pre s post t,
    priority = (pre ++ s :: post)%list
    /\ (forall s', In s' pre -> Js.truthy (probeToken ymlEnv s') = false)
    /\ probeToken ymlEnv s = Some t /\ t <> ""
    /\ API_URL = API_URL /\ request_headers "gho_yml" = request_headers t.
Proof.
  apply (request_carries_first_found_token ymlEnv _init API_URL (request_headers "gho_yml")).
  vm_compute. left. reflexivity.
Defined.

(** X11: a teardown that does not fall in the HTTP wait ends the refresh:
    behind the [Destroy] the log of the refresh holds nothing, no probe, no
    request and no call into the toolkit, even when a later source holds a
    token. *)
Theorem nothing_follows_a_teardown_outside_the_fetch (env : Env) (st : Indicator) :
  teardown env AwaitHttp = false ->
  afterDestroy (events env st) = [].
Proof.
  intros Hh.
  destruct (events_cases env st)
    as [(_ & E) | [(pre & s & post & Hl & E)
       | [(pre & s & post & t & calls & Hl & Hp & Ht & Hn & E) | (calls & _ & E)]]];
    rewrite E.
  - destruct (teardown env (AwaitProbe gh_auth_token)); reflexivity.
  - rewrite afterDestroy_map_Probed. reflexivity.
  - rewrite afterDestroy_map_Probed, Hh. simpl. apply afterDestroy_map_UiCalled.
  - rewrite afterDestroy_map_Probed. apply afterDestroy_map_UiCalled.
Qed.

Lemma nothing_follows_a_teardown_outside_the_fetch_witness :
  probeToken tornProbeEnv gh_hosts_yml = Some "gho_yml"
  /\ events tornProbeEnv _init = [Probed gh_auth_token; Probed gh_hosts_yml; Destroy]
  /\ afterDestroy (events tornProbeEnv _init) = [].
Proof.
  split; [reflexivity|]. split; [reflexivity|].
  apply (nothing_follows_a_teardown_outside_the_fetch tornProbeEnv _init).
  reflexivity.
Defined.

(** X12: a refresh started on an indicator that is already destroyed still
    spawns gh, and stops behind that probe: no other source is read, no
    request is sent, no call into the toolkit is made, and the widgets and
    the menu state are what they were. *)
Theorem refresh_of_destroyed_indicator_stops_after_gh (env : Env) (st : Indicator) :
  _destroyed st = true ->
  let st' := refresh env st in
  probesOf (events env st) = [gh_auth_token]
  /\ fetchesOf (events env st) = []
  /\ uiCallsOf (events env st) = []
  /\ ui st' = ui st /\ _menuState st' = _menuState st /\ _destroyed st' = true.
Proof.
  intros H st'. subst st'.
  assert (E : events env st
              = Probed gh_auth_token
                  :: (if teardown env (AwaitProbe gh_auth_token) then [Destroy] else [])).
  { apply events_of_log. rewrite refresh_destroyed by exact H. apply probed_log. }
  rewrite E, refresh_destroyed by exact H. unfold probed, awaited.
  destruct (teardown env _); simpl; auto 10.
Qed.

Lemma refresh_of_destroyed_indicator_stops_after_gh_witness :
  let st := torn (refresh ymlEnv _init) in
  let st' := refresh ymlEnv st in
  probesOf (events ymlEnv st) = [gh_auth_token]
  /\ fetchesOf (events ymlEnv st) = []
  /\ uiCallsOf (events ymlEnv st) = []
  /\ ui st' = ui st /\ _menuState st' = _menuState st /\ _destroyed st' = true.
Proof.
  apply (refresh_of_destroyed_indicator_stops_after_gh ymlEnv (torn (refresh ymlEnv _init))).
  reflexivity.
Defined.

(* ------------------------------------------------------------------------- *)
(** ** The menu state and the layout, over any number of refreshes *)
(* ------------------------------------------------------------------------- *)

Lemma inStep_init : inStep _init.
Proof. unfold inStep, setupLayout. vm_compute. repeat split. Qed.

Lemma inStep_ext (st st' : Indicator) :
  _menuState st' = _menuState st -> ui st' = ui st -> inStep st -> inStep st'.
Proof. unfold inStep. intros -> ->. auto. Qed.

Lemma inStep_frame (st st' : Indicator) :
  _menuState st' = _menuState st ->
  (forall w, w <> _warningDot -> visible (ui st') w = visible (ui st) w) ->
  inStep st -> inStep st'.
Proof.
  unfold inStep, setupLayout, usageLayout. intros -> Hv.
  rewrite !Hv by discriminate. auto.
Qed.

Lemma inStep_usage_frame (st st' : Indicator) :
  _menuState st = Some "usage" -> _menuState st' = Some "usage" ->
  (forall w, w <> _warningDot -> w <> item _chatResult -> w <> _chatSep ->
             visible (ui st') w = visible (ui st) w) ->
  inStep st -> inStep st'.
Proof.
  unfold inStep, usageLayout. intros Hm -> Hv. rewrite Hm.
  rewrite !Hv by discriminate.
  intros [[[E _] | [_ H]] Hs]; [discriminate E|]. split; [right|]; auto.
Qed.

Lemma setMenuState_inStep (s : string) (st : Indicator) :
  s = "setup" \/ s = "usage" -> inStep st -> inStep (execState (_setMenuState s) st).
Proof.
  intros Hs Hst. unfold _setMenuState. run. rewrite exec_if.
  destruct (match _menuState st with Some c => String.eqb c s | None => false end) eqn:E.
  - run. exact Hst.
  - destruct Hst as [_ Hset]. destruct Hs as [-> | ->]; run; unfold inStep, setupLayout,
      usageLayout; simpl; split; try reflexivity.
    + left. repeat split.
    + right. repeat split.
Qed.

Lemma showSetupState_inStep (heading body : string) (st : Indicator) :
  inStep st -> inStep (execState (_showSetupState heading body) st).
Proof.
  intros Hst. unfold _showSetupState. run.
  apply (inStep_frame (execState (_setMenuState "setup") st)).
  - reflexivity.
  - intros w Hw. simpl. upd_solve.
  - apply setMenuState_inStep; auto.
Qed.

Lemma showNetworkError_inStep (detail : string) (st : Indicator) :
  inStep st -> inStep (execState (_showNetworkError detail) st).
Proof.
  destruct (showNetworkError_spec detail st) as (Hm & _ & _ & _ & _ & Hw & _).
  apply inStep_frame; [exact Hm|]. intros w Hne. apply Hw. exact Hne.
Qed.

(** The state [_updateUsageDisplay] reaches on a body with usage fields,
    written out. *)
Lemma exec_updateUsageDisplay_usage (now : nat * nat) (data : CopilotUsageData)
  (st : Indicator) :
  noUsageFields data = false ->
  execState (_updateUsageDisplay now data) st
  = called (set_text _updatedLabel
              ("Updated " ++ Js.padStart2 (Js.ofNat (fst now)) ++ ":"
                 ++ Js.padStart2 (Js.ofNat (snd now))))
      (execState (updateWarningDot (pctRemaining (premium_of data)))
         (execState (updateRow _chatResult (pctRemaining (chat_of data)))
            (execState (updateRow _premiumResult (pctRemaining (premium_of data)))
               (execState (_updateChatVisibility (plan_of data))
                  (called (set_text _planLabel
                             (if Js.truthy (plan_of data)
                              then match plan_of data with
                                   | Some p => _formatPlan p
                                   | None => ""
                                   end
                              else ""))
                     (execState (_setMenuState "usage") st)))))).
Proof. intros H. unfold _updateUsageDisplay. rewrite H. run. reflexivity. Qed.

Lemma updateUsageDisplay_inStep (now : nat * nat) (data : CopilotUsageData)
  (st : Indicator) :
  inStep st -> inStep (execState (_updateUsageDisplay now data) st).
Proof.
  intros Hst. destruct (noUsageFields data) eqn:E.
  - unfold _updateUsageDisplay. rewrite E. apply showSetupState_inStep. exact Hst.
  - rewrite exec_updateUsageDisplay_usage by exact E.
    pose proof (setMenuState_inStep "usage" st (or_intror eq_refl) Hst) as H1.
    destruct (setMenuState_frame "usage" st) as (Hm & _).
    set (st1 := execState (_setMenuState "usage") st) in *.
    set (st2 := called _ st1).
    set (st3 := execState (_updateChatVisibility _) st2).
    destruct (updateRow_spec _premiumResult (pctRemaining (premium_of data)) st3)
      as (M4 & V4 & _).
    set (st4 := execState (updateRow _premiumResult _) st3) in *.
    destruct (updateRow_spec _chatResult (pctRemaining (chat_of data)) st4)
      as (M5 & V5 & _).
    set (st5 := execState (updateRow _chatResult _) st4) in *.
    destruct (updateWarningDot_frame (pctRemaining (premium_of data)) st5)
      as (M6 & _ & _ & V6).
    set (st6 := execState (updateWarningDot _) st5) in *.
    assert (M3 : _menuState st3 = _menuState st1)
      by (unfold st3, _updateChatVisibility; run; reflexivity).
    assert (V3 : forall w, w <> item _chatResult -> w <> _chatSep ->
                           visible (ui st3) w = visible (ui st1) w).
    { intros w H H'. unfold st3, _updateChatVisibility. run. simpl. upd_solve. }
    apply (inStep_usage_frame st1); [exact Hm| | |exact H1].
    + simpl. rewrite M6, M5, M4, M3. exact Hm.
    + intros w Hd Hc Hs. simpl.
      destruct (V6 w Hd) as [-> _]. rewrite V5, V4. apply V3; assumption.
Qed.

Lemma fetchCallback_inStep (env : Env) (st : Indicator) :
  inStep st -> inStep (execState (fetchCallback env) st).
Proof.
  intros Hst. unfold fetchCallback. destruct (http env) as [ | msg | code body].
  - exact Hst.
  - apply showNetworkError_inStep. exact Hst.
  - destruct ((code =? 401) || (code =? 403)).
    + apply showSetupState_inStep. exact Hst.
    + destruct (negb (code =? 200)).
      * apply showNetworkError_inStep. exact Hst.
      * destruct body.
        -- apply showNetworkError_inStep. exact Hst.
        -- apply showNetworkError_inStep. exact Hst.
        -- apply updateUsageDisplay_inStep. exact Hst.
Qed.

Lemma step_inStep (env : Env) (s : TokenSource) (st : Indicator) :
  inStep st -> inStep (if suspends s then probed env s st else logged (Probed s) st).
Proof.
  apply inStep_ext; unfold probed, awaited;
    destruct (suspends s); try destruct (teardown env (AwaitProbe s)); reflexivity.
Qed.

Lemma resolveFrom_inStep (env : Env) (l : list TokenSource) :
  forall st, inStep st -> inStep (resolveFrom env l st).
Proof.
  induction l as [|s l IH]; intros st Hst.
  - simpl. apply showSetupState_inStep. exact Hst.
  - rewrite resolveFrom_cons. cbv zeta.
    pose proof (step_inStep env s st Hst) as H1.
    destruct (suspends s && _); [exact H1|].
    destruct (Js.truthy (probeToken env s)); [|apply IH; exact H1].
    destruct (probeToken env s) as [t|]; [|exact H1].
    rewrite exec_fetchUsage. apply fetchCallback_inStep.
    revert H1. apply inStep_ext; apply answered_frame.
Qed.

Lemma refresh_inStep (env : Env) (st : Indicator) : inStep st -> inStep (refresh env st).
Proof.
  intros Hst. unfold refresh, _refreshUsage. rewrite resolveToken_resolveFrom.
  apply resolveFrom_inStep. exact Hst.
Qed.

(** X13: after any number of refreshes, in whatever worlds (tokens found or
    not, any response, teardowns anywhere), the menu state and the layout
    agree: the state is unset or "setup" with the setup items shown and the
    header, the rows, the chat separator and the footer hidden, or it is
    "usage" with the setup items hidden and the header, the premium row and
    the footer shown; the Settings item is always visible. *)
Theorem menu_state_and_layout_stay_in_step (envs : list Env) :
  inStep (refreshes envs _init).
Proof.
  unfold refreshes. generalize inStep_init. generalize _init.
  induction envs as [|env envs IH]; intros st Hst; simpl.
  - exact Hst.
  - apply IH. apply refresh_inStep. exact Hst.
Qed.

(* ------------------------------------------------------------------------- *)
(** ** The usage display *)
(* ------------------------------------------------------------------------- *)

Lemma length_append (a b : string) :
  String.length (a ++ b) = String.length a + String.length b.
Proof.
  induction a as [|c a IH]; [reflexivity|].
  change (S (String.length (a ++ b)) = S (String.length a + String.length b)).
  rewrite IH. reflexivity.
Qed.

Lemma padStart2_two_digits (n : nat) :
  n < 100 -> String.length (Js.padStart2 (Js.ofNat n)) = 2.
Proof.
  intros H. do 100 (destruct n as [|n]; [reflexivity|]). lia.
Qed.

(** The frame of the steps of a usage display behind [_setMenuState]. *)
Lemma usage_steps_frame (now : nat * nat) (data : CopilotUsageData) (st : Indicator) :
  noUsageFields data = false ->
  let st' := execState (_updateUsageDisplay now data) st in
  _menuState st' = Some "usage"
  /\ text (ui st') _planLabel
     = match plan_of data with Some p => _formatPlan p | None => "" end
  /\ text (ui st') _updatedLabel
     = "Updated " ++ Js.padStart2 (Js.ofNat (fst now)) ++ ":"
         ++ Js.padStart2 (Js.ofNat (snd now))
  /\ text (ui st') _setupHeading = text (ui st) _setupHeading
  /\ text (ui st') _setupBody = text (ui st) _setupBody.
Proof.
  intros E st'. subst st'. rewrite exec_updateUsageDisplay_usage by exact E.
  destruct (setMenuState_frame "usage" st) as (Hm & _ & Ht & _).
  set (st1 := execState (_setMenuState "usage") st) in *.
  set (label := if Js.truthy (plan_of data) then _ else _).
  assert (Hl : label = match plan_of data with Some p => _formatPlan p | None => "" end).
  { unfold label, Js.truthy. destruct (plan_of data) as [p|]; [|reflexivity].
    destruct (String.eqb p "") eqn:P; [|reflexivity].
    apply String.eqb_eq in P. subst p. reflexivity. }
  set (st2 := called (set_text _planLabel label) st1).
  set (st3 := execState (_updateChatVisibility _) st2).
  assert (M3 : _menuState st3 = Some "usage")
    by (unfold st3, _updateChatVisibility; run; exact Hm).
  assert (T3 : forall l, l <> _planLabel -> text (ui st3) l = text (ui st) l).
  { intros l H. unfold st3, _updateChatVisibility. run. simpl. rewrite Ht. upd_solve. }
  assert (P3 : text (ui st3) _planLabel = label)
    by (unfold st3, _updateChatVisibility; run; simpl; upd_solve).
  destruct (updateRow_spec _premiumResult (pctRemaining (premium_of data)) st3)
    as (M4 & _ & T4 & _).
  set (st4 := execState (updateRow _premiumResult _) st3) in *.
  destruct (updateRow_spec _chatResult (pctRemaining (chat_of data)) st4)
    as (M5 & _ & T5 & _).
  set (st5 := execState (updateRow _chatResult _) st4) in *.
  destruct (updateWarningDot_frame (pctRemaining (premium_of data)) st5)
    as (M6 & T6 & _).
  set (st6 := execState (updateWarningDot _) st5) in *.
  simpl. rewrite M6, M5, M4, T6.
  repeat match goal with |- _ /\ _ => split end.
  - exact M3.
  - rewrite upd_other by discriminate.
    rewrite T5, T4 by discriminate. rewrite P3. exact Hl.
  - apply upd_same.
  - rewrite upd_other by discriminate.
    rewrite T5, T4 by discriminate. apply T3. discriminate.
  - rewrite upd_other by discriminate.
    rewrite T5, T4 by discriminate. apply T3. discriminate.
Qed.

(** X14: a body with a usage field puts the menu in the usage state, writes
    the formatted plan (nothing when the plan is absent) in the plan badge
    and "Updated HH:MM" in the footer, hours and minutes padded to two
    digits, so 13 characters for any time of day; the setup texts are left
    alone. *)
Theorem usage_display_writes_plan_and_time (now : nat * nat) (data : CopilotUsageData)
  (st : Indicator) :
  noUsageFields data = false ->
  let st' := execState (_updateUsageDisplay now data) st in
  _menuState st' = Some "usage"
  /\ text (ui st') _planLabel
     = match plan_of data with Some p => _formatPlan p | None => "" end
  /\ text (ui st') _updatedLabel
     = "Updated " ++ Js.padStart2 (Js.ofNat (fst now)) ++ ":"
         ++ Js.padStart2 (Js.ofNat (snd now))
  /\ (fst now < 24 -> snd now < 60 -> String.length (text (ui st') _updatedLabel) = 13)
  /\ text (ui st') _setupHeading = text (ui st) _setupHeading
  /\ text (ui st') _setupBody = text (ui st) _setupBody.
Proof.
  intros E st'. subst st'.
  destruct (usage_steps_frame now data st E) as (Hm & Hp & Hu & Hh & Hb).
  repeat match goal with |- _ /\ _ => split end; auto.
  intros H1 H2. rewrite Hu, !length_append.
  rewrite !padStart2_two_digits by lia. reflexivity.
Qed.

Lemma usage_display_writes_plan_and_time_witness :
  let st' := execState (_updateUsageDisplay (7, 3) (snakeBody "copilot_free" 0)) _init in
  _menuState st' = Some "usage"
  /\ text (ui st') _planLabel = "Copilot Free"
  /\ text (ui st') _updatedLabel = "Updated 07:03".
Proof.
  destruct (usage_display_writes_plan_and_time (7, 3) (snakeBody "copilot_free" 0) _init)
    as (Hm & Hp & Hu & _); [reflexivity|].
  exact (conj Hm (conj Hp Hu)).
Defined.

Lemma noUsageFields_true (data : CopilotUsageData) :
  noUsageFields data = true
  <-> Js.truthy (plan_of data) = false /\ premium_of data = None /\ chat_of data = None.
Proof.
  unfold noUsageFields.
  destruct (Js.truthy (plan_of data)), (premium_of data), (chat_of data); simpl;
    split; intros H; try discriminate H; auto;
    destruct H as (H1 & H2 & H3); discriminate.
Qed.

(** X15: a parsed body ends in the setup state exactly when its plan is
    absent or the empty string and it has neither a premium nor a chat
    snapshot; with a non-empty plan or with either snapshot, even one without
    a percentage, it ends in the usage state. *)
Theorem display_state_by_usage_fields (now : nat * nat) (data : CopilotUsageData)
  (st : Indicator) :
  let st' := execState (_updateUsageDisplay now data) st in
  (_menuState st' = Some "setup"
   <-> Js.truthy (plan_of data) = false /\ premium_of data = None /\ chat_of data = None)
  /\ (_menuState st' = Some "usage"
      <-> Js.truthy (plan_of data) = true \/ premium_of data <> None
          \/ chat_of data <> None)
  /\ (_menuState st' = Some "setup" \/ _menuState st' = Some "usage").
Proof.
  intros st'. subst st'. destruct (noUsageFields data) eqn:E.
  - assert (Hm : _menuState (execState (_updateUsageDisplay now data) st) = Some "setup").
    { unfold _updateUsageDisplay. rewrite E.
      apply (showSetupState_spec NO_DATA_HEADING NO_DATA_BODY st). }
    apply noUsageFields_true in E. destruct E as (H1 & H2 & H3).
    rewrite Hm. split; [|split]; [tauto| |auto].
    split; [discriminate|]. rewrite H1, H2, H3.
    intros [H | [H | H]]; [discriminate H | contradiction | contradiction].
  - destruct (usage_steps_frame now data st E) as (Hm & _). rewrite Hm.
    split; [|split]; [| |auto].
    + split; [discriminate|]. intros H. apply noUsageFields_true in H.
      rewrite H in E. discriminate E.
    + split; [|reflexivity]. intros _. unfold noUsageFields in E.
      destruct (Js.truthy (plan_of data)); [auto|].
      destruct (premium_of data); [right; left; discriminate|].
      destruct (chat_of data); [right; right; discriminate|]. discriminate E.
Qed.

(* ------------------------------------------------------------------------- *)
(** ** The warning dot *)
(* ------------------------------------------------------------------------- *)

(** X16: a usage display shows the warning dot exactly when the premium
    snapshot has a remaining percentage of at most 10, and then adds the
    class "dot-critical" when nothing remains and "dot-high" otherwise,
    keeping every class the dot had (a level class of an earlier display
    included); in every other case it hides the dot and takes both level
    classes off. *)
Theorem usage_display_sets_warning_dot (now : nat * nat) (data : CopilotUsageData)
  (st : Indicator) :
  noUsageFields data = false ->
  let st' := execState (_updateUsageDisplay now data) st in
  match pctRemaining (premium_of data) with
  | Some r =>
      if Number.leb r (Fin 10) then
        visible (ui st') _warningDot = true
        /\ forall c, In c (style_classes (ui st') _warningDot)
                     <-> c = dotClass r \/ In c (style_classes (ui st) _warningDot)
      else
        visible (ui st') _warningDot = false
        /\ forall c, In c (style_classes (ui st') _warningDot)
                     <-> In c (style_classes (ui st) _warningDot)
                         /\ c <> "dot-critical" /\ c <> "dot-high"
  | None =>
      visible (ui st') _warningDot = false
      /\ forall c, In c (style_classes (ui st') _warningDot)
                   <-> In c (style_classes (ui st) _warningDot)
                       /\ c <> "dot-critical" /\ c <> "dot-high"
  end.
Proof.
  intros E st'. subst st'. rewrite exec_updateUsageDisplay_usage by exact E.
  destruct (setMenuState_frame "usage" st) as (_ & _ & _ & _ & Hs & _).
  set (st1 := execState (_setMenuState "usage") st) in *.
  set (st2 := called _ st1).
  set (st3 := execState (_updateChatVisibility _) st2).
  assert (S3 : style_classes (ui st3) = style_classes (ui st))
    by (unfold st3, _updateChatVisibility; run; simpl; exact Hs).
  destruct (updateRow_spec _premiumResult (pctRemaining (premium_of data)) st3)
    as (_ & _ & _ & W4 & _).
  set (st4 := execState (updateRow _premiumResult _) st3) in *.
  destruct (updateRow_spec _chatResult (pctRemaining (chat_of data)) st4)
    as (_ & _ & _ & W5 & _).
  set (st5 := execState (updateRow _chatResult _) st4) in *.
  assert (S5 : style_classes (ui st5) _warningDot = style_classes (ui st) _warningDot).
  { destruct (W5 _warningDot) as [_ ->]; [discriminate|].
    destruct (W4 _warningDot) as [_ ->]; [discriminate|]. rewrite S3. reflexivity. }
  simpl. unfold updateWarningDot, dotClass.
  destruct (pctRemaining (premium_of data)) as [r|]; [destruct (Number.leb r (Fin 10))|];
    run; simpl; rewrite ?upd_same; (split; [reflexivity|]); intros c; rewrite S5.
  - apply In_add_class.
  - rewrite !In_remove_class. tauto.
  - rewrite !In_remove_class. tauto.
Qed.

Lemma usage_display_sets_warning_dot_witness :
  let st := execState (_updateUsageDisplay (7, 3) (snakeBody "pro" 5)) _init in
  let st' := execState (_updateUsageDisplay (7, 4) (snakeBody "pro" 0)) st in
  visible (ui st') _warningDot = true
  /\ In "dot-critical" (style_classes (ui st') _warningDot)
  /\ In "dot-high" (style_classes (ui st') _warningDot).
Proof.
  pose proof (usage_display_sets_warning_dot (7, 4) (snakeBody "pro" 0)
                (execState (_updateUsageDisplay (7, 3) (snakeBody "pro" 5)) _init)
                eq_refl) as H.
  cbv zeta in H.
  change (pctRemaining (premium_of (snakeBody "pro" 0)))
    with (Some (Number.ofDecimal 0)) in H.
  cbv beta iota in H.
  assert (E : Number.leb (Number.ofDecimal 0) (Fin 10) = true) by (vm_compute; reflexivity).
  rewrite E in H. destruct H as (Hv & Hc).
  refine (conj Hv (conj _ _)); apply Hc.
  - left. vm_compute. reflexivity.
  - right. vm_compute. auto.
Defined.

(** X17: the setup state and the network error leave the warning dot visible
    with the class "dot-high" and without "dot-critical", whatever it showed
    before; its other classes are kept. *)
Theorem setup_and_error_show_high_dot (st : Indicator) :
  (forall heading body,
     let st' := execState (_showSetupState heading body) st in
     visible (ui st') _warningDot = true
     /\ forall c, In c (style_classes (ui st') _warningDot)
                  <-> c = "dot-high"
                      \/ (In c (style_classes (ui st) _warningDot) /\ c <> "dot-critical"))
  /\ (forall detail,
        let st' := execState (_showNetworkError detail) st in
        visible (ui st') _warningDot = true
        /\ forall c, In c (style_classes (ui st') _warningDot)
                     <-> c = "dot-high"
                         \/ (In c (style_classes (ui st) _warningDot)
                             /\ c <> "dot-critical")).
Proof.
  split.
  - intros heading body st'. subst st'. unfold _showSetupState. run.
    destruct (setMenuState_frame "setup" st) as (_ & _ & _ & _ & Hs & _).
    simpl. rewrite Hs, !upd_same. split; [reflexivity|].
    intros c. rewrite In_add_class, In_remove_class. tauto.
  - intros detail st'. subst st'. unfold _showNetworkError. run.
    simpl. rewrite !upd_same. split; [reflexivity|].
    intros c. rewrite In_add_class, In_remove_class. tauto.
Qed.

(* ------------------------------------------------------------------------- *)
(** ** A 200 response without a usable body *)
(* ------------------------------------------------------------------------- *)

(** X18: a 200 response whose body is empty, or whose body cannot be decoded
    or parsed, is reported like a network error: "Error: Empty response from
    API", or "Error: " and the parser's message, in the footer label with the
    warning dot on; the menu state, the other labels and the bars are what
    they were. *)
Theorem unusable_body_is_a_network_error (env : Env) (token : string) (st : Indicator)
  (detail : string) :
  (http env = Response 200 NoData /\ detail = "Empty response from API")
  \/ http env = Response 200 (ParseThrows detail) ->
  let st' := execState (_fetchUsage env token) st in
  text (ui st') _updatedLabel = "Error: " ++ detail
  /\ visible (ui st') _warningDot = true
  /\ _menuState st' = _menuState st
  /\ (forall l, l <> _updatedLabel -> text (ui st') l = text (ui st) l)
  /\ (forall w, w <> _warningDot ->
       visible (ui st') w = visible (ui st) w
       /\ style_classes (ui st') w = style_classes (ui st) w)
  /\ (forall w, width (ui st') w = width (ui st) w).
Proof.
  intros H st'. subst st'. rewrite exec_fetchUsage.
  assert (E : execState (fetchCallback env) (answered env token st)
              = execState (_showNetworkError detail) (answered env token st)).
  { unfold fetchCallback. destruct H as [[-> ->] | ->]; reflexivity. }
  rewrite E.
  destruct (showNetworkError_spec detail (answered env token st))
    as (Hm & _ & Ht & Hv & Hl & Hw & Hx).
  destruct (answered_frame env token st) as (Em & Eu).
  rewrite Eu in Hl, Hw, Hx. rewrite Em in Hm. auto 10.
Qed.

Lemma unusable_body_is_a_network_error_witness :
  let env := with_http ymlEnv (Response 200 NoData) in
  let st := refresh ymlEnv _init in
  let st' := execState (_fetchUsage env "gho_yml") st in
  text (ui st') _updatedLabel = "Error: Empty response from API"
  /\ _menuState st' = Some "usage"
  /\ text (ui st') (usedLabel _premiumResult) = "20%".
Proof.
  destruct (unusable_body_is_a_network_error (with_http ymlEnv (Response 200 NoData))
              "gho_yml" (refresh ymlEnv _init) "Empty response from API")
    as (Ht & _ & Hm & Hl & _).
  - left. split; reflexivity.
  - refine (conj Ht (conj _ _)).
    + rewrite Hm. reflexivity.
    + rewrite Hl by discriminate. reflexivity.
Defined.

(* ------------------------------------------------------------------------- *)
(** ** From the preferences dialog to the request *)
(* ------------------------------------------------------------------------- *)

Lemma applyToken_other (text : string) (env : Env) (s : TokenSource) :
  s <> settings_github_token -> probeToken (applyToken text env) s = probeToken env s.
Proof. intros H. destruct s; try reflexivity. congruence. Qed.

(** X19: the token the preferences dialog stores is its text trimmed, and the
    settings probe yields exactly what was stored; when no other source has a
    token, the next refresh sends one request with "Authorization: token"
    and the trimmed text, or none at all when the text was blank. *)
Theorem saved_token_is_the_token_sent (text : string) (env : Env) (st : Indicator) :
  _destroyed st = false ->
  (forall s, s <> settings_github_token -> Js.truthy (probeToken env s) = false) ->
  (forall s, teardown env (AwaitProbe s) = false) ->
  github_token (applyToken text env) = Js.trim text
  /\ probeToken (applyToken text env) settings_github_token = Some (Js.trim text)
  /\ fetchesOf (events (applyToken text env) st)
     = if String.eqb (Js.trim text) "" then []
       else [(API_URL, request_headers (Js.trim text))].
Proof.
  intros Hst Hsil Hcalm.
  assert (Hp : probeToken (applyToken text env) settings_github_token
               = Some (Js.trim text)).
  { simpl. rewrite trim_idem. reflexivity. }
  split; [reflexivity|]. split; [exact Hp|].
  assert (Hsil' : forall s, s <> settings_github_token ->
                            Js.truthy (probeToken (applyToken text env) s) = false).
  { intros s H. rewrite applyToken_other by exact H. apply Hsil. exact H. }
  destruct (String.eqb (Js.trim text) "") eqn:E.
  - destruct (events_cases (applyToken text env) st)
      as [(Hd & _) | [(pre & s & post & Hl & Ev)
         | [(pre & s & post & t & calls & Hl & _ & Ht & Hn & Ev) | (calls & _ & Ev)]]].
    + congruence.
    + rewrite Ev, fetchesOf_app, fetchesOf_map_Probed. reflexivity.
    + exfalso. destruct (TokenSource_eq_dec s settings_github_token) as [-> | Hs].
      * rewrite Hp in Ht. injection Ht as <-. apply String.eqb_eq in E. contradiction.
      * specialize (Hsil' s Hs). rewrite Ht, (truthy_nonempty t Hn) in Hsil'.
        discriminate Hsil'.
    + rewrite Ev, fetchesOf_app, fetchesOf_map_Probed, fetchesOf_ui. reflexivity.
  - apply String.eqb_neq in E.
    destruct (refresh_found_log (applyToken text env) st settings_github_token
                (Js.trim text)) as (tail & L & _ & F).
    + exact Hst.
    + intros s' Hin. apply Hsil'. intros ->. simpl in Hin.
      repeat (destruct Hin as [Hin | Hin]; [discriminate Hin|]). exact Hin.
    + exact Hp.
    + exact E.
    + intros s' _. apply Hcalm.
    + rewrite (events_of_log _ _ _ L), fetchesOf_app, fetchesOf_map_Probed.
      simpl. rewrite F. reflexivity.
Qed.

Lemma saved_token_is_the_token_sent_witness :
  probeToken (applyToken "  ghp_saved " bareEnv) settings_github_token = Some "ghp_saved"
  /\ fetchesOf (events (applyToken "  ghp_saved " bareEnv) _init)
     = [(API_URL, request_headers "ghp_saved")].
Proof.
  destruct (saved_token_is_the_token_sent "  ghp_saved " bareEnv _init)
    as (_ & Hp & Hf).
  - reflexivity.
  - intros s _. destruct s; reflexivity.
  - intros s. reflexivity.
  - exact (conj Hp Hf).
Defined.

(* ------------------------------------------------------------------------- *)
(** ** The refresh timer *)
(* ------------------------------------------------------------------------- *)

(** Without the class-field initialiser the timer would be stopped. *)
Lemma stopTimer_after_startTimer (interval : Z) (n : nat) :
  Timer.armed (Timer._stopTimer (Timer._startTimer interval (Timer.init n))) = [].
Proof.
  unfold Timer._startTimer. cbv zeta. destruct (interval <=? 0)%Z; simpl; [reflexivity|].
  rewrite Nat.eqb_refl. reflexivity.
Qed.

Lemma stopTimer_null (st : Timer.State) :
  Timer._timerId st = Timer.null -> Timer._stopTimer st = st.
Proof. intros H. unfold Timer._stopTimer. rewrite H. reflexivity. Qed.

(** X20: the indicator loses track of its timer.  [_init] arms one timeout
    source when the refresh interval is positive (none otherwise) and stores
    its id in [_timerId]; the class-field initialiser [_timerId = null], which
    runs after [_init], then forgets it.  So once the indicator is
    constructed [_timerId] is [null], [destroy()] removes no source, however
    often it is called, and the source stays armed; had [_stopTimer] run
    before the initialiser, nothing would be left armed. *)
Theorem timer_id_is_lost_after_init (interval : Z) (n : nat) :
  let st := Timer.construct interval n in
  Timer._timerId st = Timer.null
  /\ Timer.armed st = (if (interval <=? 0)%Z then [] else [(n, interval)])
  /\ (forall k, Nat.iter k Timer.destroy st = st)
  /\ Timer.armed (Timer._stopTimer (Timer._startTimer interval (Timer.init n))) = [].
Proof.
  intros st.
  assert (Hid : Timer._timerId st = Timer.null) by reflexivity.
  split; [exact Hid|]. split; [|split].
  - unfold st, Timer.construct, Timer._startTimer. cbv zeta.
    destruct (interval <=? 0)%Z; reflexivity.
  - intros k. induction k as [|k IH]; [reflexivity|].
    simpl. rewrite IH. apply stopTimer_null. exact Hid.
  - apply stopTimer_after_startTimer.
Qed.

(* ------------------------------------------------------------------------- *)
(** ** The premium bar and the warning dot *)
(* ------------------------------------------------------------------------- *)

Lemma usageClass_critical (pct : number) :
  usageClass (clampedPct pct) = "usage-critical" <-> Number.le (Fin 90) pct.
Proof.
  unfold usageClass.
  destruct (Number.leb (Fin 90) (clampedPct pct)) eqn:E.
  - split; [|reflexivity]. intros _. revert E. unfold clampedPct, Number.min, Number.max.
    destruct (Number.leb (Fin 0) pct) eqn:E0.
    + destruct (Number.leb (Fin 100) pct) eqn:E1; [|auto].
      intros _. apply (number_le_trans (Fin 90) (Fin 100) pct); [reflexivity | exact E1].
    + change (Number.leb (Fin 100) (Fin 0)) with false. cbv iota.
      intros C. discriminate C.
  - split.
    + destruct (Number.leb (Fin 70) _); [discriminate|].
      destruct (Number.leb (Fin 40) _); discriminate.
    + intros H. apply clampedPct_mono in H.
      change (clampedPct (Fin 90)) with (Fin 90) in H. unfold Number.le in H. congruence.
Qed.

Lemma updateRow_bar_classes (r : Row) (rem : option number) (st : Indicator) :
  style_classes (ui (execState (updateRow r rem) st)) (bar r)
  = add_class (usageClass (clampedPct (match rem with
                                        | Some x => Number.sub 100 x
                                        | None => Fin 0
                                        end)))
      (remove_class "usage-critical"
         (remove_class "usage-high"
            (remove_class "usage-medium"
               (remove_class "usage-low" (style_classes (ui st) (bar r)))))).
Proof.
  unfold updateRow. destruct rem as [x|]; run; simpl.
  - apply (exec_updateBar (bar r) (Number.sub 100 x) st).
  - apply (exec_updateBar (bar r) (Fin 0) st).
Qed.

Lemma updateWarningDot_visible (premR : option number) (st : Indicator) :
  visible (ui (execState (updateWarningDot premR) st)) _warningDot
  = match premR with
    | Some r => Number.leb r (Fin 10)
    | None => false
    end.
Proof.
  unfold updateWarningDot.
  destruct premR as [r|]; [destruct (Number.leb r (Fin 10))|]; run; simpl; upd_solve.
Qed.

(** X21: after a usage display the warning dot is shown exactly when the
    premium snapshot has at most 10 % remaining, and the premium bar is in
    the critical band (class "usage-critical") exactly when [100 - r], as
    binary64 computes it, is at least 90, whatever classes the bar had
    before.  Whenever the dot is shown the bar is critical.  The converse
    fails by a rounding: [critical_bar_without_warning_dot]. *)
Theorem warning_dot_implies_critical_bar (now : nat * nat) (data : CopilotUsageData)
  (st : Indicator) :
  noUsageFields data = false ->
  let st' := execState (_updateUsageDisplay now data) st in
  (visible (ui st') _warningDot = true
   <-> exists r, pctRemaining (premium_of data) = Some r /\ Number.le r (Fin 10))
  /\ (In "usage-critical" (style_classes (ui st') (bar _premiumResult))
      <-> exists r, pctRemaining (premium_of data) = Some r
                    /\ Number.le (Fin 90) (Number.sub 100 r))
  /\ (visible (ui st') _warningDot = true ->
      In "usage-critical" (style_classes (ui st') (bar _premiumResult))).
Proof.
  intros E st'. subst st'. rewrite exec_updateUsageDisplay_usage by exact E.
  set (st3 := execState (_updateChatVisibility _) _).
  pose proof (updateRow_bar_classes _premiumResult (pctRemaining (premium_of data)) st3)
    as B4.
  set (st4 := execState (updateRow _premiumResult _) st3) in *.
  destruct (updateRow_spec _chatResult (pctRemaining (chat_of data)) st4)
    as (_ & _ & _ & W5 & _).
  set (st5 := execState (updateRow _chatResult _) st4) in *.
  destruct (updateWarningDot_frame (pctRemaining (premium_of data)) st5)
    as (_ & _ & _ & V6).
  pose proof (updateWarningDot_visible (pctRemaining (premium_of data)) st5) as D6.
  set (st6 := execState (updateWarningDot _) st5) in *.
  simpl.
  destruct (V6 (bar _premiumResult)) as [_ ->]; [discriminate|].
  destruct (W5 (bar _premiumResult)) as [_ ->]; [discriminate|].
  rewrite B4, D6, In_add_class, !In_remove_class.
  assert (D : match pctRemaining (premium_of data) with
              | Some r => Number.leb r (Fin 10)
              | None => false
              end = true
              <-> exists r, pctRemaining (premium_of data) = Some r /\ Number.le r (Fin 10)).
  { destruct (pctRemaining (premium_of data)) as [r|].
    - split; [eauto|]. intros (r' & Hr & H). injection Hr as <-. exact H.
    - split; [discriminate|]. intros (r' & Hr & _). discriminate Hr. }
  assert (C : "usage-critical"
              = usageClass (clampedPct match pctRemaining (premium_of data) with
                                       | Some x => Number.sub 100 x
                                       | None => Fin 0
                                       end)
              <-> exists r, pctRemaining (premium_of data) = Some r
                            /\ Number.le (Fin 90) (Number.sub 100 r)).
  { destruct (pctRemaining (premium_of data)) as [r|].
    - split.
      + intros H. symmetry in H. apply usageClass_critical in H. eauto.
      + intros (r' & Hr & H). injection Hr as <-. symmetry.
        apply usageClass_critical. exact H.
    - split; [discriminate|]. intros (r' & Hr & _). discriminate Hr. }
  split; [exact D|]. split.
  - rewrite <- C. split; [|auto]. intros [H | H]; [exact H|]. exfalso. tauto.
  - intros H. left. apply C. apply D in H. destruct H as (r & Hr & H).
    exists r. split; [exact Hr|]. apply sub_100_critical. exact H.
Qed.

Lemma warning_dot_implies_critical_bar_witness :
  let st' := execState (_updateUsageDisplay (7, 3) (snakeBody "pro" 10)) _init in
  In "usage-critical" (style_classes (ui st') (bar _premiumResult))
  /\ visible (ui st') _warningDot = true.
Proof.
  destruct (warning_dot_implies_critical_bar (7, 3) (snakeBody "pro" 10) _init eq_refl)
    as (H1 & _ & H3).
  assert (V : visible (ui (execState (_updateUsageDisplay (7, 3) (snakeBody "pro" 10))
                             _init)) _warningDot = true).
  { apply H1. exists (Number.ofDecimal 10). split; vm_compute; reflexivity. }
  split; [apply H3; exact V | exact V].
Defined.

(** With 10.000000000000002 % remaining, [100 - r] is exactly 90 in
    binary64: the bar is critical although the warning dot is hidden. *)
Example critical_bar_without_warning_dot :
  let r := (10000000000000002 # 1000000000000000)%Q in
  let st' := execState (_updateUsageDisplay (7, 3) (snakeBody "pro" r)) _init in
  Number.sub 100 (Number.ofDecimal r) = Fin 90
  /\ In "usage-critical" (style_classes (ui st') (bar _premiumResult))
  /\ visible (ui st') _warningDot = false.
Proof. vm_compute. repeat split. auto. Qed.

(* ------------------------------------------------------------------------- *)
(** ** Which tokens are trimmed *)
(* ------------------------------------------------------------------------- *)

Lemma trimEnd_split (s : string) :
  exists ws, s = Js.trimEnd s ++ ws /\ stringAll Js.isWhiteSpace ws = true.
Proof.
  induction s as [|c s (ws & E & W)].
  - exists "". auto.
  - simpl Js.trimEnd. destruct (Js.trimEnd s) as [|d r] eqn:T.
    + destruct (Js.isWhiteSpace c) eqn:Hc.
      * exists (String c ws). split.
        -- change ("" ++ ws) with ws in E. rewrite <- E. reflexivity.
        -- simpl. rewrite Hc, W. reflexivity.
      * exists ws. split; [|exact W].
        change ("" ++ ws) with ws in E. rewrite <- E. reflexivity.
    + exists ws. split; [|exact W].
      change (String c s = String c (String d r ++ ws)). rewrite <- E. reflexivity.
Qed.

Lemma append_assoc (a b c : string) : (a ++ b) ++ c = a ++ (b ++ c).
Proof.
  induction a as [|x a IH]; [reflexivity|].
  change (String x ((a ++ b) ++ c) = String x (a ++ (b ++ c))). rewrite IH. reflexivity.
Qed.

(** [trim] takes white space off both ends and nothing else. *)
Lemma trim_split (s : string) :
  exists ws1 ws2,
    s = ws1 ++ Js.trim s ++ ws2
    /\ stringAll Js.isWhiteSpace ws1 = true /\ stringAll Js.isWhiteSpace ws2 = true.
Proof.
  destruct (trimStart_split s) as (ws1 & E1 & W1).
  destruct (trimEnd_split (Js.trimStart s)) as (ws2 & E2 & W2).
  exists ws1, ws2. split; [|split; assumption].
  unfold Js.trim. rewrite <- E2. exact E1.
Qed.

Lemma oauthJson_entries_first (ahead : list (option OauthEntry)) (e : OauthEntry)
  (behind : list (option OauthEntry)) (t : string) :
  (forall e', In (Some e') ahead -> Js.truthy (accessToken e') = false) ->
  accessToken e = Some t -> t <> "" ->
  oauthJson_entries (ahead ++ Some e :: behind) = Some t.
Proof.
  intros Ha He Ht. induction ahead as [|x ahead IH]; simpl.
  - rewrite He, (truthy_nonempty t Ht). reflexivity.
  - destruct x as [e'|].
    + rewrite (Ha e') by (simpl; auto). apply IH. intros e'' H. apply Ha. simpl; auto.
    + simpl. apply IH. intros e'' H. apply Ha. simpl; auto.
Qed.

Lemma oauthJson_loop_first (data : Record_ (list (option OauthEntry)))
  (pre : list string) (key : string) (post : list string)
  (entries : list (option OauthEntry)) (t : string) :
  (forall k es e', In k pre -> get data k = Some es -> In (Some e') es ->
                   Js.truthy (accessToken e') = false) ->
  get data key = Some entries -> oauthJson_entries entries = Some t ->
  oauthJson_loop data (pre ++ key :: post) = Some t.
Proof.
  intros Hpre Hk Ht. induction pre as [|p pre IH]; simpl.
  - rewrite Hk, Ht. reflexivity.
  - assert (IH' : oauthJson_loop data (pre ++ key :: post) = Some t).
    { apply IH. intros k es e' H. apply Hpre. simpl; auto. }
    destruct (get data p) as [es|] eqn:G; [|exact IH'].
    assert (N : oauthJson_entries es = None).
    { apply oauthJson_entries_none. intros e' He. apply (Hpre p es e'); simpl; auto. }
    rewrite N. exact IH'.
Qed.

(** The token a JSON file holds is what its probe yields, as it is. *)
Lemma holdsToken_probeToken (env : Env) (s : TokenSource) (t : string) :
  holdsToken env s t -> t <> "" -> probeToken env s = Some t.
Proof.
  intros H Ht.
  destruct s; simpl in H; try contradiction.
  - destruct H as (data & e & E & Hg & He). simpl. rewrite E. simpl.
    rewrite Hg. exact He.
  - destruct H as (data & pre & key & post & E & Hk & Hpre & Hkey). simpl. rewrite E.
    simpl. rewrite Hk. apply appsJson_loop_first; assumption.
  - destruct H as (data & pre & key & post & ahead & e & behind & E & Hk & Hpre & Hg
                   & Ha & He).
    simpl. rewrite E. simpl. rewrite Hk.
    apply (oauthJson_loop_first data pre key post (ahead ++ Some e :: behind) t);
      [exact Hpre | exact Hg |].
    apply oauthJson_entries_first; assumption.
Qed.

(** What a refresh logs when the first source with a token is [s]. *)
Lemma found_events (env : Env) (st : Indicator) (s : TokenSource) (t : string) :
  _destroyed st = false ->
  (forall s', teardown env (AwaitProbe s') = false) ->
  (forall s', In s' (before s) -> Js.truthy (probeToken env s') = false) ->
  probeToken env s = Some t -> t <> "" ->
  probesOf (events env st) = (before s ++ [s])%list
  /\ fetchesOf (events env st) = [(API_URL, request_headers t)].
Proof.
  intros Hst Hcalm Hpre Hp Ht.
  destruct (refresh_found_log env st s t Hst Hpre Hp Ht) as (tail & L & P & F).
  { intros s' _. apply Hcalm. }
  rewrite (events_of_log _ _ _ L).
  rewrite probesOf_app, fetchesOf_app, probesOf_map_Probed, fetchesOf_map_Probed.
  simpl. rewrite P, F, app_nil_r. auto.
Qed.

(** How a refresh of a live indicator that is left alone ends. *)
Lemma calm_events (env : Env) (st : Indicator) :
  _destroyed st = false ->
  (forall s, teardown env (AwaitProbe s) = false) ->
  (exists pre s post t tail,
     priority = (pre ++ s :: post)%list
     /\ probeToken env s = Some t /\ t <> ""
     /\ events env st
        = (map Probed (pre ++ [s]) ++ HttpGet API_URL (request_headers t) :: tail)%list
     /\ probesOf tail = [] /\ fetchesOf tail = [])
  \/ ((forall s, Js.truthy (probeToken env s) = false)
      /\ exists calls, events env st = (map Probed priority ++ map UiCalled calls)%list).
Proof.
  intros Hst Hcalm.
  destruct (resolveFrom_cases env priority st Hst)
    as [(pre & s & post & Hl & Hp & Hs & Ht & E)
       | [(pre & s & post & t & Hl & Hp & Ht & Hn & E) | (Hall & E)]].
  - rewrite Hcalm in Ht. discriminate Ht.
  - left. destruct (fetchUsage_log env t (probedAll (pre ++ [s]) st)) as (calls & L).
    destruct (probedAll_frame (pre ++ [s]) st) as (Lp & _).
    exists pre, s, post, t,
      ((if teardown env AwaitHttp then [Destroy] else []) ++ map UiCalled calls)%list.
    split; [exact Hl|]. split; [exact Ht|]. split; [exact Hn|]. split.
    + apply events_of_log. unfold refresh, _refreshUsage.
      rewrite resolveToken_resolveFrom, E, L, Lp, <- app_assoc. reflexivity.
    + rewrite probesOf_app, fetchesOf_app, probesOf_ui, fetchesOf_ui.
      destruct (teardown env AwaitHttp); split; reflexivity.
  - right. split.
    + intros s. apply Hall. destruct s; simpl; auto 10.
    + destruct (uiOnly_showSetupState NO_TOKEN_HEADING NO_TOKEN_BODY (probedAll priority st))
        as (calls & L & _).
      destruct (probedAll_frame priority st) as (Lp & _).
      exists calls. apply events_of_log. unfold refresh, _refreshUsage.
      rewrite resolveToken_resolveFrom, E, L, Lp, <- app_assoc. reflexivity.
Qed.

(** C10: a token that hosts.json, apps.json or oauth.json holds is used as
    it is: when [t], which may be white space or have white space around it,
    is the first non-empty token of such a file and no earlier source has
    one, the refresh probes up to that file and sends one request, with
    "Authorization: token <t>".  The subprocess and the settings key are
    trimmed: when gh prints [out], the refresh sends [trim out] and probes
    nothing else, or, [trim out] being empty, goes on to hosts.yml; when no
    other source has a token, the refresh sends the settings value trimmed,
    or nothing when that is empty.  And [trim] takes the white space off
    both ends, and only that. *)
Theorem only_subprocess_and_settings_tokens_are_trimmed (env : Env) (st : Indicator) :
  _destroyed st = false ->
  (forall s, teardown env (AwaitProbe s) = false) ->
  (forall s t,
     holdsToken env s t -> t <> "" ->
     (forall s', In s' (before s) -> Js.truthy (probeToken env s') = false) ->
     In s [copilot_hosts_json; copilot_apps_json; copilot_oauth_json]
     /\ probesOf (events env st) = (before s ++ [s])%list
     /\ fetchesOf (events env st) = [(API_URL, request_headers t)]
     /\ In ("Authorization", "token " ++ t) (request_headers t))
  /\ (forall out,
        gh_subprocess env = Communicated (Some out) ->
        if String.eqb (Js.trim out) ""
        then exists rest,
               probesOf (events env st) = gh_auth_token :: gh_hosts_yml :: rest
        else probesOf (events env st) = [gh_auth_token]
             /\ fetchesOf (events env st) = [(API_URL, request_headers (Js.trim out))])
  /\ ((forall s', In s' (before settings_github_token) ->
                  Js.truthy (probeToken env s') = false) ->
      fetchesOf (events env st)
      = if String.eqb (Js.trim (github_token env)) "" then []
        else [(API_URL, request_headers (Js.trim (github_token env)))])
  /\ (forall raw,
        exists ws1 ws2,
          raw = ws1 ++ Js.trim raw ++ ws2
          /\ stringAll Js.isWhiteSpace ws1 = true
          /\ stringAll Js.isWhiteSpace ws2 = true
          /\ Js.trimStart (Js.trim raw) = Js.trim raw
          /\ Js.trimEnd (Js.trim raw) = Js.trim raw).
Proof.
  intros Hst Hcalm. split; [|split; [|split]].
  - intros s t H Ht Hpre.
    pose proof (holdsToken_probeToken env s t H Ht) as Hp.
    destruct (found_events env st s t Hst Hcalm Hpre Hp Ht) as [P F].
    split; [|split; [exact P|split; [exact F|simpl; auto]]].
    destruct s; simpl in H; try contradiction; simpl; auto.
  - intros out Hgh.
    assert (Hp : probeToken env gh_auth_token
                 = if String.eqb (Js.trim out) "" then None else Some (Js.trim out)).
    { simpl. rewrite Hgh. unfold subprocessToken, Js.truthy. simpl.
      destruct (String.eqb (Js.trim out) ""); reflexivity. }
    destruct (String.eqb (Js.trim out) "") eqn:E.
    + destruct (calm_events env st Hst Hcalm)
        as [(pre & s & post & t & tail & Hl & Hs & Hn & Ev & _) | (_ & calls & Ev)].
      * rewrite Ev, probesOf_app, probesOf_map_Probed.
        destruct pre as [|p0 pre].
        -- injection Hl as <- _. rewrite Hp in Hs. discriminate Hs.
        -- injection Hl as <- Hl. destruct pre as [|p1 pre].
           ++ injection Hl as <- _. simpl. eauto.
           ++ injection Hl as <- _. simpl. eauto.
      * rewrite Ev, probesOf_app, probesOf_map_Probed. simpl. eauto.
    + apply String.eqb_neq in E.
      apply (found_events env st gh_auth_token (Js.trim out) Hst Hcalm);
        [intros s' [] | exact Hp | exact E].
  - intros Hpre. destruct (String.eqb (Js.trim (github_token env)) "") eqn:E.
    + destruct (calm_events env st Hst Hcalm)
        as [(pre & s & post & t & tail & Hl & Hs & Hn & _) | (_ & calls & Ev)].
      * exfalso.
        assert (Hsil : Js.truthy (probeToken env s) = false).
        { destruct s; try (apply Hpre; simpl; tauto).
          simpl. rewrite E. reflexivity. }
        rewrite Hs, (truthy_nonempty t Hn) in Hsil. discriminate Hsil.
      * rewrite Ev, fetchesOf_app, fetchesOf_map_Probed, fetchesOf_ui. reflexivity.
    + apply String.eqb_neq in E.
      apply (found_events env st settings_github_token (Js.trim (github_token env))
               Hst Hcalm Hpre); [reflexivity | exact E].
  - intros raw. destruct (trim_split raw) as (ws1 & ws2 & E & W1 & W2).
    destruct (trim_trimmed raw) as [T1 T2].
    exists ws1, ws2. auto.
Qed.

Lemma only_subprocess_and_settings_tokens_are_trimmed_witness :
  fetchesOf (events (tokenEnv (Communicated (Some "gho_cli
")) paddedHosts paddedApps paddedOauth "  ghp_manual  ") _init)
  = [(API_URL, request_headers "gho_cli")]
  /\ fetchesOf (events (tokenEnv SpawnThrows paddedHosts paddedApps paddedOauth
                          "  ghp_manual  ") _init)
     = [(API_URL, request_headers " ghu_hosts ")]
  /\ fetchesOf (events (tokenEnv SpawnThrows ReadThrows paddedApps paddedOauth
                          "  ghp_manual  ") _init)
     = [(API_URL, request_headers "ghu_apps ")]
  /\ fetchesOf (events (tokenEnv SpawnThrows ReadThrows ReadThrows paddedOauth
                          "  ghp_manual  ") _init)
     = [(API_URL, request_headers " ghu_oauth")]
  /\ fetchesOf (events (tokenEnv SpawnThrows ReadThrows ReadThrows ReadThrows
                          "  ghp_manual  ") _init)
     = [(API_URL, request_headers "ghp_manual")]
  /\ fetchesOf (events (tokenEnv (Communicated (Some " 
")) ReadThrows ReadThrows ReadThrows "   ") _init)
     = []
  /\ fetchesOf (events (tokenEnv (Communicated (Some " 
")) blankHosts ReadThrows ReadThrows "   ") _init)
     = [(API_URL, request_headers " ")].
Proof.
  assert (Calm : forall gh hosts apps oauth setting s,
             teardown (tokenEnv gh hosts apps oauth setting) (AwaitProbe s) = false)
    by reflexivity.
  refine (conj _ (conj _ (conj _ (conj _ (conj _ (conj _ _)))))).
  - destruct (only_subprocess_and_settings_tokens_are_trimmed
                (tokenEnv (Communicated (Some "gho_cli
")) paddedHosts paddedApps paddedOauth "  ghp_manual  ") _init eq_refl (Calm _ _ _ _ _))
      as (_ & G & _).
    exact (proj2 (G _ eq_refl)).
  - destruct (only_subprocess_and_settings_tokens_are_trimmed
                (tokenEnv SpawnThrows paddedHosts paddedApps paddedOauth "  ghp_manual  ")
                _init eq_refl (Calm _ _ _ _ _)) as (F & _).
    destruct (F copilot_hosts_json " ghu_hosts ") as (_ & _ & H & _).
    + simpl. eexists. eexists. repeat split; reflexivity.
    + discriminate.
    + simpl. intros s' [<- | [<- | []]]; reflexivity.
    + exact H.
  - destruct (only_subprocess_and_settings_tokens_are_trimmed
                (tokenEnv SpawnThrows ReadThrows paddedApps paddedOauth "  ghp_manual  ")
                _init eq_refl (Calm _ _ _ _ _)) as (F & _).
    destruct (F copilot_apps_json "ghu_apps ") as (_ & _ & H & _).
    + simpl. eexists. exists ["github.com:Iv1.a"], "github.com:Iv1.b", [].
      split; [reflexivity|]. split; [reflexivity|]. split; [|reflexivity].
      intros k [<- | []]. reflexivity.
    + discriminate.
    + simpl. intros s' [<- | [<- | [<- | []]]]; reflexivity.
    + exact H.
  - destruct (only_subprocess_and_settings_tokens_are_trimmed
                (tokenEnv SpawnThrows ReadThrows ReadThrows paddedOauth "  ghp_manual  ")
                _init eq_refl (Calm _ _ _ _ _)) as (F & _).
    destruct (F copilot_oauth_json " ghu_oauth") as (_ & _ & H & _).
    + simpl. eexists. exists ["https://github.com/login/oauth"],
        "https://github.com/login/device", [],
        [Some {| accessToken := Some "" |}], {| accessToken := Some " ghu_oauth" |}, [].
      split; [reflexivity|]. split; [reflexivity|]. split; [|split; [reflexivity|split]].
      * intros k es e' [<- | []] G. injection G as <-.
        intros [E | [E | []]]; [discriminate E | injection E as <-; reflexivity].
      * intros e' [E | []]. injection E as <-. reflexivity.
      * reflexivity.
    + discriminate.
    + simpl. intros s' [<- | [<- | [<- | [<- | []]]]]; reflexivity.
    + exact H.
  - destruct (only_subprocess_and_settings_tokens_are_trimmed
                (tokenEnv SpawnThrows ReadThrows ReadThrows ReadThrows "  ghp_manual  ")
                _init eq_refl (Calm _ _ _ _ _)) as (_ & _ & S & _).
    apply S. simpl. intros s' [<- | [<- | [<- | [<- | [<- | []]]]]]; reflexivity.
  - destruct (only_subprocess_and_settings_tokens_are_trimmed
                (tokenEnv (Communicated (Some " 
")) ReadThrows ReadThrows ReadThrows "   ") _init eq_refl (Calm _ _ _ _ _))
      as (_ & _ & S & _).
    apply S. simpl. intros s' [<- | [<- | [<- | [<- | [<- | []]]]]]; reflexivity.
  - destruct (only_subprocess_and_settings_tokens_are_trimmed
                (tokenEnv (Communicated (Some " 
")) blankHosts ReadThrows ReadThrows "   ") _init eq_refl (Calm _ _ _ _ _)) as (F & _).
    destruct (F copilot_hosts_json " ") as (_ & _ & H & _).
    + simpl. eexists. eexists. repeat split; reflexivity.
    + discriminate.
    + simpl. intros s' [<- | [<- | []]]; reflexivity.
    + exact H.
Defined.

(* ------------------------------------------------------------------------- *)
(** ** The payload under either spelling *)
(* ------------------------------------------------------------------------- *)

(** C4: what a usage display shows is read from the body under either
    spelling of its keys, the snake_case one first.  With [plan] the value
    of "copilot_plan" or else of "copilotPlan", [snapshots] the value of
    "quota_snapshots" or else of "quotaSnapshots", [premium] its
    "premium_interactions" or else its "premiumInteractions", and the
    remaining percentage of a snapshot its "percent_remaining" or else its
    "percentRemaining": the plan badge shows [plan] formatted, the chat row
    is visible exactly for a limited [plan], each usage row shows the
    remaining percentage of its snapshot (or "unlimited" when there is none
    under either key), and the warning dot follows the remaining percentage
    of [premium]. *)
Theorem display_uses_either_spelling_snake_first (now : nat * nat)
  (data : CopilotUsageData) (st : Indicator) :
  let plan := match copilot_plan data with
              | Some p => Some p
              | None => copilotPlan data
              end in
  let snapshots := match quota_snapshots data with
                   | Some s => Some s
                   | None => quotaSnapshots data
                   end in
  let premium := match snapshots with
                 | Some s => match premium_interactions s with
                             | Some q => Some q
                             | None => premiumInteractions s
                             end
                 | None => None
                 end in
  let chatSnapshot := match snapshots with
                      | Some s => chat s
                      | None => None
                      end in
  let remaining (snap : option QuotaSnapshot) :=
    match snap with
    | Some q => match percent_remaining q with
                | Some r => Some r
                | None => percentRemaining q
                end
    | None => None
    end in
  Js.truthy plan = true \/ premium <> None \/ chatSnapshot <> None ->
  let st' := execState (_updateUsageDisplay now data) st in
  _menuState st' = Some "usage"
  /\ text (ui st') _planLabel = match plan with Some p => _formatPlan p | None => "" end
  /\ visible (ui st') (item _chatResult) = isLimited plan
  /\ (forall r,
        match remaining (match r with
                         | _premiumResult => premium
                         | _chatResult => chatSnapshot
                         end) with
        | Some rem =>
            text (ui st') (usedLabel r)
            = Number.toString (Number.round (Number.sub 100 rem)) ++ "%"
            /\ text (ui st') (percentLabel r) = Number.toFixed0 rem ++ "% remaining"
            /\ width (ui st') (bar r)
               = Number.round
                   (Number.mul (Number.div (clampedPct (Number.sub 100 rem)) 100) TRACK_PX)
        | None =>
            text (ui st') (usedLabel r) = "unlimited"
            /\ text (ui st') (percentLabel r) = ""
            /\ width (ui st') (bar r) = Fin 0
        end)
  /\ visible (ui st') _warningDot
     = match remaining premium with
       | Some rem => Number.leb rem (Fin 10)
       | None => false
       end.
Proof.
  intros plan snapshots premium chatSnapshot remaining H st'.
  assert (Ep : plan_of data = plan)
    by (unfold plan_of, plan, Js.nullish; destruct (copilot_plan data); reflexivity).
  assert (Es : snapshots_of data = snapshots)
    by (unfold snapshots_of, snapshots, Js.nullish; destruct (quota_snapshots data);
        reflexivity).
  assert (Eq : premium_of data = premium).
  { unfold premium_of, premium. rewrite Es. destruct snapshots as [s|]; [|reflexivity].
    unfold Js.nullish. destruct (premium_interactions s); reflexivity. }
  assert (Ec : chat_of data = chatSnapshot)
    by (unfold chat_of, chatSnapshot; rewrite Es; reflexivity).
  assert (Er : forall snap, pctRemaining snap = remaining snap).
  { intros [q|]; [|reflexivity]. unfold pctRemaining, remaining, Js.nullish.
    destruct (percent_remaining q); reflexivity. }
  assert (E : noUsageFields data = false).
  { unfold noUsageFields. rewrite Ep, Eq, Ec.
    destruct H as [H | [H | H]].
    - rewrite H. reflexivity.
    - destruct premium; [|contradiction]. apply andb_false_iff. left.
      apply andb_false_iff. right. reflexivity.
    - destruct chatSnapshot; [|contradiction]. apply andb_false_iff. right. reflexivity. }
  clearbody plan premium chatSnapshot remaining. clear H snapshots Es.
  destruct (usage_steps_frame now data st E) as (Hm & Hp & _).
  split; [exact Hm|]. split; [rewrite <- Ep; exact Hp|].
  subst st'.
  destruct (exec_updateUsageDisplay now data st E) as (st3 & label & _ & Hc & _ & X).
  rewrite X. clear X.
  pose proof (updateRow_spec _premiumResult (pctRemaining (premium_of data)) st3) as P.
  set (st4 := execState (updateRow _premiumResult _) st3) in *.
  pose proof (updateRow_spec _chatResult (pctRemaining (chat_of data)) st4) as C.
  set (st5 := execState (updateRow _chatResult _) st4) in *.
  destruct (updateWarningDot_frame (pctRemaining (premium_of data)) st5)
    as (_ & Wt & Ww & Wv).
  pose proof (updateWarningDot_visible (pctRemaining (premium_of data)) st5) as D.
  set (st6 := execState (updateWarningDot _) st5) in *.
  cbv zeta in P, C.
  destruct P as (_ & Pv & _ & _ & P). destruct C as (_ & Cv & Ct & Cw & C).
  assert (Hw : forall w, width (ui (called (set_text _updatedLabel label) st6)) w
                         = width (ui st5) w)
    by (intros w; simpl; rewrite Ww; reflexivity).
  assert (Ht : forall l, l <> _updatedLabel ->
                         text (ui (called (set_text _updatedLabel label) st6)) l
                         = text (ui st5) l)
    by (intros l Hl; simpl; rewrite Wt; upd_solve).
  split; [|split].
  - simpl. destruct (Wv (item _chatResult)) as [-> _]; [discriminate|].
    rewrite Cv, Pv, <- Ep. exact Hc.
  - intros r. rewrite Hw, !Ht by discriminate. destruct r.
    + destruct (Cw (bar _premiumResult)) as [-> _]; [discriminate|].
      rewrite !Ct by discriminate. rewrite <- Er, <- Eq.
      destruct (pctRemaining (premium_of data)) as [rem|].
      * destruct P as (Pw & Pu & Pp). auto.
      * destruct P as (Pw & Pu & Pp). auto.
    + rewrite <- Er, <- Ec.
      destruct (pctRemaining (chat_of data)) as [rem|].
      * destruct C as (Pw & Pu & Pp). auto.
      * destruct C as (Pw & Pu & Pp). auto.
  - simpl. rewrite D, <- Er, <- Eq. reflexivity.
Qed.

Lemma display_uses_either_spelling_snake_first_witness :
  let camel := execState (_updateUsageDisplay (9, 5) (camelBody "copilot_free" 35)) _init in
  let mixed := execState (_updateUsageDisplay (9, 5) (mixedBody "pro" 80 "free" 5)) _init in
  (text (ui camel) _planLabel = "Copilot Free"
   /\ visible (ui camel) (item _chatResult) = true
   /\ text (ui camel) (usedLabel _premiumResult) = "65%"
   /\ text (ui camel) (percentLabel _premiumResult) = "35% remaining")
  /\ (text (ui mixed) _planLabel = "Pro"
      /\ visible (ui mixed) (item _chatResult) = false
      /\ text (ui mixed) (usedLabel _premiumResult) = "20%"
      /\ text (ui mixed) (percentLabel _premiumResult) = "80% remaining"
      /\ visible (ui mixed) _warningDot = false).
Proof.
  split.
  - destruct (display_uses_either_spelling_snake_first (9, 5) (camelBody "copilot_free" 35)
                _init) as (_ & Hp & Hc & Hr & _).
    + left. reflexivity.
    + specialize (Hr _premiumResult).
      unfold camelBody in Hr. cbv beta iota zeta delta [copilot_plan copilotPlan
        quota_snapshots quotaSnapshots premium_interactions premiumInteractions
        percent_remaining percentRemaining] in Hr.
      destruct Hr as (Hu & Hl & _).
      refine (conj Hp (conj Hc (conj _ _))).
      * refine (eq_trans Hu _). vm_compute. reflexivity.
      * refine (eq_trans Hl _). vm_compute. reflexivity.
  - destruct (display_uses_either_spelling_snake_first (9, 5) (mixedBody "pro" 80 "free" 5)
                _init) as (_ & Hp & Hc & Hr & Hd).
    + left. reflexivity.
    + specialize (Hr _premiumResult).
      unfold mixedBody in Hr, Hd. cbv beta iota zeta delta [copilot_plan copilotPlan
        quota_snapshots quotaSnapshots premium_interactions premiumInteractions
        percent_remaining percentRemaining] in Hr, Hd.
      destruct Hr as (Hu & Hl & _).
      refine (conj Hp (conj Hc (conj _ (conj _ _)))).
      * refine (eq_trans Hu _). vm_compute. reflexivity.
      * refine (eq_trans Hl _). vm_compute. reflexivity.
      * refine (eq_trans Hd _). vm_compute. reflexivity.
Defined.
